(** * UBIBoot: the FAT32 kernel loader of [src/fat.c]

    A shallow embedding of the five functions of [fat.c]
    ([get_first_partition], [process_boot_sector], [load_from_cluster],
    [find_file], [mmc_load_kernel]) and the properties of the loader.

    Conventions.
    - [uint32_t] values are integers reduced modulo [2^32] after every
      arithmetic operation; [int] values ([-1], [0], [1], truth values)
      are plain integers.
    - Pointers are 32-bit addresses, [NULL] is address [0]; pointer
      arithmetic wraps modulo [2^32].
    - The four globals, the RAM the loader writes to and the sequence of
      externally visible actions (block reads requested from the MMC
      driver, output on the serial line) form the machine state, which is
      passed explicitly.
    - Loops that the C code does not bound ([while (1)], pointer walks)
      take a [fuel] argument and answer [None] when it runs out. *)

From Stdlib Require Import ZArith List Lia Bool String.
Import ListNotations.
Open Scope Z_scope.

(** ** Machine integers *)

Definition u32 (z : Z) : Z := z mod 2 ^ 32.
Definition u8 (z : Z) : Z := z mod 2 ^ 8.

Definition add32 (a b : Z) : Z := u32 (a + b).
Definition sub32 (a b : Z) : Z := u32 (a - b).
Definition mul32 (a b : Z) : Z := u32 (a * b).

Definition NULL : Z := 0.

(** C truth values. *)
Definition lnot (x : Z) : Z := if x =? 0 then 1 else 0.
Definition truth (b : bool) : Z := if b then 1 else 0.

(** ** Buffers, strings *)

(** A buffer is read by byte offset; RAM is read by address. *)
Definition buffer := Z -> Z.

(** A C string is read by index; a literal is followed by its
    terminating NUL. *)
Definition cstring := Z -> Z.
Definition literal (s : list Z) : cstring :=
  fun i => if i <? 0 then 0 else nth (Z.to_nat i) s 0.

(** [strncmp] of <string.h>: compares at most [n] characters, stops after
    a NUL; zero exactly when no difference was met. *)
Fixpoint strncmp_from (s1 s2 : cstring) (i : Z) (n : nat) : Z :=
  match n with
  | O => 0
  | S n' =>
      let c1 := s1 i in
      let c2 := s2 i in
      if c1 =? c2
      then if c1 =? 0 then 0 else strncmp_from s1 s2 (i + 1) n'
      else c1 - c2
  end.

Definition strncmp (s1 s2 : cstring) (n : nat) : Z := strncmp_from s1 s2 0 n.

(** ** What the headers provide

    [fat.h], [config.h] and the target's byte order are not part of
    [fat.c]: the constants and the struct layouts are parameters of the
    development.  Each struct field is an accessor on the raw buffer
    (or on RAM, for directory entries, by the entry's address). *)

Class Headers := {
  FAT_BLOCK_SIZE : Z;
  ATTR_VOLUME : Z;
  ATTR_DIR : Z;
  FAT_BOOTFILE_NAME : list Z;
  FAT_BOOTFILE_ALT_NAME : list Z;
  (** the [i]-th [uint32_t] of a buffer, in the target's byte order *)
  word_at : buffer -> Z -> Z;
  (** [struct mbr] *)
  mbr_signature : buffer -> Z;
  mbr_partition0_status : buffer -> Z;
  mbr_partition0_lba : buffer -> Z;
  (** [struct boot_sector] *)
  bs_reserved : buffer -> Z;
  bs_fat32_length : buffer -> Z;
  bs_fats : buffer -> Z;
  bs_root_cluster : buffer -> Z;
  bs_cluster_size : buffer -> Z;
  (** [struct volume_info], placed [sizeof(struct boot_sector)] bytes
      into the sector: [vinfo->fs_type[i]] *)
  vinfo_fs_type : buffer -> cstring;
  (** [struct dir_entry], by address in RAM *)
  sizeof_dir_entry : Z;
  entry_name : (Z -> Z) -> Z -> cstring;
  entry_attr : (Z -> Z) -> Z -> Z;
  entry_starthi : (Z -> Z) -> Z -> Z;
  entry_start : (Z -> Z) -> Z -> Z
}.

(** ** The outside world *)

(** Where a block read stores its data: a local array of the calling
    function, or RAM at an address. *)
Inductive destination :=
| Local
| Ram (addr : Z).

Inductive event :=
| BlockRead (id : Z) (dst : destination) (src num : Z)
| PutI (code : Z)
| PutS (msg : string).

(** The MMC driver: the bytes of each sector of each device, and the
    status of a request (0, or an error code), which may depend on what
    happened before. *)
Record device := {
  disk : Z -> Z -> Z -> Z;
  status : list event -> Z -> Z -> Z -> Z
}.

(** ** Machine state *)

Record machine := {
  lba_fat1 : Z;       (* sector of first FAT *)
  lba_data : Z;       (* sector of first cluster *)
  root_cluster : Z;   (* cluster where root dir starts *)
  cluster_size : Z;   (* sectors per cluster *)
  ram : Z -> Z;
  log : list event
}.

Definition emit (e : event) (st : machine) : machine :=
  {| lba_fat1 := lba_fat1 st; lba_data := lba_data st;
     root_cluster := root_cluster st; cluster_size := cluster_size st;
     ram := ram st; log := log st ++ [e] |}.

Definition store (m : Z -> Z) (st : machine) : machine :=
  {| lba_fat1 := lba_fat1 st; lba_data := lba_data st;
     root_cluster := root_cluster st; cluster_size := cluster_size st;
     ram := m; log := log st |}.

Definition set_geometry (fat1 data root csize : Z) (st : machine) : machine :=
  {| lba_fat1 := fat1; lba_data := data;
     root_cluster := root; cluster_size := csize;
     ram := ram st; log := log st |}.

Definition newline : string := String (Ascii.ascii_of_nat 10) EmptyString.

Definition SERIAL_PUTI (code : Z) : machine -> machine := emit (PutI code).
Definition SERIAL_PUTS (msg : string) : machine -> machine := emit (PutS msg).

(** Observations on a log.  Inside [load_from_cluster] the only local
    array is the FAT sector buffer, so the local reads of its log are its
    FAT-sector reads. *)
Definition is_local_read (e : event) : bool :=
  match e with BlockRead _ Local _ _ => true | _ => false end.

Definition is_block_read (e : event) : bool :=
  match e with BlockRead _ _ _ _ => true | _ => false end.

Definition is_diag (e : event) : bool :=
  match e with PutI _ => true | _ => false end.

(** The data reads of a log, as (first sector, number of sectors). *)
Fixpoint data_reads (l : list event) : list (Z * Z) :=
  match l with
  | [] => []
  | BlockRead _ (Ram _) src num :: l' => (src, num) :: data_reads l'
  | _ :: l' => data_reads l'
  end.

Definition total_sectors (l : list event) : Z :=
  fold_right (fun r acc => snd r + acc) 0 (data_reads l).

Section Loader.

Context {hdr : Headers}.
Variable dev : device.

(** Contents of a local array before anything is stored in it. *)
Variable junk : buffer.

(** ** mmc_block_read *)

(** The bytes of [num] sectors from sector [src] on, by offset. *)
Definition blocks (id src : Z) : buffer :=
  fun off => disk dev id (u32 (src + off / FAT_BLOCK_SIZE)) (off mod FAT_BLOCK_SIZE).

(** Into a local array (one sector at every call site). A failed read
    leaves the array as it was. *)
Definition mmc_block_read_local (id : Z) (buf : buffer) (src num : Z)
    (st : machine) : Z * buffer * machine :=
  let rc := status dev (log st) id src num in
  let st' := emit (BlockRead id Local src num) st in
  if rc =? 0 then (rc, blocks id src, st') else (rc, buf, st').

(** Into RAM at address [dst]: [num * FAT_BLOCK_SIZE] bytes. A failed
    read leaves RAM as it was. *)
Definition mmc_block_read (id : Z) (dst : Z) (src num : Z)
    (st : machine) : Z * machine :=
  let rc := status dev (log st) id src num in
  let st' := emit (BlockRead id (Ram dst) src num) st in
  if rc =? 0
  then (rc, store (fun a =>
                     let k := u32 (a - dst) in
                     if k <? num * FAT_BLOCK_SIZE then blocks id src k
                     else ram st a) st')
  else (rc, st').

(** ** get_first_partition

    [*lba] is passed in and out. *)
Definition get_first_partition (id : Z) (lba : Z) (st : machine)
    : Z * Z * machine :=
  let '(rc, mbr, st) := mmc_block_read_local id junk 0 1 st in
  if negb (rc =? 0) then
    (* Unable to read bootsector. *)
    (-1, lba, SERIAL_PUTI 0x00 st)
  else if negb (mbr_signature mbr =? 0xAA55) then
    (* No MBR detected. *)
    (-1, lba, SERIAL_PUTI 0x01 st)
  else if negb (mbr_partition0_status mbr =? 0)
          && negb (mbr_partition0_status mbr =? 0x80) then
    (* Unable to detect first physical partition. *)
    (-1, lba, SERIAL_PUTI 0x02 st)
  else
    (0, mbr_partition0_lba mbr, st).

(** ** process_boot_sector *)

Definition FAT32 : list Z := [70; 65; 84; 51; 50].

Definition process_boot_sector (id : Z) (lba : Z) (st : machine)
    : Z * machine :=
  let '(rc, sector, st) := mmc_block_read_local id junk lba 1 st in
  if negb (rc =? 0) then
    (* Unable to read from first partition. *)
    (-1, SERIAL_PUTI 0x03 st)
  else
    let fat1 := add32 lba (bs_reserved sector) in
    let data := add32 fat1 (mul32 (bs_fat32_length sector) (bs_fats sector)) in
    let st := set_geometry fat1 data (u32 (bs_root_cluster sector))
                (u8 (bs_cluster_size sector)) st in
    if negb (strncmp (vinfo_fs_type sector) (literal FAT32) 5 =? 0) then
      (* No FAT32 filesystem detected. *)
      (-1, SERIAL_PUTI 0x05 st)
    else
      (0, SERIAL_PUTS ("MMC: FAT32 filesystem detected." ++ newline) st).

(** ** load_from_cluster *)

Definition entries_per_sector : Z := Z.shiftr FAT_BLOCK_SIZE 2.

Definition fat_sector_of (st : machine) (cluster : Z) : Z :=
  add32 (lba_fat1 st) (cluster / entries_per_sector).

Definition data_sector_of (st : machine) (cluster : Z) : Z :=
  add32 (lba_data st) (mul32 (sub32 cluster 2) (cluster_size st)).

(** The test that ends the outer loop. *)
Definition chain_end (cluster : Z) : bool :=
  (0x0ffffff0 <=? cluster) || (cluster <=? 1).

(** The initial value of [cached_fat_sector]: [-1] as a [uint32_t]. *)
Definition NO_SECTOR : Z := u32 (-1).

(** The "Read FAT" step of the inner loop: the status, the sector buffer
    and the cached sector number after it. *)
Definition read_fat (id : Z) (sector : buffer) (cached cluster : Z)
    (st : machine) : Z * buffer * Z * machine :=
  let fat_sector := fat_sector_of st cluster in
  if negb (fat_sector =? cached) then
    let '(rc, sector', st') := mmc_block_read_local id sector fat_sector 1 st in
    if negb (rc =? 0) then (rc, sector', cached, st')
    else (0, sector', fat_sector, st')
  else (0, sector, cached, st).

(** The successor the inner loop takes from the sector buffer. *)
Definition successor (sector : buffer) (cluster : Z) : Z :=
  Z.land (word_at sector (cluster mod entries_per_sector)) 0x0fffffff.

(** The two nested [while (1)] loops, entered at the head of the inner
    loop with the batch ([data_sector], [num_data_sectors]) in hand.  One
    unit of fuel is one FAT lookup.  A contiguous successor re-enters the
    inner loop; otherwise the batch is read and, unless the chain ended,
    the next pass of the outer loop sets up a new batch and enters the
    inner loop again. *)
Fixpoint batch_loop (fuel : nat) (id : Z) (sector : buffer)
    (cached_fat_sector cluster data_sector num_data_sectors ld_addr : Z)
    (st : machine) : option (Z * machine) :=
  match fuel with
  | O => None
  | S fuel' =>
      (* Read FAT *)
      let '(rc, sector, cached_fat_sector, st) :=
        read_fat id sector cached_fat_sector cluster st in
      if negb (rc =? 0) then
        (* Unable to read the FAT table. *)
        Some (NULL, SERIAL_PUTI 0x04 st)
      else
        let prev_cluster := cluster in
        let cluster := successor sector cluster in
        if cluster =? add32 prev_cluster 1 then
          batch_loop fuel' id sector cached_fat_sector cluster data_sector
            (add32 num_data_sectors (cluster_size st)) ld_addr st
        else
          (* Read file data *)
          let '(rc, st) :=
            mmc_block_read id ld_addr data_sector num_data_sectors st in
          if negb (rc =? 0) then
            (* Unable to read from first partition. *)
            Some (NULL, SERIAL_PUTI 0x03 st)
          else
            let ld_addr := u32 (ld_addr + mul32 num_data_sectors FAT_BLOCK_SIZE) in
            if chain_end cluster then Some (ld_addr, st)
            else
              batch_loop fuel' id sector cached_fat_sector cluster
                (data_sector_of st cluster) (u32 (cluster_size st)) ld_addr st
  end.

Definition load_from_cluster (fuel : nat) (id : Z) (cluster : Z) (ld_addr : Z)
    (st : machine) : option (Z * machine) :=
  batch_loop fuel id junk NO_SECTOR cluster
    (data_sector_of st cluster) (u32 (cluster_size st)) ld_addr st.

(** ** find_file *)

Definition skipped (m : Z -> Z) (entry : Z) : bool :=
  negb (Z.land (entry_attr m entry) (Z.lor ATTR_VOLUME ATTR_DIR) =? 0).

Fixpoint find_file (fuel : nat) (m : Z -> Z) (entry end_ : Z) (name : cstring)
    : option Z :=
  match fuel with
  | O => None
  | S fuel' =>
      if (entry =? end_) || (entry_name m entry 0 =? 0) then Some NULL
      else if skipped m entry then
        find_file fuel' m (u32 (entry + sizeof_dir_entry)) end_ name
      else if strncmp (entry_name m entry) name 11 =? 0 then Some entry
      else find_file fuel' m (u32 (entry + sizeof_dir_entry)) end_ name
  end.

(** ** mmc_load_kernel *)

(** The two kernels the loop looks for. *)
Inductive kernel := Regular | Alternate.

Definition bootfile (k : kernel) : list Z :=
  match k with
  | Regular => FAT_BOOTFILE_NAME
  | Alternate => FAT_BOOTFILE_ALT_NAME
  end.

(** The branch [if (i == !!alt)]. *)
Definition candidate (alt i : Z) : kernel :=
  if i =? lnot (lnot alt) then Regular else Alternate.

(** The locals that live across passes of the [for] loop. *)
Record search := {
  dir_start : Z;
  dir_end : Z;
  err : Z
}.

(** A pass either returns from the function or falls through to [i++]. *)
Inductive flow :=
| Return (v : Z)
| Continue (s : search).

(** The block [if (!dir_start) { ... }]. *)
Definition load_root (fuel : nat) (id ld_addr : Z) (s : search) (st : machine)
    : option (flow * machine) :=
  if dir_start s =? NULL then
    (* Load root directory. *)
    match load_from_cluster fuel id (root_cluster st) ld_addr st with
    | None => None
    | Some (e, st') =>
        if e =? NULL then Some (Return (-1), st')
        else Some (Continue {| dir_start := ld_addr; dir_end := e;
                               err := err s |}, st')
    end
  else Some (Continue s, st).

Definition start_cluster (m : Z -> Z) (entry : Z) : Z :=
  u32 (Z.lor (Z.shiftl (entry_starthi m entry) 16) (entry_start m entry)).

(** The search for the pass's candidate and the load of its chain. *)
Definition load_candidate (fuel : nat) (id ld_addr alt i : Z) (s : search)
    (st : machine) : option (flow * machine) :=
  match find_file fuel (ram st) (dir_start s) (dir_end s)
          (literal (bootfile (candidate alt i))) with
  | None => None
  | Some entry =>
      if entry =? NULL then Some (Continue s, st)
      else
        let st := SERIAL_PUTS ("MMC: Loading kernel file..." ++ newline) st in
        match load_from_cluster fuel id (start_cluster (ram st) entry)
                ld_addr st with
        | None => None
        | Some (p, st') =>
            if negb (p =? NULL) then Some (Return (truth (i =? lnot alt)), st')
            else Some (Continue {| dir_start := NULL; dir_end := dir_end s;
                                   err := -1 |}, st')
        end
  end.

(** One pass of the body of the [for] loop. *)
Definition pass (fuel : nat) (id ld_addr alt i : Z) (s : search)
    (st : machine) : option (flow * machine) :=
  match load_root fuel id ld_addr s st with
  | Some (Continue s', st') => load_candidate fuel id ld_addr alt i s' st'
  | r => r
  end.

(** [n] passes from index [i] on. *)
Fixpoint passes (n : nat) (fuel : nat) (id ld_addr alt i : Z) (s : search)
    (st : machine) : option (flow * machine) :=
  match n with
  | O => Some (Continue s, st)
  | S n' =>
      match pass fuel id ld_addr alt i s st with
      | Some (Continue s', st') => passes n' fuel id ld_addr alt (i + 1) s' st'
      | r => r
      end
  end.

(** [lba] and [dir_end] have no value before they are assigned; the
    code reads neither before it assigns them, they start at [0] here. *)
Definition mmc_load_kernel (fuel : nat) (id ld_addr alt : Z) (st : machine)
    : option (Z * machine) :=
  let '(e, lba, st) := get_first_partition id 0 st in
  if negb (e =? 0) then Some (e, st)
  else
    let '(e, st) := process_boot_sector id lba st in
    if negb (e =? 0) then Some (e, st)
    else
      match passes 2 fuel id ld_addr alt 0
              {| dir_start := NULL; dir_end := 0; err := 0 |} st with
      | None => None
      | Some (Return v, st) => Some (v, st)
      | Some (Continue s, st) =>
          if negb (err s =? 0) then Some (err s, st)
          else
            (* Kernel file not found. *)
            Some (-1, SERIAL_PUTI 0x07 st)
      end.

End Loader.

(** ** Chains, runs and the expected sequence of reads

    The vocabulary of the statements about [load_from_cluster].  The
    geometry is taken from a machine state [g]; the FAT is the one on the
    device. *)

(** A device none of whose requests fails. *)
Definition reliable (dev : device) : Prop :=
  forall h i s n, status dev h i s n = 0.

Definition same_geometry (g st : machine) : Prop :=
  lba_fat1 st = lba_fat1 g /\ lba_data st = lba_data g /\
  root_cluster st = root_cluster g /\ cluster_size st = cluster_size g.

Section Chains.

Context {hdr : Headers}.
Variable dev : device.
Variable id : Z.
Variable g : machine.

(** The successor of a cluster in the FAT on the device: the low 28 bits
    of its entry. *)
Definition fat_next (c : Z) : Z :=
  successor (blocks dev id (fat_sector_of g c)) c.

(** The [n]-th successor of [c]. *)
Fixpoint chain_at (n : nat) (c : Z) : Z :=
  match n with
  | O => c
  | S n' => fat_next (chain_at n' c)
  end.

(** Where the loader stops: at a successor that ends the chain and is not
    the number after its predecessor's (the loader compares for
    contiguity first and tests for the end only once a batch is closed). *)
Definition stops (c s : Z) : bool :=
  negb (s =? add32 c 1) && chain_end s.

(** [c :: l] is linked through the FAT and followed by [t]. *)
Fixpoint follows (c : Z) (l : list Z) (t : Z) : Prop :=
  match l with
  | [] => fat_next c = t
  | c' :: l' => fat_next c = c' /\ follows c' l' t
  end.

(** The loader walks [c :: l] to its end and stops at [t]. *)
Fixpoint walked (c : Z) (l : list Z) (t : Z) : Prop :=
  match l with
  | [] => fat_next c = t /\ stops c t = true
  | c' :: l' => fat_next c = c' /\ stops c c' = false /\ walked c' l' t
  end.

(** The maximal runs of consecutive cluster numbers of [c :: l], each as
    (first cluster, number of clusters). *)
Fixpoint runs (c : Z) (l : list Z) : list (Z * Z) :=
  match l with
  | [] => [(c, 1)]
  | c' :: l' =>
      if c' =? add32 c 1 then
        match runs c' l' with
        | (_, k) :: r => (c, k + 1) :: r
        | [] => [(c, 1)]
        end
      else (c, 1) :: runs c' l'
  end.

(** The read that loads a run. *)
Definition run_read (r : Z * Z) : Z * Z :=
  (data_sector_of g (fst r), mul32 (snd r) (cluster_size g)).

(** The FAT-sector read of a lookup, if there is one. *)
Definition fat_read (cached c : Z) : list event :=
  if fat_sector_of g c =? cached then []
  else [BlockRead id Local (fat_sector_of g c) 1].

(** The requests the loader makes from the head of the inner loop, at
    cluster [c] with the batch [(ds, nm)] in hand and [l] still to come. *)
Fixpoint requests (cached ds nm addr c : Z) (l : list Z) : list event :=
  fat_read cached c ++
  match l with
  | [] => [BlockRead id (Ram addr) ds nm]
  | c' :: l' =>
      if c' =? add32 c 1 then
        requests (fat_sector_of g c) ds (add32 nm (cluster_size g)) addr c' l'
      else
        BlockRead id (Ram addr) ds nm ::
        requests (fat_sector_of g c) (data_sector_of g c') (u32 (cluster_size g))
          (u32 (addr + mul32 nm FAT_BLOCK_SIZE)) c' l'
  end.

End Chains.

(** ** Directory entries, as the statements about [find_file] name them *)

Section Entries.

Context {hdr : Headers}.
Variable m : Z -> Z.
Variable first : Z.
Variable name : cstring.

(** The address of the [k]-th entry from [first]. *)
Definition slot (k : nat) : Z := u32 (first + Z.of_nat k * sizeof_dir_entry).

(** The entry is in use: its name does not start with a zero byte. *)
Definition live (k : nat) : Prop := entry_name m (slot k) 0 <> 0.

(** The entry has the volume-label or the directory attribute. *)
Definition labelled (k : nat) : Prop :=
  Z.land (entry_attr m (slot k)) ATTR_VOLUME <> 0
  \/ Z.land (entry_attr m (slot k)) ATTR_DIR <> 0.

(** The 11 bytes of the entry's name are those of the name looked for. *)
Definition named (k : nat) : Prop :=
  forall i, 0 <= i < 11 -> entry_name m (slot k) i = name i.

(** The scan passes over the entry: it is in use, and is labelled or
    named otherwise. *)
Definition passed (k : nat) : Prop := live k /\ (labelled k \/ ~ named k).

End Entries.

(** ** The value [mmc_load_kernel] reports for each kernel *)

Definition code_of (k : kernel) : Z :=
  match k with
  | Regular => 0
  | Alternate => 1
  end.

(** The locals of the [for] loop when it is entered. *)
Definition loop_entry : search := {| dir_start := NULL; dir_end := 0; err := 0 |}.

Definition loading : string := "MMC: Loading kernel file..." ++ newline.

(** What a run shows from outside: the value returned and the log. *)
Definition outcome (r : option (Z * machine)) : option (Z * list event) :=
  option_map (fun x => (fst x, log (snd x))) r.

(** ** Further vocabulary for the loader *)

(** What [load_from_cluster] may put on the log: reads of the device it
    was given, FAT-sector reads of one sector, and the codes 0x03, 0x04. *)
Definition loader_event (id : Z) (e : event) : Prop :=
  match e with
  | BlockRead i Local _ n => i = id /\ n = 1
  | BlockRead i (Ram _) _ _ => i = id
  | PutI code => code = 0x03 \/ code = 0x04
  | PutS _ => False
  end.

(** The sectors a one-sector cache misses on, when asked for [sectors]
    in order with [cached] in it. *)
Fixpoint misses (cached : Z) (sectors : list Z) : list Z :=
  match sectors with
  | [] => []
  | s :: rest => if s =? cached then misses s rest else s :: misses s rest
  end.

(** The local reads of a log, as sector numbers. *)
Fixpoint local_reads (l : list event) : list Z :=
  match l with
  | [] => []
  | BlockRead _ Local src _ :: l' => src :: local_reads l'
  | _ :: l' => local_reads l'
  end.

(** How a call of the loader that started in [st] with destination
    [addr] has ended, with result [p] in state [st']: it has only added
    loader events to the log and kept the geometry, and either it met no
    failure and [p] is the destination advanced by the sectors read, or
    [p] is [NULL] and the log ends with the read that failed and its
    diagnostic: 0x04 after a FAT-sector read, 0x03 after a data read. *)
Definition loader_outcome {hdr : Headers} (dev : device) (id : Z)
    (st : machine) (addr p : Z) (st' : machine) : Prop :=
  exists evs,
    log st' = log st ++ evs
    /\ same_geometry st st'
    /\ Forall (loader_event id) evs
    /\ ((filter is_diag evs = []
         /\ p = u32 (addr + total_sectors evs * FAT_BLOCK_SIZE))
        \/ (p = NULL
            /\ exists evs0 s,
                 evs = evs0 ++ [BlockRead id Local s 1; PutI 0x04]
                 /\ filter is_diag evs0 = []
                 /\ status dev (log st ++ evs0) id s 1 <> 0)
        \/ (p = NULL
            /\ exists evs0 a s n,
                 evs = evs0 ++ [BlockRead id (Ram a) s n; PutI 0x03]
                 /\ filter is_diag evs0 = []
                 /\ status dev (log st ++ evs0) id s n <> 0)).

(** ** The attempts of [mmc_load_kernel] *)

(** The order of the two kernels, as the specification words it: the
    regular (primary) kernel first when the flag is false, the alternate
    one first when the flag is true. *)
Definition priority (alt : Z) : kernel * kernel :=
  if alt =? 0 then (Regular, Alternate) else (Alternate, Regular).

(** How the attempt at one kernel ends: its name is not in the
    directory; or its file is found and its chain loaded, leaving the
    machine in [st']; or it is found and the load of its chain fails,
    leaving the machine in [st']. *)
Inductive attempt :=
| Absent
| Loaded (st' : machine)
| Failed (st' : machine).

Section Attempts.

Context {hdr : Headers}.
Variable dev : device.
Variable junk : buffer.
Variable fuel : nat.
Variable id : Z.
Variable ld_addr : Z.

(** The load of the root directory at the destination, from the machine
    in state [st]: its result is the end of the directory, or [NULL]. *)
Definition root_load (st : machine) : option (Z * machine) :=
  load_from_cluster dev junk fuel id (root_cluster st) ld_addr st.

(** [attempted k e st a]: with the directory between the destination and
    [e] in the RAM of [st], the attempt at kernel [k] ends as [a] says.
    The search is [find_file] for the name of [k]; the load is
    [load_from_cluster] from the start cluster of the entry found, at the
    destination, after the message that announces it. *)
Definition attempted (k : kernel) (e : Z) (st : machine) (a : attempt) : Prop :=
  match a with
  | Absent =>
      find_file fuel (ram st) ld_addr e (literal (bootfile k)) = Some NULL
  | Loaded st' =>
      exists entry p,
        find_file fuel (ram st) ld_addr e (literal (bootfile k)) = Some entry
        /\ entry <> NULL
        /\ load_from_cluster dev junk fuel id (start_cluster (ram st) entry)
             ld_addr (SERIAL_PUTS loading st) = Some (p, st')
        /\ p <> NULL
  | Failed st' =>
      exists entry,
        find_file fuel (ram st) ld_addr e (literal (bootfile k)) = Some entry
        /\ entry <> NULL
        /\ load_from_cluster dev junk fuel id (start_cluster (ram st) entry)
             ld_addr (SERIAL_PUTS loading st) = Some (NULL, st')
  end.

End Attempts.

(** ** A concrete target and concrete cards

    Used by the examples and counterexamples below. *)

Module Sample.

Definition byte_at (b : Z -> Z) (off : Z) : Z := b off mod 256.
Definition le16 (b : Z -> Z) (off : Z) : Z := byte_at b off + 256 * byte_at b (off + 1).
Definition le32 (b : Z -> Z) (off : Z) : Z := le16 b off + 65536 * le16 b (off + 2).

Definition codes (s : string) : list Z :=
  map (fun a => Z.of_nat (Ascii.nat_of_ascii a)) (list_ascii_of_string s).

(** Modelled from the spec: [fat.h] and [config.h] are not among the
    sources.  The layouts are the standard on-disk ones the spec names in
    its section 6 (MBR: first partition entry at offset 446 with its status
    byte first and its LBA at +8, signature at 510; FAT32 boot sector:
    sectors per cluster at 13, reserved sectors at 14, number of FATs at
    16, sectors per FAT at 36, root cluster at 44, filesystem type at 82;
    directory entry: 32 bytes, name at 0, attributes at 11, cluster high at
    20 and low at 26), all little-endian, with 512-byte sectors; the two
    file names are examples of 8.3 names. *)
Definition standard : Headers := {|
  FAT_BLOCK_SIZE := 512;
  ATTR_VOLUME := 0x08;
  ATTR_DIR := 0x10;
  FAT_BOOTFILE_NAME := codes "KERNEL  BIN";
  FAT_BOOTFILE_ALT_NAME := codes "ALTKERN BIN";
  word_at := fun b i => le32 b (4 * i);
  mbr_signature := fun b => le16 b 510;
  mbr_partition0_status := fun b => byte_at b 446;
  mbr_partition0_lba := fun b => le32 b 454;
  bs_reserved := fun b => le16 b 14;
  bs_fat32_length := fun b => le32 b 36;
  bs_fats := fun b => byte_at b 16;
  bs_root_cluster := fun b => le32 b 44;
  bs_cluster_size := fun b => byte_at b 13;
  vinfo_fs_type := fun b i => byte_at b (82 + i);
  sizeof_dir_entry := 32;
  entry_name := fun m e i => byte_at m (e + i);
  entry_attr := fun m e => byte_at m (e + 11);
  entry_starthi := fun m e => le16 m (e + 20);
  entry_start := fun m e => le16 m (e + 26)
|}.

(** Sparse contents: the listed bytes, zero elsewhere. *)
Definition sparse := list (Z * Z).

Fixpoint peek (l : sparse) (k : Z) : Z :=
  match l with
  | [] => 0
  | (k', v) :: l' => if k =? k' then v else peek l' k
  end.

Definition put8 (off v : Z) : sparse := [(off, v mod 256)].
Definition put16 (off v : Z) : sparse := put8 off v ++ put8 (off + 1) (v / 256).
Definition put32 (off v : Z) : sparse := put16 off v ++ put16 (off + 2) (v / 65536).

Fixpoint put_text (off : Z) (s : list Z) : sparse :=
  match s with
  | [] => []
  | c :: s' => (off, c) :: put_text (off + 1) s'
  end.

(** The FAT entry of cluster [c], within its sector. *)
Definition fat_entry (c v : Z) : sparse := put32 (4 * (c mod 128)) v.

(** A directory entry at offset [off]. *)
Definition dir_entry (off : Z) (name : string) (attr cluster : Z) : sparse :=
  put_text off (codes name) ++ put8 (off + 11) attr
  ++ put16 (off + 20) (cluster / 65536) ++ put16 (off + 26) (cluster mod 65536).

(** A card: the listed sectors, zero elsewhere. *)
Definition image := list (Z * sparse).

Fixpoint sector_of (img : image) (lba : Z) : sparse :=
  match img with
  | [] => []
  | (n, s) :: img' => if lba =? n then s else sector_of img' lba
  end.

Definition disk_of (img : image) : Z -> Z -> Z -> Z :=
  fun _ lba off => peek (sector_of img lba) off.

(** A card all of whose reads succeed. *)
Definition card (img : image) : device :=
  {| disk := disk_of img; status := fun _ _ _ _ => 0 |}.

(** A card whose reads of the sectors in [bad] fail with code 1. *)
Definition worn_card (img : image) (bad : list Z) : device :=
  {| disk := disk_of img;
     status := fun _ _ src _ => if existsb (Z.eqb src) bad then 1 else 0 |}.

Definition zeros : Z -> Z := fun _ => 0.

Definition power_on : machine :=
  {| lba_fat1 := 0; lba_data := 0; root_cluster := 0; cluster_size := 0;
     ram := zeros; log := [] |}.

(** The geometry of the cards below once mounted: FAT at sector 2080,
    data from sector 2096, one sector per cluster, root directory in
    cluster 2. *)
Definition mounted : machine :=
  {| lba_fat1 := 2080; lba_data := 2096; root_cluster := 2; cluster_size := 1;
     ram := zeros; log := [] |}.

Definition mbr_sector : sparse :=
  put8 446 0x80 ++ put32 454 2048 ++ put16 510 0xAA55.

Definition boot_sector (tag : string) : sparse :=
  put8 13 1 ++ put16 14 32 ++ put8 16 2 ++ put32 36 8 ++ put32 44 2
  ++ put_text 82 (codes tag).

(** The first FAT sector: the root directory in cluster 2, the regular
    kernel in clusters 3, 4, 5, 10, the alternate kernel in cluster 6. *)
Definition fat_sector : sparse :=
  fat_entry 0 0x0ffffff8 ++ fat_entry 1 0x0fffffff ++ fat_entry 2 0x0fffffff
  ++ fat_entry 3 4 ++ fat_entry 4 5 ++ fat_entry 5 10 ++ fat_entry 10 0x0fffffff
  ++ fat_entry 6 0x0fffffff.

Definition root_directory : sparse :=
  dir_entry 0 "UBIBOOT    " 0x08 0
  ++ dir_entry 32 "BACKUP     " 0x10 7
  ++ dir_entry 64 "KERNEL  BIN" 0x20 3
  ++ dir_entry 96 "ALTKERN BIN" 0x20 6.

Definition fat32_image : image :=
  [(0, mbr_sector); (2048, boot_sector "FAT32   "); (2080, fat_sector);
   (2096, root_directory)].

(** The same card with only the alternate kernel in its root directory. *)
Definition alternate_only_image : image :=
  [(0, mbr_sector); (2048, boot_sector "FAT32   "); (2080, fat_sector);
   (2096, dir_entry 0 "ALTKERN BIN" 0x20 6)].

(** A card whose first partition holds a FAT16 tag. *)
Definition fat16_image : image :=
  [(0, mbr_sector); (2048, boot_sector "FAT16   ")].

(** A card whose FAT links the last three clusters before 0x0ffffff0 and
    ends the chain with the value 0x0ffffff0 (FAT sector 2080 + 0x1fffff). *)
Definition top_image : image :=
  [(2099231, fat_entry 0x0fffffed 0x0fffffee ++ fat_entry 0x0fffffee 0x0fffffef
             ++ fat_entry 0x0fffffef 0x0ffffff0 ++ fat_entry 0x0ffffff0 0x0fffffff)].

(** A card whose FAT ends the chain of cluster 0x0fffffef with the value
    0x0ffffff0 and links entry 0x0ffffff0 back to 0x0fffffef. *)
Definition loop_image : image :=
  [(2099231, fat_entry 0x0fffffef 0x0ffffff0 ++ fat_entry 0x0ffffff0 0x0fffffef)].

(** A card not cleanly unmounted: entry 1 of the FAT has its
    clean-shutdown bit (bit 27) cleared. *)
Definition dirty_image : image :=
  [(2080, fat_entry 0 0x0ffffff8 ++ fat_entry 1 0x07ffffff
          ++ fat_entry 2 0x0fffffff)].

(** A geometry whose first FAT sector is the last sector a [uint32_t] can
    number. *)
Definition fat_at_top : machine :=
  {| lba_fat1 := 0xffffffff; lba_data := 16; root_cluster := 2; cluster_size := 1;
     ram := zeros; log := [] |}.

Definition top_fat_image : image := [(0xffffffff, fat_entry 2 0x0fffffff)].

(** RAM holding a directory of three entries at address 0x1000. *)
Definition directory_ram : Z -> Z :=
  peek (dir_entry 0x1000 "FOO     BIN" 0x00 9
        ++ dir_entry 0x1020 "BAR        " 0x10 12).

(** A card whose FAT spreads one chain over two FAT sectors and back:
    3 -> 130 -> 4 -> end, with entries 3 and 4 in FAT sector 2080 and entry
    130 in FAT sector 2081. *)
Definition two_sector_image : image :=
  [(2080, fat_entry 3 130 ++ fat_entry 4 0x0fffffff); (2081, fat_entry 130 4)].

(** The card [fat32_image] with some bytes in the clusters of the
    regular kernel (cluster 3 in sector 2097, cluster 10 in sector 2104). *)
Definition payload_image : image :=
  fat32_image ++ [(2097, put8 0 0x7f ++ put8 1 0x45); (2104, put8 5 0xbb)].

(** RAM full of ones: every directory entry read from it is in use,
    carries no attribute this loader looks at, and has no 8.3 name. *)
Definition ones : Z -> Z := fun _ => 1.

(** The result of a run that returned. *)
Definition result (r : option (Z * machine)) : Z * machine :=
  match r with
  | Some x => x
  | None => (0, power_on)
  end.

End Sample.

(** * Properties *)

(** ** Machine integers and strings *)

Lemma u32_range z : 0 <= u32 z < 2 ^ 32.
Proof. unfold u32. apply Z.mod_pos_bound. lia. Qed.

Lemma u32_small z : 0 <= z < 2 ^ 32 -> u32 z = z.
Proof. intros. unfold u32. apply Z.mod_small. assumption. Qed.

Lemma u32_idem z : u32 (u32 z) = u32 z.
Proof. apply u32_small, u32_range. Qed.

Lemma u32_add_l a b : u32 (u32 a + b) = u32 (a + b).
Proof. unfold u32. apply Zplus_mod_idemp_l. Qed.

Lemma u32_add_r a b : u32 (a + u32 b) = u32 (a + b).
Proof. unfold u32. apply Zplus_mod_idemp_r. Qed.

Lemma u32_unique a r :
  0 <= r < 2 ^ 32 -> (exists q, a = r + q * 2 ^ 32) -> u32 a = r.
Proof.
  intros Hr (q & ->). unfold u32. rewrite Z_mod_plus_full.
  apply Z.mod_small. exact Hr.
Qed.

Lemma u32_decomp a : exists q, u32 a = a - q * 2 ^ 32.
Proof.
  exists (a / 2 ^ 32). unfold u32. rewrite Z.mod_eq by lia. lia.
Qed.

Lemma u8_small z : 0 <= z < 2 ^ 8 -> u8 z = z.
Proof. intros. unfold u8. apply Z.mod_small. assumption. Qed.

(** [strncmp] against a text without NUL in its first [n] characters is
    zero exactly when the first [n] characters agree. *)
Lemma strncmp_from_zero_iff (s1 s2 : cstring) (n : nat) (i : Z) :
  (forall k, i <= k < i + Z.of_nat n -> s2 k <> 0) ->
  strncmp_from s1 s2 i n = 0 <->
  (forall k, i <= k < i + Z.of_nat n -> s1 k = s2 k).
Proof.
  revert i. induction n as [|n IH]; intros i Hnz.
  - simpl. split; [intros _ k Hk; lia | reflexivity].
  - cbn [strncmp_from]. cbv zeta.
    destruct (Z.eqb_spec (s1 i) (s2 i)) as [He|Hne].
    + destruct (Z.eqb_spec (s1 i) 0) as [Hz|Hz].
      * exfalso. apply (Hnz i); [lia | congruence].
      * rewrite IH by (intros k Hk; apply Hnz; lia).
        split; intros Hall k Hk.
        -- destruct (Z.eq_dec k i) as [->|Hki]; [assumption | apply Hall; lia].
        -- apply Hall. lia.
    + split.
      * intros Hd. exfalso. apply Hne. lia.
      * intros Hall. exfalso. apply Hne, Hall. lia.
Qed.

Lemma strncmp_zero_iff (s1 s2 : cstring) (n : nat) :
  (forall k, 0 <= k < Z.of_nat n -> s2 k <> 0) ->
  strncmp s1 s2 n = 0 <-> (forall k, 0 <= k < Z.of_nat n -> s1 k = s2 k).
Proof. intros Hnz. unfold strncmp. apply strncmp_from_zero_iff. exact Hnz. Qed.

Lemma FAT32_no_nul k : 0 <= k < 5 -> literal FAT32 k <> 0.
Proof.
  intros Hk.
  assert (Hc : k = 0 \/ k = 1 \/ k = 2 \/ k = 3 \/ k = 4) by lia.
  destruct Hc as [->|[->|[->|[->| ->]]]]; vm_compute; discriminate.
Qed.

(** ** The log and the geometry under the state updates *)

Lemma log_emit e st : log (emit e st) = log st ++ [e].
Proof. reflexivity. Qed.

Lemma same_geometry_refl st : same_geometry st st.
Proof. repeat split. Qed.

Lemma same_geometry_emit g e st : same_geometry g st -> same_geometry g (emit e st).
Proof. intros Hg. exact Hg. Qed.

Section Facts.

Context {hdr : Headers}.
Variable dev : device.
Variable junk : buffer.

(** ** mmc_block_read *)

Lemma mmc_block_read_local_ok id buf src num st :
  status dev (log st) id src num = 0 ->
  mmc_block_read_local dev id buf src num st
    = (0, blocks dev id src, emit (BlockRead id Local src num) st).
Proof. intros Hok. unfold mmc_block_read_local. rewrite Hok. reflexivity. Qed.

Lemma mmc_block_read_local_fail id buf src num st :
  status dev (log st) id src num <> 0 ->
  mmc_block_read_local dev id buf src num st
    = (status dev (log st) id src num, buf, emit (BlockRead id Local src num) st).
Proof.
  intros Hko. unfold mmc_block_read_local.
  apply Z.eqb_neq in Hko. rewrite Hko. reflexivity.
Qed.

(** ** get_first_partition *)

(** C7. [get_first_partition] requests exactly one block read, of sector 0
    (one sector), whatever the outcome; when that read succeeds, an MBR
    with signature 0xAA55 and first-partition status 0x00 or 0x80 makes it
    return 0 with that entry's LBA, and any other signature or status
    makes it return -1.  A failed read makes it return -1 as well. *)
Theorem get_first_partition_spec (id lba : Z) (st : machine) :
  (exists diag,
      log (snd (get_first_partition dev junk id lba st))
        = log st ++ BlockRead id Local 0 1 :: diag
      /\ filter is_block_read diag = [])
  /\ (status dev (log st) id 0 1 = 0 ->
      (mbr_signature (blocks dev id 0) = 0xAA55 ->
       mbr_partition0_status (blocks dev id 0) = 0x00
         \/ mbr_partition0_status (blocks dev id 0) = 0x80 ->
       fst (get_first_partition dev junk id lba st)
         = (0, mbr_partition0_lba (blocks dev id 0)))
      /\ (mbr_signature (blocks dev id 0) <> 0xAA55
          \/ (mbr_partition0_status (blocks dev id 0) <> 0x00
              /\ mbr_partition0_status (blocks dev id 0) <> 0x80) ->
          fst (fst (get_first_partition dev junk id lba st)) = -1))
  /\ (status dev (log st) id 0 1 <> 0 ->
      fst (fst (get_first_partition dev junk id lba st)) = -1).
Proof.
  unfold get_first_partition.
  destruct (Z.eq_dec (status dev (log st) id 0 1) 0) as [Hok|Hko].
  - rewrite (mmc_block_read_local_ok _ _ _ _ _ Hok). cbn [Z.eqb negb].
    destruct (Z.eqb_spec (mbr_signature (blocks dev id 0)) 0xAA55) as [Hs|Hs];
      cbn [negb].
    + destruct (Z.eqb_spec (mbr_partition0_status (blocks dev id 0)) 0) as [H0|H0];
        cbn [negb andb].
      * split; [|split].
        -- exists []. split; reflexivity.
        -- intros _. split; [reflexivity|]. intros [Hc|[Hc _]]; contradiction.
        -- intros Hc. contradiction.
      * destruct (Z.eqb_spec (mbr_partition0_status (blocks dev id 0)) 0x80)
          as [H8|H8]; cbn [negb].
        -- split; [|split].
           ++ exists []. split; reflexivity.
           ++ intros _. split; [reflexivity|].
              intros [Hc|[_ Hc]]; contradiction.
           ++ intros Hc. contradiction.
        -- split; [|split].
           ++ exists [PutI 0x02]. split; [|reflexivity].
              cbn. rewrite <- app_assoc. reflexivity.
           ++ intros _. split; [|reflexivity].
              intros _ [Hc|Hc]; contradiction.
           ++ intros Hc. contradiction.
    + split; [|split].
      * exists [PutI 0x01]. split; [|reflexivity].
        cbn. rewrite <- app_assoc. reflexivity.
      * intros _. split; [|reflexivity]. intros Hc. contradiction.
      * intros Hc. contradiction.
  - rewrite (mmc_block_read_local_fail _ _ _ _ _ Hko).
    apply Z.eqb_neq in Hko. rewrite Hko. cbn [negb].
    split; [|split].
    + exists [PutI 0x00]. split; [|reflexivity].
      cbn. rewrite <- app_assoc. reflexivity.
    + apply Z.eqb_neq in Hko. intros Hc. contradiction.
    + intros _. reflexivity.
Qed.

(** ** process_boot_sector *)

(** The geometry [process_boot_sector] derives from a boot sector. *)
Lemma process_boot_sector_ok_state id lba st :
  status dev (log st) id lba 1 = 0 ->
  let bs := blocks dev id lba in
  let st' := snd (process_boot_sector dev junk id lba st) in
  lba_fat1 st' = add32 lba (bs_reserved bs)
  /\ lba_data st'
     = add32 (add32 lba (bs_reserved bs)) (mul32 (bs_fat32_length bs) (bs_fats bs))
  /\ root_cluster st' = u32 (bs_root_cluster bs)
  /\ cluster_size st' = u8 (bs_cluster_size bs)
  /\ ram st' = ram st.
Proof.
  intros Hok bs st'. subst st'. unfold process_boot_sector.
  rewrite (mmc_block_read_local_ok _ _ _ _ _ Hok). cbn [Z.eqb negb].
  fold bs.
  destruct (negb (strncmp (vinfo_fs_type bs) (literal FAT32) 5 =? 0));
    repeat split.
Qed.

(** C9. After a successful read of the boot sector, the geometry is the
    one the boot-sector fields give, in 32-bit arithmetic: first FAT
    sector = partition start + reserved sectors; data start = first FAT
    sector + sectors per FAT * number of FATs; root cluster and cluster
    size copied from their fields (into a [uint32_t] and a [uint8_t]),
    whatever their values and whatever the filesystem tag.  Where the
    sums and the fields fit their C types the values are the exact ones. *)
Theorem process_boot_sector_geometry (id lba : Z) (st : machine) :
  status dev (log st) id lba 1 = 0 ->
  let bs := blocks dev id lba in
  let st' := snd (process_boot_sector dev junk id lba st) in
  (lba_fat1 st' = u32 (lba + bs_reserved bs)
   /\ lba_data st' = u32 (lba_fat1 st' + u32 (bs_fat32_length bs * bs_fats bs))
   /\ root_cluster st' = u32 (bs_root_cluster bs)
   /\ cluster_size st' = u8 (bs_cluster_size bs))
  /\ (0 <= lba + bs_reserved bs < 2 ^ 32 ->
      lba_fat1 st' = lba + bs_reserved bs)
  /\ (0 <= lba + bs_reserved bs + bs_fat32_length bs * bs_fats bs < 2 ^ 32 ->
      lba_data st' = lba + bs_reserved bs + bs_fat32_length bs * bs_fats bs)
  /\ (0 <= bs_root_cluster bs < 2 ^ 32 -> root_cluster st' = bs_root_cluster bs)
  /\ (0 <= bs_cluster_size bs < 2 ^ 8 -> cluster_size st' = bs_cluster_size bs).
Proof.
  intros Hok bs st'.
  destruct (process_boot_sector_ok_state id lba st Hok) as (H1 & H2 & H3 & H4 & _).
  fold bs in H1, H2, H3, H4. fold st' in H1, H2, H3, H4.
  split; [|split; [|split; [|split]]].
  - rewrite H1. repeat split; assumption.
  - intros Hr. rewrite H1. apply u32_small. exact Hr.
  - intros Hr. rewrite H2. unfold add32, mul32.
    rewrite u32_add_r, u32_add_l. apply u32_small. lia.
  - intros Hr. rewrite H3. apply u32_small. exact Hr.
  - intros Hr. rewrite H4. apply u8_small. exact Hr.
Qed.

(** C1 (amended). When the boot sector is read and its filesystem-type tag
    differs from "FAT32" somewhere in its first 5 bytes,
    [process_boot_sector] returns -1 after emitting the diagnostic code
    0x05, and the four geometry globals hold the values derived from that
    sector: they are assigned before the tag is compared. *)
Theorem process_boot_sector_rejects_tag (id lba : Z) (st : machine) :
  status dev (log st) id lba 1 = 0 ->
  (exists k, 0 <= k < 5 /\ vinfo_fs_type (blocks dev id lba) k <> literal FAT32 k) ->
  let bs := blocks dev id lba in
  let r := process_boot_sector dev junk id lba st in
  fst r = -1
  /\ log (snd r) = log st ++ [BlockRead id Local lba 1; PutI 0x05]
  /\ lba_fat1 (snd r) = add32 lba (bs_reserved bs)
  /\ lba_data (snd r)
     = add32 (add32 lba (bs_reserved bs)) (mul32 (bs_fat32_length bs) (bs_fats bs))
  /\ root_cluster (snd r) = u32 (bs_root_cluster bs)
  /\ cluster_size (snd r) = u8 (bs_cluster_size bs).
Proof.
  intros Hok (k & Hk & Hdiff) bs r.
  destruct (process_boot_sector_ok_state id lba st Hok) as (H1 & H2 & H3 & H4 & _).
  fold bs in H1, H2, H3, H4. fold r in H1, H2, H3, H4.
  assert (Hcmp : strncmp (vinfo_fs_type bs) (literal FAT32) 5 <> 0).
  { intros Hz. apply Hdiff.
    refine (proj1 (strncmp_zero_iff _ _ 5 _) Hz k _).
    - intros j Hj. apply FAT32_no_nul. exact Hj.
    - exact Hk. }
  apply Z.eqb_neq in Hcmp.
  repeat split; try assumption.
  - subst r. unfold process_boot_sector.
    rewrite (mmc_block_read_local_ok _ _ _ _ _ Hok). cbn [Z.eqb negb].
    fold bs. rewrite Hcmp. reflexivity.
  - subst r. unfold process_boot_sector.
    rewrite (mmc_block_read_local_ok _ _ _ _ _ Hok). cbn [Z.eqb negb].
    fold bs. rewrite Hcmp. cbn. rewrite <- app_assoc. reflexivity.
Qed.
(** ** load_from_cluster on a reliable device *)

Section Walk.

Variable id : Z.
Variable g : machine.
Hypothesis device_ok : reliable dev.

Lemma fat_sector_of_geometry st c :
  same_geometry g st -> fat_sector_of st c = fat_sector_of g c.
Proof. intros (H1 & _). unfold fat_sector_of. rewrite H1. reflexivity. Qed.

Lemma data_sector_of_geometry st c :
  same_geometry g st -> data_sector_of st c = data_sector_of g c.
Proof.
  intros (_ & H2 & _ & H4). unfold data_sector_of. rewrite H2, H4. reflexivity.
Qed.

Lemma cluster_size_geometry st :
  same_geometry g st -> cluster_size st = cluster_size g.
Proof. intros (_ & _ & _ & H4). exact H4. Qed.

(** A lookup reads the FAT sector of the cluster unless it is the cached
    one; afterwards the buffer holds that sector. *)
Lemma read_fat_ok sector cached c st :
  same_geometry g st ->
  (fat_sector_of g c = cached -> sector = blocks dev id cached) ->
  read_fat dev id sector cached c st
    = (0, blocks dev id (fat_sector_of g c), fat_sector_of g c,
       if fat_sector_of g c =? cached then st
       else emit (BlockRead id Local (fat_sector_of g c) 1) st).
Proof.
  intros Hg Hco. unfold read_fat. rewrite (fat_sector_of_geometry st c Hg).
  destruct (Z.eqb_spec (fat_sector_of g c) cached) as [He|Hne]; cbn [negb].
  - rewrite (Hco He). rewrite He. reflexivity.
  - rewrite mmc_block_read_local_ok by apply device_ok. reflexivity.
Qed.

Lemma mmc_block_read_ok dst src num st :
  exists st',
    mmc_block_read dev id dst src num st = (0, st')
    /\ log st' = log st ++ [BlockRead id (Ram dst) src num]
    /\ (same_geometry g st -> same_geometry g st').
Proof.
  unfold mmc_block_read. rewrite device_ok. cbn [Z.eqb].
  eexists. split; [reflexivity|]. split; [reflexivity|].
  intros Hg. exact Hg.
Qed.

(** One pass through the body of the inner loop. *)
Lemma batch_loop_step fuel sector cached c ds nm addr st :
  same_geometry g st ->
  (fat_sector_of g c = cached -> sector = blocks dev id cached) ->
  batch_loop dev (S fuel) id sector cached c ds nm addr st =
    let st1 := if fat_sector_of g c =? cached then st
               else emit (BlockRead id Local (fat_sector_of g c) 1) st in
    let s := fat_next dev id g c in
    if s =? add32 c 1 then
      batch_loop dev fuel id (blocks dev id (fat_sector_of g c))
        (fat_sector_of g c) s ds (add32 nm (cluster_size g)) addr st1
    else
      let st2 := snd (mmc_block_read dev id addr ds nm st1) in
      if chain_end s then Some (u32 (addr + mul32 nm FAT_BLOCK_SIZE), st2)
      else
        batch_loop dev fuel id (blocks dev id (fat_sector_of g c))
          (fat_sector_of g c) s (data_sector_of g s) (u32 (cluster_size g))
          (u32 (addr + mul32 nm FAT_BLOCK_SIZE)) st2.
Proof.
  intros Hg Hco. cbn [batch_loop].
  rewrite (read_fat_ok sector cached c st Hg Hco). cbn [Z.eqb negb].
  set (st1 := if fat_sector_of g c =? cached then st
              else emit (BlockRead id Local (fat_sector_of g c) 1) st).
  assert (Hg1 : same_geometry g st1).
  { subst st1. destruct (fat_sector_of g c =? cached); assumption. }
  fold (fat_next dev id g c). cbv zeta.
  rewrite (cluster_size_geometry st1 Hg1).
  destruct (fat_next dev id g c =? add32 c 1); [reflexivity|].
  destruct (mmc_block_read_ok addr ds nm st1) as (st2 & Hrd & _ & Hg2).
  rewrite Hrd. cbn [Z.eqb negb snd].
  rewrite (data_sector_of_geometry st2 _ (Hg2 Hg1)).
  rewrite (cluster_size_geometry st2 (Hg2 Hg1)).
  reflexivity.
Qed.

Lemma data_reads_app l1 l2 :
  data_reads (l1 ++ l2) = data_reads l1 ++ data_reads l2.
Proof.
  induction l1 as [|e l1 IH]; [reflexivity|].
  destruct e as [i [|a] s n| |]; cbn [data_reads app]; rewrite IH; reflexivity.
Qed.

Lemma total_sectors_app l1 l2 :
  total_sectors (l1 ++ l2) = total_sectors l1 + total_sectors l2.
Proof.
  unfold total_sectors. rewrite data_reads_app.
  induction (data_reads l1) as [|r l IH]; cbn [fold_right app]; lia.
Qed.

Lemma total_sectors_fat_read cached c : total_sectors (fat_read id g cached c) = 0.
Proof. unfold fat_read. destruct (_ =? _); reflexivity. Qed.

Lemma log_after_fat_read cached c st :
  log (if fat_sector_of g c =? cached then st
       else emit (BlockRead id Local (fat_sector_of g c) 1) st)
  = log st ++ fat_read id g cached c.
Proof.
  unfold fat_read. destruct (_ =? _); [symmetry; apply app_nil_r | reflexivity].
Qed.

Lemma same_geometry_after_fat_read cached c st :
  same_geometry g st ->
  same_geometry g (if fat_sector_of g c =? cached then st
                   else emit (BlockRead id Local (fat_sector_of g c) 1) st).
Proof. intros Hg. destruct (_ =? _); exact Hg. Qed.

Lemma stops_false_not_next c s :
  stops c s = false -> (s =? add32 c 1) = false -> chain_end s = false.
Proof. unfold stops. intros Hs Hn. rewrite Hn in Hs. exact Hs. Qed.

Lemma stops_true c s :
  stops c s = true -> (s =? add32 c 1) = false /\ chain_end s = true.
Proof.
  unfold stops. intros Hs. apply andb_true_iff in Hs. destruct Hs as [Hn He].
  apply negb_true_iff in Hn. split; assumption.
Qed.

Lemma advance_twice addr nm T :
  u32 (u32 (addr + mul32 nm FAT_BLOCK_SIZE) + FAT_BLOCK_SIZE * T)
  = u32 (addr + FAT_BLOCK_SIZE * (nm + T)).
Proof.
  unfold mul32. rewrite u32_add_l.
  replace (addr + u32 (nm * FAT_BLOCK_SIZE) + FAT_BLOCK_SIZE * T)
    with (addr + FAT_BLOCK_SIZE * T + u32 (nm * FAT_BLOCK_SIZE)) by lia.
  rewrite u32_add_r. f_equal. lia.
Qed.

(** The loader on a walked chain: it returns, its requests are
    [requests], and it has advanced the address by the sectors it read. *)
Lemma batch_loop_requests l :
  forall c t sector cached ds nm addr st fuel,
    same_geometry g st ->
    (fat_sector_of g c = cached -> sector = blocks dev id cached) ->
    walked dev id g c l t ->
    (List.length l < fuel)%nat ->
    exists st',
      batch_loop dev fuel id sector cached c ds nm addr st
        = Some (u32 (addr + FAT_BLOCK_SIZE
                            * total_sectors (requests id g cached ds nm addr c l)),
                st')
      /\ log st' = log st ++ requests id g cached ds nm addr c l
      /\ same_geometry g st'.
Proof.
  induction l as [|c' l' IH];
    intros c t sector cached ds nm addr st fuel Hg Hco Hw Hfuel;
    (destruct fuel as [|fuel]; [cbn in Hfuel; lia|]);
    rewrite (batch_loop_step fuel sector cached c ds nm addr st Hg Hco); cbv zeta;
    pose proof (log_after_fat_read cached c st) as Hlog1;
    pose proof (same_geometry_after_fat_read cached c st Hg) as Hg1;
    set (st1 := if fat_sector_of g c =? cached then st
                else emit (BlockRead id Local (fat_sector_of g c) 1) st) in *;
    destruct (mmc_block_read_ok addr ds nm st1) as (st2 & Hrd & Hlog2 & Hg2);
    specialize (Hg2 Hg1).
  - destruct Hw as [Hnext Hstop]. rewrite Hnext.
    destruct (stops_true _ _ Hstop) as [Hn He]. rewrite Hn, He.
    rewrite Hrd. cbn [snd requests].
    exists st2. split; [|split].
    + f_equal. f_equal. rewrite total_sectors_app, total_sectors_fat_read.
      cbn. unfold mul32. rewrite u32_add_r. f_equal. lia.
    + rewrite Hlog2, Hlog1. rewrite <- app_assoc. reflexivity.
    + exact Hg2.
  - destruct Hw as (Hnext & Hstop & Hw). rewrite Hnext.
    cbn [requests]. cbn [List.length] in Hfuel.
    assert (Hf : (List.length l' < fuel)%nat) by (apply PeanoNat.Nat.succ_lt_mono; exact Hfuel).
    destruct (c' =? add32 c 1) eqn:Hn.
    + destruct (IH c' t (blocks dev id (fat_sector_of g c)) (fat_sector_of g c)
                  ds (add32 nm (cluster_size g)) addr st1 fuel Hg1
                  (fun _ => eq_refl) Hw Hf)
        as (st' & Hrun & Hlog & Hg').
      exists st'. split; [|split].
      * rewrite Hrun. f_equal. f_equal.
        rewrite total_sectors_app, total_sectors_fat_read. reflexivity.
      * rewrite Hlog, Hlog1. rewrite <- app_assoc. reflexivity.
      * exact Hg'.
    + rewrite (stops_false_not_next _ _ Hstop Hn). rewrite Hrd. cbn [snd].
      destruct (IH c' t (blocks dev id (fat_sector_of g c)) (fat_sector_of g c)
                  (data_sector_of g c') (u32 (cluster_size g))
                  (u32 (addr + mul32 nm FAT_BLOCK_SIZE)) st2 fuel Hg2
                  (fun _ => eq_refl) Hw Hf)
        as (st' & Hrun & Hlog & Hg').
      exists st'. split; [|split].
      * rewrite Hrun. f_equal. f_equal.
        rewrite total_sectors_app, total_sectors_fat_read.
        change (BlockRead id (Ram addr) ds nm :: ?r)
          with ([BlockRead id (Ram addr) ds nm] ++ r).
        rewrite total_sectors_app, advance_twice. f_equal.
        change (total_sectors [BlockRead id (Ram addr) ds nm]) with (nm + 0).
        lia.
      * rewrite Hlog, Hlog2, Hlog1. rewrite <- !app_assoc. reflexivity.
      * exact Hg'.
Qed.

End Walk.
(** ** Reading the expected requests *)

Section Requests.

Variable id : Z.
Variable g : machine.

Lemma runs_head c l : exists k r, runs c l = (c, k) :: r.
Proof.
  destruct l as [|c' l']; cbn [runs].
  - exists 1, []. reflexivity.
  - destruct (c' =? add32 c 1).
    + destruct (runs c' l') as [|[c0 k] r].
      * exists 1, []. reflexivity.
      * exists (k + 1), r. reflexivity.
    + exists 1, (runs c' l'). reflexivity.
Qed.

Lemma data_reads_fat_read cached c l :
  data_reads (fat_read id g cached c ++ l) = data_reads l.
Proof. unfold fat_read. destruct (_ =? _); reflexivity. Qed.

Lemma run_grows nm k cs :
  add32 (add32 nm cs) (mul32 (k - 1) cs) = add32 nm (mul32 (k + 1 - 1) cs).
Proof.
  unfold add32, mul32. rewrite u32_add_l, !u32_add_r. f_equal. lia.
Qed.

Lemma run_single nm cs : u32 nm = nm -> add32 nm (mul32 (1 - 1) cs) = nm.
Proof.
  intros Hnm. unfold add32, mul32. rewrite u32_add_r.
  replace (nm + (1 - 1) * cs) with nm by lia. exact Hnm.
Qed.

(** The data reads among the requests: the batch in hand grows by the
    rest of the run of [c], every later run is read on its own. *)
Lemma data_reads_requests l :
  forall cached ds nm addr c,
    u32 nm = nm ->
    data_reads (requests id g cached ds nm addr c l)
    = match runs c l with
      | (_, k) :: r =>
          (ds, add32 nm (mul32 (k - 1) (cluster_size g))) :: map (run_read g) r
      | [] => []
      end.
Proof.
  induction l as [|c' l' IH]; intros cached ds nm addr c Hnm;
    cbn [requests runs]; rewrite data_reads_fat_read.
  - cbn [data_reads map]. rewrite (run_single nm _ Hnm). reflexivity.
  - destruct (c' =? add32 c 1).
    + rewrite IH by apply u32_idem.
      destruct (runs_head c' l') as (k & r & Hr). rewrite Hr.
      rewrite run_grows. reflexivity.
    + cbn [data_reads]. rewrite IH by apply u32_idem.
      destruct (runs_head c' l') as (k & r & Hr). rewrite Hr.
      cbn [map]. f_equal.
      * rewrite (run_single nm _ Hnm). reflexivity.
      * f_equal. unfold run_read. cbn [fst snd]. f_equal.
        unfold add32, mul32. rewrite u32_add_l, u32_add_r. f_equal. lia.
Qed.

(** From the entry of [load_from_cluster]: one data read per run. *)
Lemma data_reads_requests_entry cached addr c l :
  data_reads (requests id g cached (data_sector_of g c) (u32 (cluster_size g))
                addr c l)
  = map (run_read g) (runs c l).
Proof.
  rewrite data_reads_requests by apply u32_idem.
  destruct (runs_head c l) as (k & r & Hr). rewrite Hr.
  cbn [map]. f_equal. unfold run_read. cbn [fst snd]. f_equal.
  unfold add32, mul32. rewrite u32_add_l, u32_add_r. f_equal. lia.
Qed.

(** The FAT-sector reads among the requests, when every cluster of the
    chain has its entry in the same FAT sector [F]. *)
Lemma local_reads_requests l :
  forall cached ds nm addr c F,
    fat_sector_of g c = F ->
    Forall (fun c' => fat_sector_of g c' = F) l ->
    filter is_local_read (requests id g cached ds nm addr c l)
    = if F =? cached then [] else [BlockRead id Local F 1].
Proof.
  induction l as [|c' l' IH]; intros cached ds nm addr c F Hc Hl;
    cbn [requests]; rewrite filter_app; unfold fat_read at 1; rewrite Hc;
    assert (Hfr : filter is_local_read
                    (if F =? cached then [] else [BlockRead id Local F 1])
                  = if F =? cached then [] else [BlockRead id Local F 1])
      by (destruct (F =? cached); reflexivity);
    rewrite Hfr.
  - destruct (F =? cached); reflexivity.
  - inversion Hl as [|x y Hc' Hl']; subst x y.
    assert (Hrest : forall ds' nm' addr',
               filter is_local_read (requests id g F ds' nm' addr' c' l') = []).
    { intros ds' nm' addr'. rewrite (IH F ds' nm' addr' c' F Hc' Hl').
      rewrite Z.eqb_refl. reflexivity. }
    destruct (c' =? add32 c 1).
    + rewrite Hrest. apply app_nil_r.
    + cbn [filter is_local_read]. rewrite Hrest. apply app_nil_r.
Qed.

(** No diagnostic is among the requests. *)
Lemma diag_requests l :
  forall cached ds nm addr c,
    filter is_diag (requests id g cached ds nm addr c l) = [].
Proof.
  induction l as [|c' l' IH]; intros cached ds nm addr c;
    cbn [requests]; rewrite filter_app; unfold fat_read at 1.
  - destruct (_ =? _); reflexivity.
  - assert (Hfr : filter is_diag
                    (if fat_sector_of g c =? cached then []
                     else [BlockRead id Local (fat_sector_of g c) 1]) = [])
      by (destruct (_ =? _); reflexivity).
    rewrite Hfr. cbn [app].
    destruct (c' =? add32 c 1); [apply IH|].
    cbn [filter is_diag]. apply IH.
Qed.

(** ** Chains the loader walks to their end *)

Lemma chain_at_next n c :
  chain_at dev id g (S n) c = chain_at dev id g n (fat_next dev id g c).
Proof.
  induction n as [|n IH]; [reflexivity|].
  cbn [chain_at] in *. rewrite IH. reflexivity.
Qed.

(** If some successor stops the loader, it walks a chain that ends at
    the first such successor. *)
Lemma stops_within n :
  forall c k,
    (1 <= k <= n)%nat ->
    stops (chain_at dev id g (k - 1) c) (chain_at dev id g k c) = true ->
    exists l t, walked dev id g c l t /\ (List.length l < n)%nat.
Proof.
  induction n as [|n IH]; intros c k Hk Hstop; [lia|].
  destruct (stops c (fat_next dev id g c)) eqn:Hfirst.
  - exists [], (fat_next dev id g c). cbn. split; [split; [reflexivity|assumption] | lia].
  - destruct k as [|[|k]]; [lia| |].
    + cbn in Hstop. congruence.
    + destruct (IH (fat_next dev id g c) (S k)) as (l & t & Hw & Hlen); [lia| |].
      * replace (S k - 1)%nat with k by lia.
        replace (S (S k) - 1)%nat with (S k) in Hstop by lia.
        rewrite <- !chain_at_next. exact Hstop.
      * exists (fat_next dev id g c :: l), t. cbn [walked List.length].
        split; [|lia]. split; [reflexivity|]. split; assumption.
Qed.

Lemma last_shift (l : list Z) a d : last (a :: l) d = last l a.
Proof.
  revert a d. induction l as [|b l IH]; intros a d; [reflexivity|].
  change (last (a :: b :: l) d) with (last (b :: l) d).
  rewrite !IH. reflexivity.
Qed.

(** A linked chain of clusters none of which (after the first) ends the
    chain, followed by a value that ends it and is not the number after
    the last cluster's, is walked to its end. *)
Lemma follows_walked l :
  forall c t,
    follows dev id g c l t ->
    Forall (fun c' => chain_end c' = false) l ->
    chain_end t = true ->
    t <> add32 (last l c) 1 ->
    walked dev id g c l t.
Proof.
  induction l as [|c' l' IH]; intros c t Hf Hl Ht Hlast.
  - cbn in *. split; [assumption|]. unfold stops. rewrite Ht.
    apply Z.eqb_neq in Hlast. rewrite Hlast. reflexivity.
  - destruct Hf as [Hn Hf]. inversion Hl as [|x y Hc' Hl']; subst x y.
    cbn [walked]. split; [assumption|]. split.
    + unfold stops. rewrite Hc'. apply andb_false_r.
    + apply IH; try assumption.
      rewrite <- (last_shift l' c' c). exact Hlast.
Qed.

End Requests.
(** ** load_from_cluster: what it reads and what it returns *)

Lemma data_sector_of_eq st c :
  data_sector_of st c = u32 (lba_data st + (c - 2) * cluster_size st).
Proof.
  unfold data_sector_of, add32, mul32, sub32. rewrite u32_add_r.
  unfold u32. rewrite Zplus_mod, Zmult_mod, Zmod_mod, <- Zmult_mod, <- Zplus_mod.
  reflexivity.
Qed.

Lemma run_read_eq st r :
  run_read st r
  = (u32 (lba_data st + (fst r - 2) * cluster_size st),
     u32 (snd r * cluster_size st)).
Proof. unfold run_read. rewrite data_sector_of_eq. reflexivity. Qed.

(** On a reliable device, from a start cluster whose FAT sector is not the
    number the cache starts with, the loader walks a chain to its end
    with the requests of [requests]. *)
Lemma load_from_cluster_walked id st c l t ld_addr fuel :
  reliable dev ->
  fat_sector_of st c <> NO_SECTOR ->
  walked dev id st c l t ->
  (List.length l < fuel)%nat ->
  let evs := requests id st NO_SECTOR (data_sector_of st c)
               (u32 (cluster_size st)) ld_addr c l in
  exists st',
    load_from_cluster dev junk fuel id c ld_addr st
      = Some (u32 (ld_addr + FAT_BLOCK_SIZE * total_sectors evs), st')
    /\ log st' = log st ++ evs
    /\ same_geometry st st'.
Proof.
  intros Hrel Hmiss Hw Hfuel evs. unfold load_from_cluster.
  apply (batch_loop_requests id st Hrel l c t); try assumption.
  - apply same_geometry_refl.
  - intros Heq. contradiction.
Qed.

(** C2 (amended). On a reliable device, for every chain of clusters
    [c :: l] linked through the FAT, none of whose clusters after the first
    is a chain-end value, followed by a chain-end value [t] that is not the
    last cluster's number plus one, and whose first FAT sector is not
    0xFFFFFFFF: [load_from_cluster] returns, and its data reads are, in
    order, one per maximal run of consecutive cluster numbers; the read
    of a run of [k] clusters from cluster [c'] starts at sector
    [lba_data + (c' - 2) * cluster_size] and has [k * cluster_size]
    sectors, both in 32-bit arithmetic. *)
Theorem load_from_cluster_one_read_per_run
    (id : Z) (st : machine) (c : Z) (l : list Z) (t : Z) (ld_addr : Z)
    (fuel : nat) :
  reliable dev ->
  fat_sector_of st c <> NO_SECTOR ->
  follows dev id st c l t ->
  Forall (fun c' => chain_end c' = false) l ->
  chain_end t = true ->
  t <> add32 (last l c) 1 ->
  (List.length l < fuel)%nat ->
  exists p st' evs,
    load_from_cluster dev junk fuel id c ld_addr st = Some (p, st')
    /\ log st' = log st ++ evs
    /\ data_reads evs
       = map (fun r => (u32 (lba_data st + (fst r - 2) * cluster_size st),
                        u32 (snd r * cluster_size st)))
           (runs c l).
Proof.
  intros Hrel Hmiss Hf Hl Ht Hlast Hfuel.
  pose proof (follows_walked id st l c t Hf Hl Ht Hlast) as Hw.
  destruct (load_from_cluster_walked id st c l t ld_addr fuel Hrel Hmiss Hw Hfuel)
    as (st' & Hrun & Hlog & _).
  eexists _, st', _. split; [exact Hrun|]. split; [exact Hlog|].
  rewrite data_reads_requests_entry.
  apply map_ext. intros r. apply run_read_eq.
Qed.

(** The two chains the specification gives as examples. *)
Lemma three_contiguous_clusters id st c t ld_addr fuel :
  reliable dev ->
  fat_sector_of st c <> NO_SECTOR ->
  follows dev id st c [add32 c 1; add32 (add32 c 1) 1] t ->
  chain_end (add32 c 1) = false ->
  chain_end (add32 (add32 c 1) 1) = false ->
  chain_end t = true ->
  t <> add32 (add32 (add32 c 1) 1) 1 ->
  (2 < fuel)%nat ->
  exists p st' evs,
    load_from_cluster dev junk fuel id c ld_addr st = Some (p, st')
    /\ log st' = log st ++ evs
    /\ data_reads evs
       = [(u32 (lba_data st + (c - 2) * cluster_size st),
           u32 (3 * cluster_size st))].
Proof.
  intros Hrel Hmiss Hf H1 H2 Ht Hlast Hfuel.
  assert (Hl : Forall (fun c' => chain_end c' = false)
                 [add32 c 1; add32 (add32 c 1) 1]) by (repeat constructor; assumption).
  pose proof (follows_walked id st _ c t Hf Hl Ht Hlast) as Hw.
  destruct (load_from_cluster_walked id st c _ t ld_addr fuel Hrel Hmiss Hw Hfuel)
    as (st' & Hrun & Hlog & _).
  eexists _, st', _. split; [exact Hrun|]. split; [exact Hlog|].
  rewrite data_reads_requests_entry. cbn [runs]. rewrite !Z.eqb_refl.
  cbn [map]. rewrite run_read_eq. reflexivity.
Qed.

Lemma two_scattered_clusters id st c c' t ld_addr fuel :
  reliable dev ->
  fat_sector_of st c <> NO_SECTOR ->
  follows dev id st c [c'] t ->
  c' <> add32 c 1 ->
  chain_end c' = false ->
  chain_end t = true ->
  t <> add32 c' 1 ->
  (1 < fuel)%nat ->
  exists p st' evs,
    load_from_cluster dev junk fuel id c ld_addr st = Some (p, st')
    /\ log st' = log st ++ evs
    /\ data_reads evs
       = [(u32 (lba_data st + (c - 2) * cluster_size st), u32 (1 * cluster_size st));
          (u32 (lba_data st + (c' - 2) * cluster_size st), u32 (1 * cluster_size st))].
Proof.
  intros Hrel Hmiss Hf Hgap H1 Ht Hlast Hfuel.
  assert (Hl : Forall (fun x => chain_end x = false) [c'])
    by (repeat constructor; assumption).
  pose proof (follows_walked id st _ c t Hf Hl Ht Hlast) as Hw.
  destruct (load_from_cluster_walked id st c _ t ld_addr fuel Hrel Hmiss Hw Hfuel)
    as (st' & Hrun & Hlog & _).
  eexists _, st', _. split; [exact Hrun|]. split; [exact Hlog|].
  rewrite data_reads_requests_entry. cbn [runs].
  apply Z.eqb_neq in Hgap. rewrite Hgap.
  cbn [map]. rewrite !run_read_eq. reflexivity.
Qed.

(** C3 (amended). On a reliable device, if some successor of the start
    cluster, at least one step away along the FAT (low 28 bits of each
    entry), is >= 0x0FFFFFF0 or <= 1 and is not its predecessor's number
    plus one, and the start cluster's FAT sector is not 0xFFFFFFFF, then
    [load_from_cluster] returns with any fuel of at least that many steps,
    without emitting a diagnostic, and the pointer it returns is the
    destination plus the number of sectors it read times the sector size,
    modulo 2^32. *)
Theorem load_from_cluster_terminates
    (id : Z) (st : machine) (c : Z) (ld_addr : Z) (n fuel : nat) :
  reliable dev ->
  fat_sector_of st c <> NO_SECTOR ->
  (1 <= n)%nat ->
  chain_end (chain_at dev id st n c) = true ->
  chain_at dev id st n c <> add32 (chain_at dev id st (n - 1) c) 1 ->
  (n <= fuel)%nat ->
  exists p st' evs,
    load_from_cluster dev junk fuel id c ld_addr st = Some (p, st')
    /\ log st' = log st ++ evs
    /\ filter is_diag evs = []
    /\ p = u32 (ld_addr + total_sectors evs * FAT_BLOCK_SIZE).
Proof.
  intros Hrel Hmiss Hn Hend Hnot Hfuel.
  assert (Hstop : stops (chain_at dev id st (n - 1) c) (chain_at dev id st n c) = true).
  { unfold stops. rewrite Hend. apply Z.eqb_neq in Hnot. rewrite Hnot. reflexivity. }
  destruct (stops_within id st n c n (conj Hn (le_n n)) Hstop) as (l & t & Hw & Hlen).
  assert (Hlf : (List.length l < fuel)%nat) by lia.
  destruct (load_from_cluster_walked id st c l t ld_addr fuel Hrel Hmiss Hw Hlf)
    as (st' & Hrun & Hlog & _).
  eexists _, st', _. split; [exact Hrun|]. split; [exact Hlog|].
  split; [apply diag_requests|]. f_equal. lia.
Qed.

(** C6 (amended). A FAT lookup requests a read of the FAT sector of the
    current cluster exactly when that sector differs from the cached one,
    and requests nothing otherwise.  Hence on a reliable device, for a
    chain as in C2 all of whose clusters have their entries in one FAT
    sector [F] other than 0xFFFFFFFF (the number the cache starts with),
    the whole call requests exactly one FAT-sector read, of [F]. *)
Theorem fat_sector_read_only_on_miss (id : Z) :
  (forall sector cached c st,
      (fat_sector_of st c = cached ->
       log (snd (read_fat dev id sector cached c st)) = log st)
      /\ (fat_sector_of st c <> cached ->
          log (snd (read_fat dev id sector cached c st))
          = log st ++ [BlockRead id Local (fat_sector_of st c) 1]))
  /\ (forall st c l t ld_addr fuel F,
         reliable dev ->
         F <> NO_SECTOR ->
         fat_sector_of st c = F ->
         Forall (fun c' => fat_sector_of st c' = F) l ->
         follows dev id st c l t ->
         Forall (fun c' => chain_end c' = false) l ->
         chain_end t = true ->
         t <> add32 (last l c) 1 ->
         (List.length l < fuel)%nat ->
         exists p st' evs,
           load_from_cluster dev junk fuel id c ld_addr st = Some (p, st')
           /\ log st' = log st ++ evs
           /\ filter is_local_read evs = [BlockRead id Local F 1]).
Proof.
  split.
  - intros sector cached c st. unfold read_fat. split.
    + intros He. apply Z.eqb_eq in He. rewrite He. reflexivity.
    + intros Hne. apply Z.eqb_neq in Hne. rewrite Hne. cbn [negb].
      destruct (Z.eq_dec (status dev (log st) id (fat_sector_of st c) 1) 0)
        as [Hok|Hko].
      * rewrite (mmc_block_read_local_ok _ _ _ _ _ Hok). reflexivity.
      * rewrite (mmc_block_read_local_fail _ _ _ _ _ Hko).
        apply Z.eqb_neq in Hko. rewrite Hko. reflexivity.
  - intros st c l t ld_addr fuel F Hrel HF Hc Hall Hf Hl Ht Hlast Hfuel.
    pose proof (follows_walked id st l c t Hf Hl Ht Hlast) as Hw.
    assert (Hmiss : fat_sector_of st c <> NO_SECTOR) by congruence.
    destruct (load_from_cluster_walked id st c l t ld_addr fuel Hrel Hmiss Hw Hfuel)
      as (st' & Hrun & Hlog & _).
    eexists _, st', _. split; [exact Hrun|]. split; [exact Hlog|].
    rewrite (local_reads_requests id st l _ _ _ _ c F Hc Hall).
    apply Z.eqb_neq in HF. rewrite HF. reflexivity.
Qed.

(** C10 (amended). For a start cluster that already is a chain-end value
    (>= 0x0FFFFFF0 or <= 1), whose FAT sector is not 0xFFFFFFFF, and whose
    own successor in the FAT is a chain-end value other than the start
    cluster plus one: [load_from_cluster] does not return at once; it
    requests one FAT-sector read, then one data read of [cluster_size]
    sectors into the destination from sector
    [lba_data + (start - 2) * cluster_size] modulo 2^32, and, both reads
    succeeding, returns the destination advanced by
    [cluster_size * FAT_BLOCK_SIZE] bytes. *)
Theorem load_from_cluster_from_chain_end
    (id : Z) (st : machine) (start : Z) (ld_addr : Z) (fuel : nat) :
  chain_end start = true ->
  fat_sector_of st start <> NO_SECTOR ->
  status dev (log st) id (fat_sector_of st start) 1 = 0 ->
  status dev (log st ++ [BlockRead id Local (fat_sector_of st start) 1]) id
    (data_sector_of st start) (u32 (cluster_size st)) = 0 ->
  chain_end (fat_next dev id st start) = true ->
  fat_next dev id st start <> add32 start 1 ->
  (1 <= fuel)%nat ->
  exists st',
    load_from_cluster dev junk fuel id start ld_addr st
      = Some (u32 (ld_addr + cluster_size st * FAT_BLOCK_SIZE), st')
    /\ log st'
       = log st ++ [BlockRead id Local (fat_sector_of st start) 1;
                    BlockRead id (Ram ld_addr)
                      (u32 (lba_data st + (start - 2) * cluster_size st))
                      (u32 (cluster_size st))].
Proof.
  intros _ Hmiss Hfat Hdata Hend Hnot Hfuel.
  destruct fuel as [|fuel]; [lia|].
  unfold load_from_cluster. cbn [batch_loop]. unfold read_fat.
  apply Z.eqb_neq in Hmiss. rewrite Hmiss. cbn [negb].
  rewrite (mmc_block_read_local_ok _ _ _ _ _ Hfat). cbn [Z.eqb negb].
  fold (fat_next dev id st start).
  apply Z.eqb_neq in Hnot. rewrite Hnot.
  unfold mmc_block_read. rewrite log_emit, Hdata. cbn [Z.eqb negb].
  rewrite Hend. eexists. split.
  - f_equal. f_equal. unfold mul32.
    unfold u32. rewrite Zplus_mod_idemp_r, Zplus_mod, Zmult_mod, Zmod_mod,
      <- Zmult_mod, <- Zplus_mod.
    reflexivity.
  - cbn [log store emit]. rewrite <- app_assoc. rewrite data_sector_of_eq.
    reflexivity.
Qed.
(** ** find_file *)

Section Directory.

Variable m : Z -> Z.
Variable first : Z.
Variable name : cstring.

Lemma skipped_iff e :
  skipped m e = true <->
  Z.land (entry_attr m e) ATTR_VOLUME <> 0 \/ Z.land (entry_attr m e) ATTR_DIR <> 0.
Proof.
  unfold skipped. rewrite negb_true_iff, Z.eqb_neq, Z.land_lor_distr_r.
  rewrite Z.lor_eq_0_iff. split.
  - intros Hn.
    destruct (Z.eq_dec (Z.land (entry_attr m e) ATTR_VOLUME) 0) as [Hv|Hv];
      [|left; exact Hv].
    destruct (Z.eq_dec (Z.land (entry_attr m e) ATTR_DIR) 0) as [Hd|Hd];
      [|right; exact Hd].
    exfalso. apply Hn. split; assumption.
  - intros [Hv|Hd] [Hv0 Hd0]; contradiction.
Qed.

Lemma slot_next k : u32 (slot first k + sizeof_dir_entry) = slot first (S k).
Proof.
  unfold slot. rewrite u32_add_l. f_equal. rewrite Nat2Z.inj_succ. lia.
Qed.

Lemma slot_before_end k n :
  0 < sizeof_dir_entry ->
  Z.of_nat n * sizeof_dir_entry < 2 ^ 32 ->
  (k < n)%nat ->
  slot first k <> slot first n.
Proof.
  intros Hsz Hfit Hk Heq. unfold slot, u32 in Heq.
  assert (Hd : (Z.of_nat n - Z.of_nat k) * sizeof_dir_entry mod 2 ^ 32 = 0).
  { replace ((Z.of_nat n - Z.of_nat k) * sizeof_dir_entry)
      with ((first + Z.of_nat n * sizeof_dir_entry)
            - (first + Z.of_nat k * sizeof_dir_entry)) by lia.
    rewrite Zminus_mod, Heq, Z.sub_diag. reflexivity. }
  rewrite Z.mod_small in Hd; nia.
Qed.

(** The scan from the [k]-th entry, all entries before it passed over. *)
Lemma find_file_from (n : nat) :
  0 < sizeof_dir_entry ->
  Z.of_nat n * sizeof_dir_entry < 2 ^ 32 ->
  (forall i, 0 <= i < 11 -> name i <> 0) ->
  forall d k fuel,
    (k + d = n)%nat ->
    (d < fuel)%nat ->
    (forall j, (j < k)%nat -> passed m first name j) ->
    exists r,
      find_file fuel m (slot first k) (slot first n) name = Some r
      /\ ((exists k', (k' < n)%nat /\ r = slot first k' /\ live m first k' /\ ~ labelled m first k'
                      /\ named m first name k' /\ forall j, (j < k')%nat -> passed m first name j)
          \/ (r = NULL /\ exists k', (k' < n)%nat /\ ~ live m first k'
                                     /\ forall j, (j < k')%nat -> passed m first name j)
          \/ (r = NULL /\ forall j, (j < n)%nat -> passed m first name j)).
Proof.
  intros Hsz Hfit Hname.
  induction d as [|d IH]; intros k fuel Hkd Hfuel Hbefore;
    (destruct fuel as [|fuel]; [lia|]); cbn [find_file].
  - replace k with n by lia. rewrite Z.eqb_refl. cbn [orb].
    exists NULL. split; [reflexivity|]. right. right. split; [reflexivity|].
    intros j Hj. apply Hbefore. lia.
  - assert (Hne : (slot first k =? slot first n) = false).
    { apply Z.eqb_neq. apply slot_before_end; try assumption. lia. }
    rewrite Hne. cbn [orb].
    destruct (Z.eqb_spec (entry_name m (slot first k) 0) 0) as [Hz|Hz].
    { exists NULL. split; [reflexivity|]. right. left. split; [reflexivity|].
      exists k. split; [lia|]. split; [|exact Hbefore].
      unfold live. intros Hl. contradiction. }
    rewrite slot_next.
    assert (Hstep : passed m first name k ->
              exists r,
                find_file fuel m (slot first (S k)) (slot first n) name = Some r
                /\ ((exists k', (k' < n)%nat /\ r = slot first k' /\ live m first k'
                                /\ ~ labelled m first k' /\ named m first name k'
                                /\ forall j, (j < k')%nat -> passed m first name j)
                    \/ (r = NULL /\ exists k', (k' < n)%nat /\ ~ live m first k'
                                     /\ forall j, (j < k')%nat -> passed m first name j)
                    \/ (r = NULL /\ forall j, (j < n)%nat -> passed m first name j))).
    { intros Hp. apply IH; [lia|lia|].
      intros j Hj. destruct (Nat.eq_dec j k) as [->|Hjk]; [exact Hp|].
      apply Hbefore. lia. }
    destruct (skipped m (slot first k)) eqn:Hskip.
    { apply Hstep. split; [exact Hz|]. left. apply skipped_iff. exact Hskip. }
    assert (Hnl : ~ labelled m first k).
    { intros Hl. apply skipped_iff in Hl. congruence. }
    destruct (Z.eqb_spec (strncmp (entry_name m (slot first k)) name 11) 0) as [Hc|Hc].
    + exists (slot first k). split; [reflexivity|]. left.
      exists k. split; [lia|]. split; [reflexivity|]. split; [exact Hz|].
      split; [exact Hnl|]. split; [|exact Hbefore].
      exact (proj1 (strncmp_zero_iff _ _ 11 Hname) Hc).
    + apply Hstep. split; [exact Hz|]. right. intros Hn. apply Hc.
      exact (proj2 (strncmp_zero_iff _ _ 11 Hname) Hn).
Qed.

(** C8. Over the [n] entries from [first] up to [end] (not included),
    for a name of 11 bytes none of which is zero, [find_file] returns
    - the address of the first entry that is in use, has neither the
      volume-label nor the directory attribute and whose 11 name bytes
      equal the name's, all entries before it being in use and either
      labelled or named otherwise; or
    - [NULL] at the first entry whose name starts with a zero byte, all
      entries before it being passed over likewise; or
    - [NULL] when all [n] entries have been passed over. *)
Theorem find_file_spec (n fuel : nat) :
  0 < sizeof_dir_entry ->
  Z.of_nat n * sizeof_dir_entry < 2 ^ 32 ->
  0 <= first < 2 ^ 32 ->
  (forall i, 0 <= i < 11 -> name i <> 0) ->
  (n < fuel)%nat ->
  exists r,
    find_file fuel m first (u32 (first + Z.of_nat n * sizeof_dir_entry)) name
      = Some r
    /\ ((exists k, (k < n)%nat
                   /\ r = u32 (first + Z.of_nat k * sizeof_dir_entry)
                   /\ live m first k /\ ~ labelled m first k /\ named m first name k
                   /\ forall j, (j < k)%nat -> passed m first name j)
        \/ (r = NULL /\ exists k, (k < n)%nat /\ ~ live m first k
                                  /\ forall j, (j < k)%nat -> passed m first name j)
        \/ (r = NULL /\ forall j, (j < n)%nat -> passed m first name j)).
Proof.
  intros Hsz Hfit Hfirst Hname Hfuel.
  assert (H0 : slot first 0 = first).
  { unfold slot. cbn [Z.of_nat]. rewrite Z.mul_0_l, Z.add_0_r.
    apply u32_small. exact Hfirst. }
  replace (find_file fuel m first) with (find_file fuel m (slot first 0))
    by (rewrite H0; reflexivity).
  apply (find_file_from n Hsz Hfit Hname n 0%nat fuel); [lia|exact Hfuel|].
  intros j Hj. lia.
Qed.

(** X10. Over a range and for a name as in C8, if the name does not
    start with the byte 0xE5 then [find_file] never returns a deleted
    entry (one whose name starts with 0xE5), although it does not test
    for the mark: such an entry cannot carry the name. *)
Theorem find_file_ignores_deleted (n fuel : nat) :
  0 < sizeof_dir_entry ->
  Z.of_nat n * sizeof_dir_entry < 2 ^ 32 ->
  0 <= first < 2 ^ 32 ->
  (forall i, 0 <= i < 11 -> name i <> 0) ->
  name 0 <> 0xE5 ->
  (n < fuel)%nat ->
  exists r,
    find_file fuel m first (u32 (first + Z.of_nat n * sizeof_dir_entry)) name
      = Some r
    /\ (r = NULL
        \/ exists k, (k < n)%nat /\ r = slot first k
                     /\ entry_name m r 0 <> 0xE5).
Proof.
  intros Hsz Hfit Hfirst Hname Hmark Hfuel.
  assert (H0 : slot first 0 = first).
  { unfold slot. cbn [Z.of_nat]. rewrite Z.mul_0_l, Z.add_0_r.
    apply u32_small. exact Hfirst. }
  replace (find_file fuel m first) with (find_file fuel m (slot first 0))
    by (rewrite H0; reflexivity).
  destruct (find_file_from n Hsz Hfit Hname n 0%nat fuel) as (r & Hr & Hcases);
    [lia | exact Hfuel | intros j Hj; lia |].
  exists r. split; [exact Hr|].
  destruct Hcases as [(k & Hk & Hrk & _ & _ & Hnamed & _)|[[Hn _]|[Hn _]]].
  - right. exists k. split; [exact Hk|]. split; [exact Hrk|].
    rewrite Hrk, (Hnamed 0) by lia. exact Hmark.
  - left. exact Hn.
  - left. exact Hn.
Qed.

(** The scan of a range whose end no entry address reaches: entries that
    are all in use and all passed over keep it going. *)
Lemma find_file_misses_end end_ :
  0 < sizeof_dir_entry ->
  (sizeof_dir_entry | 2 ^ 32) ->
  ~ (sizeof_dir_entry | end_ - first) ->
  (forall i, 0 <= i < 11 -> name i <> 0) ->
  (forall k, passed m first name k) ->
  forall fuel k, find_file fuel m (slot first k) end_ name = None.
Proof.
  intros Hsz Hdiv Hmis Hname Hall.
  induction fuel as [|fuel IH]; intros k; [reflexivity|].
  cbn [find_file].
  assert (Hne : (slot first k =? end_) = false).
  { apply Z.eqb_neq. intros Heq. apply Hmis.
    unfold slot in Heq. destruct (u32_decomp (first + Z.of_nat k * sizeof_dir_entry))
      as (q & Hq).
    rewrite Hq in Heq. destruct Hdiv as (d & Hd).
    exists (Z.of_nat k - q * d). rewrite <- Heq. rewrite Hd. ring. }
  rewrite Hne. cbn [orb].
  destruct (Hall k) as [Hlive Hpass].
  apply Z.eqb_neq in Hlive. rewrite Hlive.
  rewrite slot_next.
  destruct (skipped m (slot first k)) eqn:Hskip; [apply IH|].
  destruct Hpass as [Hlab|Hnn].
  - apply skipped_iff in Hlab. congruence.
  - destruct (Z.eqb_spec (strncmp (entry_name m (slot first k)) name 11) 0)
      as [Hc|Hc]; [|apply IH].
    exfalso. apply Hnn. exact (proj1 (strncmp_zero_iff _ _ 11 Hname) Hc).
Qed.

(** X11. [find_file] tests [entry != end] only at entry addresses: when
    the size of an entry divides 2^32 but not the distance from [first]
    to [end], no entry address is [end], and over entries that are all in
    use and none of which is the file looked for, the scan never returns. *)
Theorem find_file_needs_aligned_end (end_ : Z) (fuel : nat) :
  0 < sizeof_dir_entry ->
  (sizeof_dir_entry | 2 ^ 32) ->
  0 <= first < 2 ^ 32 ->
  ~ (sizeof_dir_entry | end_ - first) ->
  (forall i, 0 <= i < 11 -> name i <> 0) ->
  (forall k, passed m first name k) ->
  find_file fuel m first end_ name = None.
Proof.
  intros Hsz Hdiv Hfirst Hmis Hname Hall.
  assert (H0 : slot first 0 = first).
  { unfold slot. cbn [Z.of_nat]. rewrite Z.mul_0_l, Z.add_0_r.
    apply u32_small. exact Hfirst. }
  rewrite <- H0 at 1.
  apply (find_file_misses_end end_ Hsz Hdiv Hmis Hname Hall).
Qed.

End Directory.
(** ** mmc_load_kernel *)

Lemma report_code alt i :
  i = 0 \/ i = 1 -> truth (i =? lnot alt) = code_of (candidate alt i).
Proof.
  intros [->| ->]; unfold candidate, lnot;
    destruct (alt =? 0); reflexivity.
Qed.


Lemma load_candidate_loaded fuel id ld_addr alt i s st entry p st' :
  find_file fuel (ram st) (dir_start s) (dir_end s)
    (literal (bootfile (candidate alt i))) = Some entry ->
  entry <> NULL ->
  load_from_cluster dev junk fuel id (start_cluster (ram st) entry)
    ld_addr (SERIAL_PUTS loading st) = Some (p, st') ->
  load_candidate dev junk fuel id ld_addr alt i s st
  = Some (if negb (p =? NULL) then (Return (truth (i =? lnot alt)), st')
          else (Continue {| dir_start := NULL; dir_end := dir_end s;
                            err := -1 |}, st')).
Proof.
  intros Hfind He Hload. unfold load_candidate. fold loading. rewrite Hfind.
  apply Z.eqb_neq in He. rewrite He.
  change (ram (SERIAL_PUTS loading st)) with (ram st). rewrite Hload.
  destruct (negb (p =? NULL)); reflexivity.
Qed.

(** [mmc_load_kernel] from the loop on, once the card is mounted. *)
Lemma mmc_load_kernel_mounted fuel id ld_addr alt st lba st1 st2 :
  get_first_partition dev junk id 0 st = (0, lba, st1) ->
  process_boot_sector dev junk id lba st1 = (0, st2) ->
  mmc_load_kernel dev junk fuel id ld_addr alt st
  = match passes dev junk 2 fuel id ld_addr alt 0 loop_entry st2 with
    | None => None
    | Some (Return v, st3) => Some (v, st3)
    | Some (Continue s, st3) =>
        if negb (err s =? 0) then Some (err s, st3)
        else Some (-1, SERIAL_PUTI 0x07 st3)
    end.
Proof.
  intros Hp Hb. unfold mmc_load_kernel. rewrite Hp. cbn [Z.eqb negb].
  rewrite Hb. cbn [Z.eqb negb]. reflexivity.
Qed.

(** The branch [i == !!alt] picks the kernels in the order of the flag. *)
Lemma candidate_priority alt :
  candidate alt 0 = fst (priority alt) /\ candidate alt 1 = snd (priority alt).
Proof.
  unfold candidate, priority, lnot.
  destruct (alt =? 0); cbn; split; reflexivity.
Qed.


(** The search and load of a pass, by the end of its attempt. *)
Lemma load_candidate_attempted fuel id ld_addr alt i e r st a :
  i = 0 \/ i = 1 ->
  attempted dev junk fuel id ld_addr (candidate alt i) e st a ->
  load_candidate dev junk fuel id ld_addr alt i
    {| dir_start := ld_addr; dir_end := e; err := r |} st
  = Some (match a with
          | Absent =>
              (Continue {| dir_start := ld_addr; dir_end := e; err := r |}, st)
          | Loaded st' => (Return (code_of (candidate alt i)), st')
          | Failed st' =>
              (Continue {| dir_start := NULL; dir_end := e; err := -1 |}, st')
          end).
Proof.
  intros Hi Ha. destruct a as [|st'|st']; cbn [attempted] in Ha.
  - unfold load_candidate. cbn [dir_start dir_end]. rewrite Ha.
    rewrite Z.eqb_refl. reflexivity.
  - destruct Ha as (entry & p & Hf & He & Hl & Hp).
    rewrite (load_candidate_loaded fuel id ld_addr alt i
               {| dir_start := ld_addr; dir_end := e; err := r |} st entry p st'
               Hf He Hl).
    apply Z.eqb_neq in Hp. rewrite Hp. cbn [negb].
    rewrite (report_code alt i Hi). reflexivity.
  - destruct Ha as (entry & Hf & He & Hl).
    rewrite (load_candidate_loaded fuel id ld_addr alt i
               {| dir_start := ld_addr; dir_end := e; err := r |} st entry NULL st'
               Hf He Hl).
    reflexivity.
Qed.


(** A pass entered without a directory loads the root directory first. *)
Lemma pass_loads_root fuel id ld_addr alt i s st :
  dir_start s = NULL ->
  pass dev junk fuel id ld_addr alt i s st
  = match root_load dev junk fuel id ld_addr st with
    | None => None
    | Some (e, st1) =>
        if e =? NULL then Some (Return (-1), st1)
        else load_candidate dev junk fuel id ld_addr alt i
               {| dir_start := ld_addr; dir_end := e; err := err s |} st1
    end.
Proof.
  intros Hs. unfold pass, load_root, root_load. rewrite Hs, Z.eqb_refl.
  destruct (load_from_cluster dev junk fuel id (root_cluster st) ld_addr st)
    as [[e st1]|]; [|reflexivity].
  destruct (e =? NULL); reflexivity.
Qed.

(** A pass entered with a directory searches it as it is. *)
Lemma pass_keeps_directory fuel id ld_addr alt i s st :
  dir_start s <> NULL ->
  pass dev junk fuel id ld_addr alt i s st
  = load_candidate dev junk fuel id ld_addr alt i s st.
Proof.
  intros Hs. unfold pass, load_root. apply Z.eqb_neq in Hs. rewrite Hs.
  reflexivity.
Qed.

(** A pass that loads the root directory, by the result of the load and
    the end of its attempt. *)
Lemma pass_reloaded fuel id ld_addr alt i s st e2 st5 :
  i = 0 \/ i = 1 ->
  dir_start s = NULL ->
  root_load dev junk fuel id ld_addr st = Some (e2, st5) ->
  (e2 = NULL ->
   pass dev junk fuel id ld_addr alt i s st = Some (Return (-1), st5))
  /\ (e2 <> NULL ->
      forall a,
        attempted dev junk fuel id ld_addr (candidate alt i) e2 st5 a ->
        pass dev junk fuel id ld_addr alt i s st
        = Some (match a with
                | Absent =>
                    (Continue {| dir_start := ld_addr; dir_end := e2;
                                 err := err s |}, st5)
                | Loaded st' => (Return (code_of (candidate alt i)), st')
                | Failed st' =>
                    (Continue {| dir_start := NULL; dir_end := e2; err := -1 |},
                     st')
                end)).
Proof.
  intros Hi Hs Hroot. rewrite (pass_loads_root _ _ _ _ _ _ _ Hs), Hroot. split.
  - intros ->. reflexivity.
  - intros He a Ha. apply Z.eqb_neq in He. rewrite He.
    apply load_candidate_attempted; assumption.
Qed.

(** The pass after a search that found nothing: it searches the same
    directory, unless the destination is [NULL], which the test
    [!dir_start] takes for no directory. *)
Lemma pass_after_absent fuel id ld_addr alt i e r st e2 st5 :
  i = 0 \/ i = 1 ->
  e <> NULL ->
  (if ld_addr =? NULL then root_load dev junk fuel id ld_addr st
   else Some (e, st)) = Some (e2, st5) ->
  (e2 = NULL ->
   pass dev junk fuel id ld_addr alt i
     {| dir_start := ld_addr; dir_end := e; err := r |} st
   = Some (Return (-1), st5))
  /\ (e2 <> NULL ->
      forall a,
        attempted dev junk fuel id ld_addr (candidate alt i) e2 st5 a ->
        pass dev junk fuel id ld_addr alt i
          {| dir_start := ld_addr; dir_end := e; err := r |} st
        = Some (match a with
                | Absent =>
                    (Continue {| dir_start := ld_addr; dir_end := e2;
                                 err := r |}, st5)
                | Loaded st' => (Return (code_of (candidate alt i)), st')
                | Failed st' =>
                    (Continue {| dir_start := NULL; dir_end := e2; err := -1 |},
                     st')
                end)).
Proof.
  intros Hi He Hd. destruct (Z.eqb_spec ld_addr NULL) as [Hl|Hl].
  - exact (pass_reloaded fuel id ld_addr alt i
             {| dir_start := ld_addr; dir_end := e; err := r |} st e2 st5
             Hi Hl Hd).
  - assert (He2 : e2 = e) by congruence.
    assert (Hst : st5 = st) by congruence. subst e2 st5. split.
    + intros Hn. contradiction.
    + intros _ a Ha.
      rewrite (pass_keeps_directory fuel id ld_addr alt i
                 {| dir_start := ld_addr; dir_end := e; err := r |} st Hl).
      apply load_candidate_attempted; assumption.
Qed.



(** The run of [mmc_load_kernel] on a mounted card, by its two passes. *)
Lemma mmc_load_kernel_two_passes fuel id ld_addr alt st lba st1 st2 :
  get_first_partition dev junk id 0 st = (0, lba, st1) ->
  process_boot_sector dev junk id lba st1 = (0, st2) ->
  mmc_load_kernel dev junk fuel id ld_addr alt st
  = match pass dev junk fuel id ld_addr alt 0 loop_entry st2 with
    | None => None
    | Some (Return v, st3) => Some (v, st3)
    | Some (Continue s1, st3) =>
        match pass dev junk fuel id ld_addr alt 1 s1 st3 with
        | None => None
        | Some (Return v, st4) => Some (v, st4)
        | Some (Continue s2, st4) =>
            if negb (err s2 =? 0) then Some (err s2, st4)
            else Some (-1, SERIAL_PUTI 0x07 st4)
        end
    end.
Proof.
  intros Hp Hb. rewrite (mmc_load_kernel_mounted _ _ _ _ _ _ _ _ Hp Hb).
  cbn [passes]. change (0 + 1) with 1.
  destruct (pass dev junk fuel id ld_addr alt 0 loop_entry st2)
    as [[[v|s1] st3]|]; [reflexivity| |reflexivity].
  destruct (pass dev junk fuel id ld_addr alt 1 s1 st3)
    as [[[v|s2] st4]|]; reflexivity.
Qed.

(** The first pass on a mounted card whose root directory loads. *)
Lemma first_pass fuel id ld_addr alt st2 e st3 a :
  root_load dev junk fuel id ld_addr st2 = Some (e, st3) ->
  e <> NULL ->
  attempted dev junk fuel id ld_addr (candidate alt 0) e st3 a ->
  pass dev junk fuel id ld_addr alt 0 loop_entry st2
  = Some (match a with
          | Absent =>
              (Continue {| dir_start := ld_addr; dir_end := e; err := 0 |}, st3)
          | Loaded st' => (Return (code_of (candidate alt 0)), st')
          | Failed st' =>
              (Continue {| dir_start := NULL; dir_end := e; err := -1 |}, st')
          end).
Proof.
  intros Hroot He Ha.
  exact (proj2 (pass_reloaded fuel id ld_addr alt 0 loop_entry st2 e st3
                  (or_introl eq_refl) eq_refl Hroot) He a Ha).
Qed.

(** The run when the attempt at the first kernel fails. *)
Lemma run_after_failed fuel id ld_addr alt st lba st1 st2 e st3 st4 e2 st5 :
  get_first_partition dev junk id 0 st = (0, lba, st1) ->
  process_boot_sector dev junk id lba st1 = (0, st2) ->
  root_load dev junk fuel id ld_addr st2 = Some (e, st3) ->
  e <> NULL ->
  attempted dev junk fuel id ld_addr (candidate alt 0) e st3 (Failed st4) ->
  root_load dev junk fuel id ld_addr st4 = Some (e2, st5) ->
  (e2 = NULL ->
   mmc_load_kernel dev junk fuel id ld_addr alt st = Some (-1, st5))
  /\ (e2 <> NULL ->
      forall a,
        attempted dev junk fuel id ld_addr (candidate alt 1) e2 st5 a ->
        mmc_load_kernel dev junk fuel id ld_addr alt st
        = Some (match a with
                | Loaded st' => (code_of (candidate alt 1), st')
                | Absent => (-1, st5)
                | Failed st' => (-1, st')
                end)).
Proof.
  intros Hp Hb Hroot He Ha Hroot2.
  rewrite (mmc_load_kernel_two_passes _ _ _ _ _ _ _ _ Hp Hb).
  rewrite (first_pass _ _ _ _ _ _ _ _ Hroot He Ha).
  destruct (pass_reloaded fuel id ld_addr alt 1
              {| dir_start := NULL; dir_end := e; err := -1 |} st4 e2 st5
              (or_intror eq_refl) eq_refl Hroot2) as [Hnull Hsome].
  split.
  - intros He2. rewrite (Hnull He2). reflexivity.
  - intros He2 a2 Ha2. rewrite (Hsome He2 a2 Ha2).
    destruct a2; reflexivity.
Qed.

(** The run when the first kernel is not in the directory. *)
Lemma run_after_absent fuel id ld_addr alt st lba st1 st2 e st3 e2 st5 :
  get_first_partition dev junk id 0 st = (0, lba, st1) ->
  process_boot_sector dev junk id lba st1 = (0, st2) ->
  root_load dev junk fuel id ld_addr st2 = Some (e, st3) ->
  e <> NULL ->
  attempted dev junk fuel id ld_addr (candidate alt 0) e st3 Absent ->
  (if ld_addr =? NULL then root_load dev junk fuel id ld_addr st3
   else Some (e, st3)) = Some (e2, st5) ->
  (e2 = NULL ->
   mmc_load_kernel dev junk fuel id ld_addr alt st = Some (-1, st5))
  /\ (e2 <> NULL ->
      forall a,
        attempted dev junk fuel id ld_addr (candidate alt 1) e2 st5 a ->
        mmc_load_kernel dev junk fuel id ld_addr alt st
        = Some (match a with
                | Loaded st' => (code_of (candidate alt 1), st')
                | Absent => (-1, SERIAL_PUTI 0x07 st5)
                | Failed st' => (-1, st')
                end)).
Proof.
  intros Hp Hb Hroot He Ha Hdir.
  rewrite (mmc_load_kernel_two_passes _ _ _ _ _ _ _ _ Hp Hb).
  rewrite (first_pass _ _ _ _ _ _ _ _ Hroot He Ha).
  destruct (pass_after_absent fuel id ld_addr alt 1 e 0 st3 e2 st5
              (or_intror eq_refl) He Hdir) as [Hnull Hsome].
  split.
  - intros He2. rewrite (Hnull He2). reflexivity.
  - intros He2 a2 Ha2. rewrite (Hsome He2 a2 Ha2).
    destruct a2; reflexivity.
Qed.


(** C5. On a mounted card whose root directory is loaded: when the first
    kernel is found and the load of its chain fails, the root directory
    is loaded from the device again, from the state the failed load left,
    before the second kernel is searched, and it is searched in that
    second copy; the error is on record from then on: the run returns -1
    with nothing more on the serial line when the second kernel is not
    found or its load fails too, and the code of the second kernel when
    its chain loads.  When no load has failed and neither kernel is
    found, the run emits the code 0x07 (kernel file not found) and
    returns -1; when the first is not found and the load of the second
    fails, it returns -1 without that code.  The loop has one more exit:
    a load of the root directory that fails returns -1 at once, with no
    code of the loop's own. *)
Theorem mmc_load_kernel_failed_load
    (fuel : nat) (id ld_addr alt : Z) (st : machine) (lba : Z) (st1 st2 : machine)
    (e : Z) (st3 : machine) :
  get_first_partition dev junk id 0 st = (0, lba, st1) ->
  process_boot_sector dev junk id lba st1 = (0, st2) ->
  root_load dev junk fuel id ld_addr st2 = Some (e, st3) ->
  let first := fst (priority alt) in
  let second := snd (priority alt) in
  let run := mmc_load_kernel dev junk fuel id ld_addr alt st in
  (e = NULL -> run = Some (-1, st3))
  /\ (e <> NULL ->
      (forall st4 e2 st5,
          attempted dev junk fuel id ld_addr first e st3 (Failed st4) ->
          root_load dev junk fuel id ld_addr st4 = Some (e2, st5) ->
          (e2 = NULL -> run = Some (-1, st5))
          /\ (e2 <> NULL ->
              forall a,
                attempted dev junk fuel id ld_addr second e2 st5 a ->
                run = Some (match a with
                            | Loaded st' => (code_of second, st')
                            | Absent => (-1, st5)
                            | Failed st' => (-1, st')
                            end)))
      /\ (forall e2 st5,
             attempted dev junk fuel id ld_addr first e st3 Absent ->
             (if ld_addr =? NULL then root_load dev junk fuel id ld_addr st3
              else Some (e, st3)) = Some (e2, st5) ->
             (e2 = NULL -> run = Some (-1, st5))
             /\ (e2 <> NULL ->
                 forall a,
                   attempted dev junk fuel id ld_addr second e2 st5 a ->
                   run = Some (match a with
                               | Loaded st' => (code_of second, st')
                               | Absent => (-1, SERIAL_PUTI 0x07 st5)
                               | Failed st' => (-1, st')
                               end)))).
Proof.
  intros Hp Hb Hroot first second run. subst first second run.
  destruct (candidate_priority alt) as [H0 H1]. rewrite <- H0, <- H1.
  split.
  - intros He.
    rewrite (mmc_load_kernel_two_passes _ _ _ _ _ _ _ _ Hp Hb).
    rewrite (proj1 (pass_reloaded fuel id ld_addr alt 0 loop_entry st2 e st3
                      (or_introl eq_refl) eq_refl Hroot) He).
    reflexivity.
  - intros He. split.
    + intros st4 e2 st5 Ha Hroot2.
      exact (run_after_failed _ _ _ _ _ _ _ _ _ _ _ _ _ Hp Hb Hroot He Ha Hroot2).
    + intros e2 st5 Ha Hdir.
      exact (run_after_absent _ _ _ _ _ _ _ _ _ _ _ _ Hp Hb Hroot He Ha Hdir).
Qed.
(** ** load_from_cluster on any device *)

Section AnyDevice.

Variable id : Z.

Lemma mmc_block_read_cases dst src num st :
  (status dev (log st) id src num = 0
   /\ mmc_block_read dev id dst src num st
      = (0, store (fun a =>
                     let k := u32 (a - dst) in
                     if k <? num * FAT_BLOCK_SIZE then blocks dev id src k
                     else ram st a)
              (emit (BlockRead id (Ram dst) src num) st)))
  \/ (status dev (log st) id src num <> 0
      /\ mmc_block_read dev id dst src num st
         = (status dev (log st) id src num,
            emit (BlockRead id (Ram dst) src num) st)).
Proof.
  unfold mmc_block_read.
  destruct (Z.eqb_spec (status dev (log st) id src num) 0) as [Hok|Hko].
  - left. split; [exact Hok|]. rewrite Hok. reflexivity.
  - right. split; [exact Hko | reflexivity].
Qed.

(** The three ways out of a FAT lookup. *)
Lemma read_fat_cases sector cached c st :
  (fat_sector_of st c = cached
   /\ read_fat dev id sector cached c st = (0, sector, cached, st))
  \/ (fat_sector_of st c <> cached
      /\ status dev (log st) id (fat_sector_of st c) 1 = 0
      /\ read_fat dev id sector cached c st
         = (0, blocks dev id (fat_sector_of st c), fat_sector_of st c,
            emit (BlockRead id Local (fat_sector_of st c) 1) st))
  \/ (fat_sector_of st c <> cached
      /\ status dev (log st) id (fat_sector_of st c) 1 <> 0
      /\ exists rc, rc <> 0
         /\ read_fat dev id sector cached c st
            = (rc, sector, cached,
               emit (BlockRead id Local (fat_sector_of st c) 1) st)).
Proof.
  unfold read_fat.
  destruct (Z.eqb_spec (fat_sector_of st c) cached) as [He|Hne]; cbn [negb].
  - left. split; [exact He | reflexivity].
  - destruct (Z.eq_dec (status dev (log st) id (fat_sector_of st c) 1) 0)
      as [Hok|Hko].
    + right. left. split; [exact Hne|]. split; [exact Hok|].
      rewrite (mmc_block_read_local_ok _ _ _ _ _ Hok). reflexivity.
    + right. right. split; [exact Hne|]. split; [exact Hko|].
      exists (status dev (log st) id (fat_sector_of st c) 1). split; [exact Hko|].
      rewrite (mmc_block_read_local_fail _ _ _ _ _ Hko).
      apply Z.eqb_neq in Hko. rewrite Hko. reflexivity.
Qed.

Lemma same_geometry_trans a b c :
  same_geometry a b -> same_geometry b c -> same_geometry a c.
Proof.
  intros (H1 & H2 & H3 & H4) (K1 & K2 & K3 & K4).
  repeat split; congruence.
Qed.

(** An outcome from a state reached by one more loader event that is no
    diagnostic and no data read is an outcome from the state before. *)
Lemma loader_outcome_after_fat_read st s addr p st' :
  loader_outcome dev id (emit (BlockRead id Local s 1) st) addr p st' ->
  loader_outcome dev id st addr p st'.
Proof.
  intros (evs & Hlog & Hg & Hall & Hcases).
  exists (BlockRead id Local s 1 :: evs).
  split; [rewrite Hlog; cbn; rewrite <- app_assoc; reflexivity|].
  split; [exact Hg|].
  split; [constructor; [split; reflexivity | exact Hall]|].
  destruct Hcases as [[Hnd Hp]|[[Hp (evs0 & s0 & He & Hnd & Hst)]
                               |[Hp (evs0 & a & s0 & n & He & Hnd & Hst)]]].
  - left. split; [exact Hnd | exact Hp].
  - right. left. split; [exact Hp|].
    exists (BlockRead id Local s 1 :: evs0), s0.
    split; [rewrite He; reflexivity|]. split; [exact Hnd|].
    cbn [log emit] in Hst. rewrite <- app_assoc in Hst. exact Hst.
  - right. right. split; [exact Hp|].
    exists (BlockRead id Local s 1 :: evs0), a, s0, n.
    split; [rewrite He; reflexivity|]. split; [exact Hnd|].
    cbn [log emit] in Hst. rewrite <- app_assoc in Hst. exact Hst.
Qed.

(** Likewise past a data read that succeeded: the destination of the
    outcome is the one advanced by that read. *)
Lemma loader_outcome_after_data_read st m src num addr p st' :
  loader_outcome dev id
    (store m (emit (BlockRead id (Ram addr) src num) st))
    (u32 (addr + mul32 num FAT_BLOCK_SIZE)) p st' ->
  loader_outcome dev id st addr p st'.
Proof.
  intros (evs & Hlog & Hg & Hall & Hcases).
  exists (BlockRead id (Ram addr) src num :: evs).
  split; [rewrite Hlog; cbn; rewrite <- app_assoc; reflexivity|].
  split; [exact Hg|].
  split; [constructor; [reflexivity | exact Hall]|].
  destruct Hcases as [[Hnd Hp]|[[Hp (evs0 & s0 & He & Hnd & Hst)]
                               |[Hp (evs0 & a & s0 & n & He & Hnd & Hst)]]].
  - left. split; [exact Hnd|]. rewrite Hp.
    change (BlockRead id (Ram addr) src num :: evs)
      with ([BlockRead id (Ram addr) src num] ++ evs).
    rewrite total_sectors_app.
    change (total_sectors [BlockRead id (Ram addr) src num]) with (num + 0).
    replace (total_sectors evs * FAT_BLOCK_SIZE)
      with (FAT_BLOCK_SIZE * total_sectors evs) by lia.
    rewrite advance_twice. f_equal. lia.
  - right. left. split; [exact Hp|].
    exists (BlockRead id (Ram addr) src num :: evs0), s0.
    split; [rewrite He; reflexivity|]. split; [exact Hnd|].
    cbn [log emit store] in Hst. rewrite <- app_assoc in Hst. exact Hst.
  - right. right. split; [exact Hp|].
    exists (BlockRead id (Ram addr) src num :: evs0), a, s0, n.
    split; [rewrite He; reflexivity|]. split; [exact Hnd|].
    cbn [log emit store] in Hst. rewrite <- app_assoc in Hst. exact Hst.
Qed.

(** The body of the loops after a FAT lookup that succeeded. *)
Lemma after_lookup_outcome fuel :
  (forall sector cached c ds nm addr st p st',
      batch_loop dev fuel id sector cached c ds nm addr st = Some (p, st') ->
      loader_outcome dev id st addr p st') ->
  forall sector cached c ds nm addr st p st',
    (if successor sector c =? add32 c 1 then
       batch_loop dev fuel id sector cached (successor sector c) ds
         (add32 nm (cluster_size st)) addr st
     else
       let '(rc, st2) := mmc_block_read dev id addr ds nm st in
       if negb (rc =? 0) then Some (NULL, SERIAL_PUTI 0x03 st2)
       else
         if chain_end (successor sector c)
         then Some (u32 (addr + mul32 nm FAT_BLOCK_SIZE), st2)
         else
           batch_loop dev fuel id sector cached (successor sector c)
             (data_sector_of st2 (successor sector c)) (u32 (cluster_size st2))
             (u32 (addr + mul32 nm FAT_BLOCK_SIZE)) st2) = Some (p, st') ->
    loader_outcome dev id st addr p st'.
Proof.
  intros IH sector cached c ds nm addr st p st' Hrun.
  destruct (successor sector c =? add32 c 1); [exact (IH _ _ _ _ _ _ _ _ _ Hrun)|].
  destruct (mmc_block_read_cases addr ds nm st) as [[Hok Hrd]|[Hko Hrd]];
    rewrite Hrd in Hrun; clear Hrd.
  - cbn [Z.eqb negb] in Hrun.
    apply loader_outcome_after_data_read
      with (m := fun a => let k := u32 (a - addr) in
                          if k <? nm * FAT_BLOCK_SIZE then blocks dev id ds k
                          else ram st a) (src := ds) (num := nm).
    destruct (chain_end (successor sector c)).
    + inversion Hrun; subst p st'. exists [].
      split; [symmetry; apply app_nil_r|]. split; [apply same_geometry_refl|].
      split; [constructor|]. left. split; [reflexivity|].
      cbn. rewrite Z.add_0_r. symmetry. apply u32_idem.
    + exact (IH _ _ _ _ _ _ _ _ _ Hrun).
  - apply Z.eqb_neq in Hko. rewrite Hko in Hrun. cbn [negb] in Hrun.
    apply Z.eqb_neq in Hko.
    inversion Hrun; subst p st'.
    exists [BlockRead id (Ram addr) ds nm; PutI 0x03].
    split; [cbn; rewrite <- app_assoc; reflexivity|].
    split; [repeat split|].
    split; [constructor; [reflexivity|]; constructor;
            [left; reflexivity | constructor]|].
    right. right. split; [reflexivity|].
    exists [], addr, ds, nm. split; [reflexivity|]. split; [reflexivity|].
    rewrite app_nil_r. exact Hko.
Qed.

(** How a run of the loops ends, whatever the device does. *)
Lemma batch_loop_outcome fuel :
  forall sector cached c ds nm addr st p st',
    batch_loop dev fuel id sector cached c ds nm addr st = Some (p, st') ->
    loader_outcome dev id st addr p st'.
Proof.
  induction fuel as [|fuel IH];
    intros sector cached c ds nm addr st p st' Hrun; [discriminate Hrun|].
  cbn [batch_loop] in Hrun.
  destruct (read_fat_cases sector cached c st)
    as [[Hhit Hrf]|[(Hmiss & Hok & Hrf)|(Hmiss & Hko & rc & Hrc & Hrf)]];
    rewrite Hrf in Hrun; clear Hrf.
  - cbn [Z.eqb negb] in Hrun.
    exact (after_lookup_outcome fuel IH _ _ _ _ _ _ _ _ _ Hrun).
  - cbn [Z.eqb negb] in Hrun.
    apply loader_outcome_after_fat_read with (s := fat_sector_of st c).
    exact (after_lookup_outcome fuel IH _ _ _ _ _ _ _ _ _ Hrun).
  - apply Z.eqb_neq in Hrc. rewrite Hrc in Hrun. cbn [negb] in Hrun.
    inversion Hrun; subst p st'. clear Hrun.
    exists [BlockRead id Local (fat_sector_of st c) 1; PutI 0x04].
    split; [cbn; rewrite <- app_assoc; reflexivity|].
    split; [repeat split|].
    split; [constructor; [split; reflexivity|]; constructor;
            [right; reflexivity | constructor]|].
    right. left. split; [reflexivity|].
    exists [], (fat_sector_of st c). split; [reflexivity|].
    split; [reflexivity|]. rewrite app_nil_r. exact Hko.
Qed.

(** X4. Whatever the device does, a call of [load_from_cluster] that
    returns has kept the four geometry globals and has only added to the
    log: block reads of the device it was given (FAT-sector reads of one
    sector each, data reads into RAM) and the codes 0x03 and 0x04; it
    writes nothing on the serial line but such a code. *)
Theorem load_from_cluster_keeps_geometry
    (fuel : nat) (c ld_addr : Z) (st : machine) (p : Z) (st' : machine) :
  load_from_cluster dev junk fuel id c ld_addr st = Some (p, st') ->
  same_geometry st st'
  /\ exists evs, log st' = log st ++ evs /\ Forall (loader_event id) evs.
Proof.
  intros Hrun. unfold load_from_cluster in Hrun.
  destruct (batch_loop_outcome fuel _ _ _ _ _ _ _ _ _ Hrun)
    as (evs & Hlog & Hg & Hall & _).
  split; [exact Hg|]. exists evs. split; assumption.
Qed.

(** X5. Whatever the device does, a call of [load_from_cluster] that
    returns either emitted no diagnostic and returns the destination
    advanced by the sectors it asked for times the block size (modulo
    2^32); or returns [NULL], its log ending with a read that failed and
    the code of that read, the only diagnostic of the call: 0x04 for a
    FAT-sector read, 0x03 for a data read. *)
Theorem load_from_cluster_failure_report
    (fuel : nat) (c ld_addr : Z) (st : machine) (p : Z) (st' : machine) :
  load_from_cluster dev junk fuel id c ld_addr st = Some (p, st') ->
  exists evs,
    log st' = log st ++ evs
    /\ ((filter is_diag evs = []
         /\ p = u32 (ld_addr + total_sectors evs * FAT_BLOCK_SIZE))
        \/ (p = NULL
            /\ exists evs0 s,
                 evs = evs0 ++ [BlockRead id Local s 1; PutI 0x04]
                 /\ filter is_diag evs0 = []
                 /\ status dev (log st ++ evs0) id s 1 <> 0)
        \/ (p = NULL
            /\ exists evs0 a s n,
                 evs = evs0 ++ [BlockRead id (Ram a) s n; PutI 0x03]
                 /\ filter is_diag evs0 = []
                 /\ status dev (log st ++ evs0) id s n <> 0)).
Proof.
  intros Hrun. unfold load_from_cluster in Hrun.
  destruct (batch_loop_outcome fuel _ _ _ _ _ _ _ _ _ Hrun)
    as (evs & Hlog & _ & _ & Hcases).
  exists evs. split; assumption.
Qed.

End AnyDevice.

(** ** When the loader returns *)

Section Returns.

Variable id : Z.
Variable g : machine.
Hypothesis device_ok : reliable dev.

(** A run that returns has met a successor that stops it, within as
    many steps as it had fuel. *)
Lemma batch_loop_returns_stops fuel :
  forall sector cached c ds nm addr st r,
    same_geometry g st ->
    (fat_sector_of g c = cached -> sector = blocks dev id cached) ->
    batch_loop dev fuel id sector cached c ds nm addr st = Some r ->
    exists k, (1 <= k <= fuel)%nat
              /\ stops (chain_at dev id g (k - 1) c) (chain_at dev id g k c) = true.
Proof.
  induction fuel as [|fuel IH];
    intros sector cached c ds nm addr st r Hg Hco Hrun; [discriminate Hrun|].
  rewrite (batch_loop_step id g device_ok fuel sector cached c ds nm addr st Hg Hco)
    in Hrun.
  cbv zeta in Hrun.
  pose proof (same_geometry_after_fat_read id g cached c st Hg) as Hg1.
  destruct (stops c (fat_next dev id g c)) eqn:Hstop.
  - exists 1%nat. split; [lia|]. exact Hstop.
  - assert (Hrec : exists sector' cached' ds' nm' addr' st1,
               same_geometry g st1
               /\ (fat_sector_of g (fat_next dev id g c) = cached' ->
                   sector' = blocks dev id cached')
               /\ batch_loop dev fuel id sector' cached' (fat_next dev id g c)
                    ds' nm' addr' st1 = Some r).
    { destruct (fat_next dev id g c =? add32 c 1) eqn:Hn.
      - do 6 eexists. split; [exact Hg1|]. split; [|exact Hrun].
        intros _. reflexivity.
      - rewrite (stops_false_not_next _ _ Hstop Hn) in Hrun.
        destruct (mmc_block_read_ok id g device_ok addr ds nm
                    (if fat_sector_of g c =? cached then st
                     else emit (BlockRead id Local (fat_sector_of g c) 1) st))
          as (st2 & Hrd & _ & Hg2).
        rewrite Hrd in Hrun. cbn [snd] in Hrun.
        do 6 eexists. split; [exact (Hg2 Hg1)|]. split; [|exact Hrun].
        intros _. reflexivity. }
    destruct Hrec as (sector' & cached' & ds' & nm' & addr' & st1 & Hg' & Hco' & Hrun').
    destruct (IH _ _ _ _ _ _ _ _ Hg' Hco' Hrun') as (k & Hk & Hs).
    exists (S k). split; [lia|].
    replace (S k - 1)%nat with (S (k - 1)) by lia.
    rewrite !chain_at_next. exact Hs.
Qed.

End Returns.

(** X6. On a reliable device, from a start cluster whose FAT sector is
    not 0xFFFFFFFF, [load_from_cluster] returns within [fuel] FAT lookups
    exactly when one of the first [fuel] successors of the start cluster
    is a chain-end value other than its predecessor plus one.  There is
    no other way out: a FAT whose chain never produces such a value (a
    cycle, say) keeps the loader running for ever. *)
Theorem load_from_cluster_returns_iff
    (id : Z) (st : machine) (c ld_addr : Z) (fuel : nat) :
  reliable dev ->
  fat_sector_of st c <> NO_SECTOR ->
  (exists r, load_from_cluster dev junk fuel id c ld_addr st = Some r)
  <-> (exists k, (1 <= k <= fuel)%nat
                 /\ chain_end (chain_at dev id st k c) = true
                 /\ chain_at dev id st k c
                    <> add32 (chain_at dev id st (k - 1) c) 1).
Proof.
  intros Hrel Hmiss. split.
  - intros (r & Hrun). unfold load_from_cluster in Hrun.
    destruct (batch_loop_returns_stops id st Hrel fuel _ _ _ _ _ _ _ _
                (same_geometry_refl st) (fun H => False_ind _ (Hmiss H)) Hrun)
      as (k & Hk & Hs).
    exists k. split; [exact Hk|].
    destruct (stops_true _ _ Hs) as [Hn He]. split; [exact He|].
    apply Z.eqb_neq. exact Hn.
  - intros (k & Hk & He & Hn).
    assert (Hs : stops (chain_at dev id st (k - 1) c) (chain_at dev id st k c) = true).
    { unfold stops. rewrite He. apply Z.eqb_neq in Hn. rewrite Hn. reflexivity. }
    destruct (stops_within id st fuel c k Hk Hs) as (l & t & Hw & Hlen).
    destruct (load_from_cluster_walked id st c l t ld_addr fuel Hrel Hmiss Hw Hlen)
      as (st' & Hrun & _).
    eexists. exact Hrun.
Qed.
(** ** The FAT sectors read and the bytes loaded *)

Section Loaded.

Variable id : Z.
Variable g : machine.

Lemma local_reads_app l1 l2 :
  local_reads (l1 ++ l2) = local_reads l1 ++ local_reads l2.
Proof.
  induction l1 as [|e l1 IH]; [reflexivity|].
  destruct e as [i [|a] s n| |]; cbn [local_reads app]; rewrite IH; reflexivity.
Qed.

(** The FAT-sector reads among the requests are the misses of the
    one-sector cache on the FAT sectors of the chain. *)
Lemma local_reads_requests_misses l :
  forall cached ds nm addr c,
    local_reads (requests id g cached ds nm addr c l)
    = misses cached (map (fat_sector_of g) (c :: l)).
Proof.
  induction l as [|c' l' IH]; intros cached ds nm addr c;
    cbn [requests]; rewrite local_reads_app; unfold fat_read;
    cbn [map misses].
  - destruct (fat_sector_of g c =? cached); reflexivity.
  - assert (Hrest : forall ds' nm' addr',
               local_reads (requests id g (fat_sector_of g c) ds' nm' addr' c' l')
               = misses (fat_sector_of g c) (fat_sector_of g c' :: map (fat_sector_of g) l')).
    { intros ds' nm' addr'. rewrite IH. reflexivity. }
    destruct (c' =? add32 c 1); cbn [local_reads]; rewrite Hrest;
      destruct (fat_sector_of g c =? cached); reflexivity.
Qed.

Lemma u32_mul_congr b x y : u32 x = u32 y -> u32 (b * x) = u32 (b * y).
Proof.
  intros Hxy. unfold u32 in *.
  rewrite <- (Zmult_mod_idemp_r x), <- (Zmult_mod_idemp_r y), Hxy. reflexivity.
Qed.

(** The sectors read for a chain are its clusters times the cluster
    size, modulo 2^32 once multiplied by the block size. *)
Lemma total_sectors_requests l :
  forall cached ds nm addr c,
    u32 (FAT_BLOCK_SIZE * total_sectors (requests id g cached ds nm addr c l))
    = u32 (FAT_BLOCK_SIZE * (nm + Z.of_nat (List.length l) * cluster_size g)).
Proof.
  induction l as [|c' l' IH]; intros cached ds nm addr c;
    cbn [requests]; rewrite total_sectors_app, total_sectors_fat_read, Z.add_0_l.
  - unfold total_sectors. cbn [data_reads fold_right snd List.length Z.of_nat].
    rewrite Z.mul_0_l. reflexivity.
  - destruct (c' =? add32 c 1).
    + rewrite IH. apply u32_mul_congr. unfold add32. rewrite u32_add_l.
      f_equal. cbn [List.length]. lia.
    + change (BlockRead id (Ram addr) ds nm :: ?r)
        with ([BlockRead id (Ram addr) ds nm] ++ r).
      rewrite total_sectors_app.
      change (total_sectors [BlockRead id (Ram addr) ds nm]) with (nm + 0).
      rewrite Z.add_0_r, Z.mul_add_distr_l.
      rewrite <- u32_add_r, IH, u32_add_r, <- Z.mul_add_distr_l.
      apply u32_mul_congr.
      replace (nm + (u32 (cluster_size g) + Z.of_nat (List.length l') * cluster_size g))
        with (nm + Z.of_nat (List.length l') * cluster_size g + u32 (cluster_size g))
        by lia.
      rewrite u32_add_r. f_equal. cbn [List.length]. lia.
Qed.

End Loaded.

(** X7. On a reliable device, for a chain as in C2, the FAT-sector reads
    of a [load_from_cluster] call are, in order, the FAT sectors of the
    chain's clusters with each sector left out when it is the one looked
    up just before: the one-sector cache saves exactly the lookups that
    stay in the sector of the previous lookup, and a sector left and come
    back to is read again. *)
Theorem load_from_cluster_fat_reads
    (id : Z) (st : machine) (c : Z) (l : list Z) (t : Z) (ld_addr : Z)
    (fuel : nat) :
  reliable dev ->
  fat_sector_of st c <> NO_SECTOR ->
  follows dev id st c l t ->
  Forall (fun c' => chain_end c' = false) l ->
  chain_end t = true ->
  t <> add32 (last l c) 1 ->
  (List.length l < fuel)%nat ->
  exists p st' evs,
    load_from_cluster dev junk fuel id c ld_addr st = Some (p, st')
    /\ log st' = log st ++ evs
    /\ local_reads evs = misses NO_SECTOR (map (fat_sector_of st) (c :: l)).
Proof.
  intros Hrel Hmiss Hf Hl Ht Hlast Hfuel.
  pose proof (follows_walked id st l c t Hf Hl Ht Hlast) as Hw.
  destruct (load_from_cluster_walked id st c l t ld_addr fuel Hrel Hmiss Hw Hfuel)
    as (st' & Hrun & Hlog & _).
  eexists _, st', _. split; [exact Hrun|]. split; [exact Hlog|].
  apply local_reads_requests_misses.
Qed.

(** X8. On a reliable device, for a chain as in C2 of [n] clusters, the
    pointer [load_from_cluster] returns is the destination plus
    [n * cluster_size * FAT_BLOCK_SIZE], modulo 2^32, however the chain
    splits into batches. *)
Theorem load_from_cluster_advance
    (id : Z) (st : machine) (c : Z) (l : list Z) (t : Z) (ld_addr : Z)
    (fuel : nat) :
  reliable dev ->
  fat_sector_of st c <> NO_SECTOR ->
  follows dev id st c l t ->
  Forall (fun c' => chain_end c' = false) l ->
  chain_end t = true ->
  t <> add32 (last l c) 1 ->
  (List.length l < fuel)%nat ->
  exists st',
    load_from_cluster dev junk fuel id c ld_addr st
    = Some (u32 (ld_addr + Z.of_nat (List.length (c :: l)) * cluster_size st
                            * FAT_BLOCK_SIZE), st').
Proof.
  intros Hrel Hmiss Hf Hl Ht Hlast Hfuel.
  pose proof (follows_walked id st l c t Hf Hl Ht Hlast) as Hw.
  destruct (load_from_cluster_walked id st c l t ld_addr fuel Hrel Hmiss Hw Hfuel)
    as (st' & Hrun & _).
  exists st'. rewrite Hrun. f_equal. f_equal.
  rewrite <- (u32_add_r ld_addr (FAT_BLOCK_SIZE * _)), total_sectors_requests.
  rewrite <- (u32_add_r ld_addr (Z.of_nat _ * _ * _)).
  f_equal. f_equal.
  replace (Z.of_nat (List.length (c :: l)) * cluster_size st * FAT_BLOCK_SIZE)
    with (FAT_BLOCK_SIZE * (Z.of_nat (List.length (c :: l)) * cluster_size st))
    by lia.
  apply u32_mul_congr.
  replace (u32 (cluster_size st) + Z.of_nat (List.length l) * cluster_size st)
    with (Z.of_nat (List.length l) * cluster_size st + u32 (cluster_size st)) by lia.
  rewrite u32_add_r. f_equal. cbn [List.length]. lia.
Qed.
(** ** The bytes in RAM after a load *)

Section Copy.

Variable id : Z.
Variable g : machine.
Hypothesis device_ok : reliable dev.
Hypothesis block_size_pos : 0 < FAT_BLOCK_SIZE.
Hypothesis cluster_size_pos : 0 <= cluster_size g.

Lemma u32_back addr k : u32 (u32 (addr + k) - addr) = u32 k.
Proof.
  unfold u32. rewrite Zminus_mod_idemp_l. f_equal. lia.
Qed.

Lemma ram_after_read dst src num st a :
  ram (snd (mmc_block_read dev id dst src num st)) a
  = if u32 (a - dst) <? num * FAT_BLOCK_SIZE
    then blocks dev id src (u32 (a - dst))
    else ram st a.
Proof.
  unfold mmc_block_read. rewrite device_ok. reflexivity.
Qed.

(** A read of [num] sectors puts byte [k] of them at [dst + k]. *)
Lemma read_lands dst src num st k :
  0 <= k < num * FAT_BLOCK_SIZE ->
  num * FAT_BLOCK_SIZE <= 2 ^ 32 ->
  ram (snd (mmc_block_read dev id dst src num st)) (u32 (dst + k))
  = blocks dev id src k.
Proof.
  intros Hk Hfit. rewrite ram_after_read, u32_back.
  rewrite (u32_small k) by lia.
  destruct (Z.ltb_spec k (num * FAT_BLOCK_SIZE)); [reflexivity | lia].
Qed.

(** And leaves the addresses past them alone. *)
Lemma read_spares dst src num st a :
  num * FAT_BLOCK_SIZE <= u32 (a - dst) ->
  ram (snd (mmc_block_read dev id dst src num st)) a = ram st a.
Proof.
  intros Hout. rewrite ram_after_read.
  destruct (Z.ltb_spec (u32 (a - dst)) (num * FAT_BLOCK_SIZE)); [lia | reflexivity].
Qed.

Lemma blocks_at src s o :
  0 <= o < FAT_BLOCK_SIZE ->
  blocks dev id src (s * FAT_BLOCK_SIZE + o) = disk dev id (u32 (src + s)) o.
Proof.
  intros Ho. unfold blocks.
  rewrite (Z.add_comm (s * FAT_BLOCK_SIZE) o).
  rewrite Z.div_add by lia. rewrite Z.mod_add by lia.
  rewrite Z.div_small, Z.mod_small by lia.
  reflexivity.
Qed.

Lemma data_sector_next c :
  data_sector_of g (add32 c 1) = u32 (data_sector_of g c + cluster_size g).
Proof.
  rewrite !data_sector_of_eq. rewrite u32_add_l. unfold add32.
  destruct (u32_decomp (c + 1)) as (q & ->).
  replace (lba_data g + (c + 1 - q * 2 ^ 32 - 2) * cluster_size g)
    with (lba_data g + (c - 2) * cluster_size g + cluster_size g
          + (- q * cluster_size g) * 2 ^ 32) by ring.
  unfold u32. apply Z_mod_plus_full.
Qed.

(** The sector of cluster [c] at [tt] sectors into it, within a batch
    that starts at [ds] and has [c] as the last cluster of its [nm]
    sectors. *)
Lemma batch_sector ds nm c tt :
  u32 (ds + (nm - cluster_size g)) = data_sector_of g c ->
  u32 (ds + (nm - cluster_size g + tt))
  = u32 (lba_data g + (c - 2) * cluster_size g + tt).
Proof.
  intros Hinv.
  replace (ds + (nm - cluster_size g + tt))
    with (ds + (nm - cluster_size g) + tt) by lia.
  rewrite <- u32_add_l, Hinv, data_sector_of_eq, u32_add_l. reflexivity.
Qed.

Lemma ram_after_fat_read cached c st :
  ram (if fat_sector_of g c =? cached then st
       else emit (BlockRead id Local (fat_sector_of g c) 1) st) = ram st.
Proof. destruct (_ =? _); reflexivity. Qed.

(** The loops on a walked chain whose bytes fit below 2^32: where each
    cluster's bytes are afterwards, where the bytes of the batch in hand
    before [c] are, and what is left alone. *)
Lemma batch_loop_ram l :
  forall c t sector cached ds nm addr st fuel,
    same_geometry g st ->
    (fat_sector_of g c = cached -> sector = blocks dev id cached) ->
    walked dev id g c l t ->
    (List.length l < fuel)%nat ->
    cluster_size g <= nm ->
    (nm + Z.of_nat (List.length l) * cluster_size g) * FAT_BLOCK_SIZE < 2 ^ 32 ->
    u32 (ds + (nm - cluster_size g)) = data_sector_of g c ->
    exists p st',
      batch_loop dev fuel id sector cached c ds nm addr st = Some (p, st')
      /\ p = u32 (addr + (nm + Z.of_nat (List.length l) * cluster_size g)
                         * FAT_BLOCK_SIZE)
      /\ (forall j tt o,
             (j <= List.length l)%nat ->
             0 <= tt < cluster_size g ->
             0 <= o < FAT_BLOCK_SIZE ->
             ram st' (u32 (addr + ((nm - cluster_size g
                                    + Z.of_nat j * cluster_size g + tt)
                                   * FAT_BLOCK_SIZE + o)))
             = disk dev id (u32 (lba_data g + (nth j (c :: l) 0 - 2) * cluster_size g
                                 + tt)) o)
      /\ (forall k,
             0 <= k < (nm - cluster_size g) * FAT_BLOCK_SIZE ->
             ram st' (u32 (addr + k)) = blocks dev id ds k)
      /\ (forall a,
             (nm + Z.of_nat (List.length l) * cluster_size g) * FAT_BLOCK_SIZE
             <= u32 (a - addr) ->
             ram st' a = ram st a).
Proof.
  induction l as [|c' l' IH];
    intros c t sector cached ds nm addr st fuel Hg Hco Hw Hfuel Hnm Hfit Hinv;
    (destruct fuel as [|fuel]; [cbn in Hfuel; lia|]);
    rewrite (batch_loop_step id g device_ok fuel sector cached c ds nm addr st Hg Hco);
    cbv zeta;
    pose proof (same_geometry_after_fat_read id g cached c st Hg) as Hg1;
    pose proof (ram_after_fat_read cached c st) as Hram1;
    set (st1 := if fat_sector_of g c =? cached then st
                else emit (BlockRead id Local (fat_sector_of g c) 1) st) in *;
    destruct (mmc_block_read_ok id g device_ok addr ds nm st1)
      as (st2 & Hrd & _ & Hg2);
    specialize (Hg2 Hg1);
    assert (Hst2 : st2 = snd (mmc_block_read dev id addr ds nm st1))
      by (rewrite Hrd; reflexivity).
  - destruct Hw as [Hnext Hstop]. rewrite Hnext.
    destruct (stops_true _ _ Hstop) as [Hn He]. rewrite Hn, He.
    cbn [List.length Z.of_nat] in *. rewrite <- Hst2.
    eexists _, st2. split; [reflexivity|].
    split; [unfold mul32; rewrite u32_add_r; f_equal; lia|]. split; [|split].
    + intros j tt o Hj Htt Ho. replace j with 0%nat by lia.
      cbn [nth Z.of_nat]. rewrite Hst2.
      rewrite read_lands by nia.
      replace (nm - cluster_size g + 0 * cluster_size g + tt)
        with (nm - cluster_size g + tt) by lia.
      rewrite blocks_at by exact Ho.
      rewrite (batch_sector ds nm c tt Hinv). reflexivity.
    + intros k Hk. rewrite Hst2. apply read_lands; nia.
    + intros a Ha. rewrite Hst2, read_spares by lia. rewrite Hram1; reflexivity.
  - destruct Hw as (Hnext & Hstop & Hw). rewrite Hnext.
    cbn [List.length] in Hfuel, Hfit |- *.
    rewrite Nat2Z.inj_succ in Hfit.
    assert (Hf : (List.length l' < fuel)%nat) by lia.
    assert (Hlen : 0 <= Z.of_nat (List.length l')) by lia.
    destruct (c' =? add32 c 1) eqn:Hn.
    + apply Z.eqb_eq in Hn.
      assert (Hadd : add32 nm (cluster_size g) = nm + cluster_size g).
      { unfold add32. apply u32_small. nia. }
      rewrite Hadd.
      destruct (IH c' t (blocks dev id (fat_sector_of g c)) (fat_sector_of g c)
                  ds (nm + cluster_size g) addr st1 fuel Hg1 (fun _ => eq_refl)
                  Hw Hf ltac:(lia) ltac:(nia))
        as (p & st' & Hrun & Hp & Hi & Hii & Hiii).
      { replace (nm + cluster_size g - cluster_size g) with nm by lia.
        rewrite Hn, data_sector_next, <- Hinv, u32_add_l. f_equal. lia. }
      exists p, st'. split; [exact Hrun|].
      split; [rewrite Hp; f_equal; lia|]. split; [|split].
      * intros j tt o Hj Htt Ho. destruct j as [|j].
        -- cbn [nth Z.of_nat].
           replace (nm - cluster_size g + 0 * cluster_size g + tt)
             with (nm - cluster_size g + tt) by lia.
           rewrite Hii by nia.
           rewrite blocks_at by exact Ho.
           rewrite (batch_sector ds nm c tt Hinv). reflexivity.
        -- change (nth (S j) (c :: c' :: l') 0) with (nth j (c' :: l') 0).
           rewrite <- (Hi j tt o ltac:(lia) Htt Ho).
           f_equal. f_equal. rewrite Nat2Z.inj_succ. lia.
      * intros k Hk. apply Hii. nia.
      * intros a Ha. rewrite Hiii by nia. rewrite Hram1; reflexivity.
    + rewrite (stops_false_not_next _ _ Hstop Hn). rewrite <- Hst2.
      assert (Hmul : mul32 nm FAT_BLOCK_SIZE = nm * FAT_BLOCK_SIZE).
      { unfold mul32. apply u32_small. nia. }
      assert (Hcs : u32 (cluster_size g) = cluster_size g).
      { apply u32_small. nia. }
      rewrite Hcs.
      destruct (IH c' t (blocks dev id (fat_sector_of g c)) (fat_sector_of g c)
                  (data_sector_of g c') (cluster_size g)
                  (u32 (addr + mul32 nm FAT_BLOCK_SIZE)) st2 fuel Hg2
                  (fun _ => eq_refl) Hw Hf ltac:(lia) ltac:(nia))
        as (p & st' & Hrun & Hp & Hi & Hii & Hiii).
      { replace (cluster_size g - cluster_size g) with 0 by lia.
        rewrite Z.add_0_r. rewrite data_sector_of_eq. apply u32_idem. }
      assert (Hp' : p = u32 (addr + (nm + Z.succ (Z.of_nat (List.length l'))
                                          * cluster_size g) * FAT_BLOCK_SIZE)).
      { rewrite Hp, Hmul, u32_add_l. f_equal. lia. }
      assert (Hkeep : forall k, 0 <= k < nm * FAT_BLOCK_SIZE ->
                 ram st' (u32 (addr + k)) = blocks dev id ds k).
      { intros k Hk. rewrite Hiii.
        - rewrite Hst2. apply read_lands; nia.
        - rewrite Hmul.
          assert (Hd : u32 (u32 (addr + k) - u32 (addr + nm * FAT_BLOCK_SIZE))
                       = 2 ^ 32 + k - nm * FAT_BLOCK_SIZE).
          { apply u32_unique; [nia|].
            destruct (u32_decomp (addr + k)) as (q1 & ->).
            destruct (u32_decomp (addr + nm * FAT_BLOCK_SIZE)) as (q2 & ->).
            exists (q2 - q1 - 1). lia. }
          rewrite Hd. nia. }
      exists p, st'. split; [exact Hrun|].
      split; [rewrite Hp'; f_equal; lia|]. split; [|split].
      * intros j tt o Hj Htt Ho. destruct j as [|j].
        -- cbn [nth Z.of_nat].
           replace ((nm - cluster_size g + 0 * cluster_size g + tt) * FAT_BLOCK_SIZE + o)
             with ((nm - cluster_size g + tt) * FAT_BLOCK_SIZE + o) by lia.
           rewrite Hkeep by nia.
           rewrite blocks_at by exact Ho.
           rewrite (batch_sector ds nm c tt Hinv). reflexivity.
        -- change (nth (S j) (c :: c' :: l') 0) with (nth j (c' :: l') 0).
           rewrite <- (Hi j tt o ltac:(lia) Htt Ho).
           f_equal. rewrite Hmul, u32_add_l. f_equal.
           rewrite Nat2Z.inj_succ. lia.
      * intros k Hk. apply Hkeep. nia.
      * intros a Ha. rewrite Nat2Z.inj_succ in Ha.
        assert (Hpast : nm * FAT_BLOCK_SIZE <= u32 (a - addr)) by nia.
        assert (Hnn : 0 <= nm * FAT_BLOCK_SIZE) by nia.
        rewrite Hiii.
        -- rewrite Hst2, read_spares by lia. rewrite Hram1; reflexivity.
        -- rewrite Hmul.
           assert (Hd : u32 (a - u32 (addr + nm * FAT_BLOCK_SIZE))
                        = u32 (a - addr) - nm * FAT_BLOCK_SIZE).
           { pose proof (u32_range (a - addr)) as Hr.
             apply u32_unique; [lia|].
             destruct (u32_decomp (a - addr)) as (q1 & ->).
             destruct (u32_decomp (addr + nm * FAT_BLOCK_SIZE)) as (q2 & ->).
             exists (q1 + q2). lia. }
           rewrite Hd. nia.
Qed.

End Copy.

(** X9. On a reliable device with a positive block size, for a chain as
    in C2 of [n] clusters whose [n * cluster_size * FAT_BLOCK_SIZE] bytes
    fit below 2^32: after [load_from_cluster], the bytes of the [j]-th
    cluster of the chain are in RAM at the destination plus
    [j * cluster_size * FAT_BLOCK_SIZE], in the order of the chain
    whatever the batches were (byte [o] of sector [tt] of that cluster is
    byte [o] of device sector [lba_data + (cluster - 2) * cluster_size
    + tt]), and RAM outside these bytes is as it was before. *)
Theorem load_from_cluster_copies_chain
    (id : Z) (st : machine) (c : Z) (l : list Z) (t : Z) (ld_addr : Z)
    (fuel : nat) :
  reliable dev ->
  fat_sector_of st c <> NO_SECTOR ->
  follows dev id st c l t ->
  Forall (fun c' => chain_end c' = false) l ->
  chain_end t = true ->
  t <> add32 (last l c) 1 ->
  (List.length l < fuel)%nat ->
  0 < FAT_BLOCK_SIZE ->
  0 <= cluster_size st ->
  Z.of_nat (List.length (c :: l)) * cluster_size st * FAT_BLOCK_SIZE < 2 ^ 32 ->
  exists p st',
    load_from_cluster dev junk fuel id c ld_addr st = Some (p, st')
    /\ (forall j tt o,
           (j < List.length (c :: l))%nat ->
           0 <= tt < cluster_size st ->
           0 <= o < FAT_BLOCK_SIZE ->
           ram st' (u32 (ld_addr + ((Z.of_nat j * cluster_size st + tt)
                                    * FAT_BLOCK_SIZE + o)))
           = disk dev id (u32 (lba_data st + (nth j (c :: l) 0 - 2) * cluster_size st
                               + tt)) o)
    /\ (forall a,
           Z.of_nat (List.length (c :: l)) * cluster_size st * FAT_BLOCK_SIZE
           <= u32 (a - ld_addr) ->
           ram st' a = ram st a).
Proof.
  intros Hrel Hmiss Hf Hl Ht Hlast Hfuel Hb Hcs Hfit.
  pose proof (follows_walked id st l c t Hf Hl Ht Hlast) as Hw.
  cbn [List.length] in Hfit |- *. rewrite Nat2Z.inj_succ in Hfit |- *.
  assert (Hlen : 0 <= Z.of_nat (List.length l)) by lia.
  assert (Hsmall : u32 (cluster_size st) = cluster_size st)
    by (apply u32_small; nia).
  unfold load_from_cluster. rewrite Hsmall.
  destruct (batch_loop_ram id st Hrel Hb Hcs l c t junk NO_SECTOR
              (data_sector_of st c) (cluster_size st) ld_addr st fuel
              (same_geometry_refl st) (fun H => False_ind _ (Hmiss H)) Hw Hfuel
              (Z.le_refl _) ltac:(nia))
    as (p & st' & Hrun & _ & Hi & _ & Hiii).
  { rewrite Z.sub_diag, Z.add_0_r, data_sector_of_eq. apply u32_idem. }
  exists p, st'. split; [exact Hrun|]. split.
  - intros j tt o Hj Htt Ho.
    rewrite <- (Hi j tt o ltac:(lia) Htt Ho). f_equal. f_equal. lia.
  - intros a Ha. apply Hiii. nia.
Qed.
(** ** Failures before the directory is loaded *)

(** X1. [get_first_partition] reports why it fails and checks in a fixed
    order: a failed read gives code 0x00; a read sector without the
    signature 0xAA55 gives code 0x01 whatever its partition entry holds;
    only with the signature in place does a status byte other than 0x00
    and 0x80 give code 0x02.  In each case it returns -1, leaves [*lba]
    as it was, and changes nothing but the log. *)
Theorem get_first_partition_reports (id lba : Z) (st : machine) :
  (status dev (log st) id 0 1 <> 0 ->
   get_first_partition dev junk id lba st
   = (-1, lba, SERIAL_PUTI 0x00 (emit (BlockRead id Local 0 1) st)))
  /\ (status dev (log st) id 0 1 = 0 ->
      mbr_signature (blocks dev id 0) <> 0xAA55 ->
      get_first_partition dev junk id lba st
      = (-1, lba, SERIAL_PUTI 0x01 (emit (BlockRead id Local 0 1) st)))
  /\ (status dev (log st) id 0 1 = 0 ->
      mbr_signature (blocks dev id 0) = 0xAA55 ->
      mbr_partition0_status (blocks dev id 0) <> 0x00 ->
      mbr_partition0_status (blocks dev id 0) <> 0x80 ->
      get_first_partition dev junk id lba st
      = (-1, lba, SERIAL_PUTI 0x02 (emit (BlockRead id Local 0 1) st))).
Proof.
  unfold get_first_partition. split; [|split].
  - intros Hko. rewrite (mmc_block_read_local_fail _ _ _ _ _ Hko).
    apply Z.eqb_neq in Hko. rewrite Hko. reflexivity.
  - intros Hok Hsig. rewrite (mmc_block_read_local_ok _ _ _ _ _ Hok).
    cbn [Z.eqb negb]. apply Z.eqb_neq in Hsig. rewrite Hsig. reflexivity.
  - intros Hok Hsig H0 H8. rewrite (mmc_block_read_local_ok _ _ _ _ _ Hok).
    cbn [Z.eqb negb]. apply Z.eqb_eq in Hsig. rewrite Hsig.
    apply Z.eqb_neq in H0, H8. rewrite H0, H8. reflexivity.
Qed.

(** X2. When the read of the boot sector fails, [process_boot_sector]
    returns -1 with code 0x03 and the four geometry globals keep the
    values they had: only a sector that was read overwrites them. *)
Theorem process_boot_sector_read_failure (id lba : Z) (st : machine) :
  status dev (log st) id lba 1 <> 0 ->
  let r := process_boot_sector dev junk id lba st in
  fst r = -1
  /\ log (snd r) = log st ++ [BlockRead id Local lba 1; PutI 0x03]
  /\ same_geometry st (snd r)
  /\ ram (snd r) = ram st.
Proof.
  intros Hko. cbv zeta. unfold process_boot_sector.
  rewrite (mmc_block_read_local_fail _ _ _ _ _ Hko).
  apply Z.eqb_neq in Hko. rewrite Hko. cbn [negb fst snd].
  split; [reflexivity|]. split; [cbn; rewrite <- app_assoc; reflexivity|].
  split; [repeat split | reflexivity].
Qed.

(** X3. [process_boot_sector] returns 0 exactly when the boot sector is
    read and the first five bytes of its filesystem-type tag are
    "FAT32"; the rest of the tag is not looked at.  It then announces
    the filesystem on the serial line. *)
Theorem process_boot_sector_accepts_iff (id lba : Z) (st : machine) :
  (fst (process_boot_sector dev junk id lba st) = 0
   <-> status dev (log st) id lba 1 = 0
       /\ forall k, 0 <= k < 5 ->
                    vinfo_fs_type (blocks dev id lba) k = literal FAT32 k)
  /\ (fst (process_boot_sector dev junk id lba st) = 0 ->
      log (snd (process_boot_sector dev junk id lba st))
      = log st ++ [BlockRead id Local lba 1;
                   PutS ("MMC: FAT32 filesystem detected." ++ newline)]).
Proof.
  unfold process_boot_sector.
  destruct (Z.eq_dec (status dev (log st) id lba 1) 0) as [Hok|Hko].
  - rewrite (mmc_block_read_local_ok _ _ _ _ _ Hok). cbn [Z.eqb negb].
    pose proof (strncmp_zero_iff (vinfo_fs_type (blocks dev id lba))
                  (literal FAT32) 5 FAT32_no_nul) as Hcmp.
    destruct (Z.eqb_spec (strncmp (vinfo_fs_type (blocks dev id lba))
                            (literal FAT32) 5) 0) as [Hz|Hnz]; cbn [negb fst snd].
    + split.
      * split; [intros _|reflexivity]. split; [exact Hok|]. apply Hcmp, Hz.
      * intros _. cbn. rewrite <- app_assoc. reflexivity.
    + split.
      * split; [discriminate|]. intros [_ Hall]. exfalso. apply Hnz, Hcmp, Hall.
      * discriminate.
  - rewrite (mmc_block_read_local_fail _ _ _ _ _ Hko).
    apply Z.eqb_neq in Hko. rewrite Hko. cbn [negb fst snd].
    apply Z.eqb_neq in Hko. split.
    + split; [discriminate|]. intros [Hc _]. contradiction.
    + discriminate.
Qed.

(** X12. When [get_first_partition] fails, [mmc_load_kernel] returns -1
    at once, with any fuel: sector 0 is the only sector it has asked
    for, the boot sector is not read, and the geometry and RAM are as
    before. *)
Theorem mmc_load_kernel_without_partition
    (fuel : nat) (id ld_addr alt : Z) (st : machine) :
  status dev (log st) id 0 1 <> 0
  \/ mbr_signature (blocks dev id 0) <> 0xAA55
  \/ (mbr_partition0_status (blocks dev id 0) <> 0x00
      /\ mbr_partition0_status (blocks dev id 0) <> 0x80) ->
  exists code st',
    mmc_load_kernel dev junk fuel id ld_addr alt st = Some (-1, st')
    /\ log st' = log st ++ [BlockRead id Local 0 1; PutI code]
    /\ same_geometry st st'
    /\ ram st' = ram st.
Proof.
  intros Hfail.
  assert (Hgfp : exists code,
             get_first_partition dev junk id 0 st
             = (-1, 0, SERIAL_PUTI code (emit (BlockRead id Local 0 1) st))).
  { unfold get_first_partition.
    destruct (Z.eq_dec (status dev (log st) id 0 1) 0) as [Hok|Hko].
    - rewrite (mmc_block_read_local_ok _ _ _ _ _ Hok). cbn [Z.eqb negb].
      destruct (Z.eqb_spec (mbr_signature (blocks dev id 0)) 0xAA55) as [Hs|Hs];
        cbn [negb]; [|exists 0x01; reflexivity].
      destruct Hfail as [Hc|[Hc|[H0 H8]]]; try contradiction.
      apply Z.eqb_neq in H0, H8. rewrite H0, H8. cbn [negb andb].
      exists 0x02. reflexivity.
    - rewrite (mmc_block_read_local_fail _ _ _ _ _ Hko).
      apply Z.eqb_neq in Hko. rewrite Hko. cbn [negb].
      exists 0x00. reflexivity. }
  destruct Hgfp as (code & Hgfp).
  exists code, (SERIAL_PUTI code (emit (BlockRead id Local 0 1) st)).
  unfold mmc_load_kernel. rewrite Hgfp. cbn [Z.eqb negb].
  split; [reflexivity|]. split; [cbn; rewrite <- app_assoc; reflexivity|].
  split; [repeat split | reflexivity].
Qed.

(** X13. When the first partition is found but its boot sector cannot
    be read or does not carry the "FAT32" tag, [mmc_load_kernel] returns
    -1 after exactly two block reads (sector 0 and the partition's first
    sector) and the code 0x03 or 0x05: no FAT sector and no data is read,
    and RAM is as before. *)
Theorem mmc_load_kernel_without_fat32
    (fuel : nat) (id ld_addr alt : Z) (st : machine) :
  status dev (log st) id 0 1 = 0 ->
  mbr_signature (blocks dev id 0) = 0xAA55 ->
  mbr_partition0_status (blocks dev id 0) = 0x00
    \/ mbr_partition0_status (blocks dev id 0) = 0x80 ->
  let lba := mbr_partition0_lba (blocks dev id 0) in
  status dev (log st ++ [BlockRead id Local 0 1]) id lba 1 <> 0
  \/ (exists k, 0 <= k < 5
                /\ vinfo_fs_type (blocks dev id lba) k <> literal FAT32 k) ->
  exists code st',
    mmc_load_kernel dev junk fuel id ld_addr alt st = Some (-1, st')
    /\ log st' = log st ++ [BlockRead id Local 0 1; BlockRead id Local lba 1;
                            PutI code]
    /\ (code = 0x03 \/ code = 0x05)
    /\ ram st' = ram st.
Proof.
  intros Hok Hsig Hstat lba Hfail.
  assert (Hgfp : get_first_partition dev junk id 0 st
                 = (0, lba, emit (BlockRead id Local 0 1) st)).
  { unfold get_first_partition.
    rewrite (mmc_block_read_local_ok _ _ _ _ _ Hok). cbn [Z.eqb negb].
    apply Z.eqb_eq in Hsig. rewrite Hsig. cbn [negb].
    destruct Hstat as [Hs|Hs]; rewrite Hs; reflexivity. }
  unfold mmc_load_kernel. rewrite Hgfp. cbn [Z.eqb negb].
  set (st1 := emit (BlockRead id Local 0 1) st).
  destruct (Z.eq_dec (status dev (log st1) id lba 1) 0) as [Hok2|Hko2].
  - destruct Hfail as [Hc|Htag]; [contradiction|].
    destruct (process_boot_sector_ok_state id lba st1 Hok2) as (_ & _ & _ & _ & Hram).
    assert (Hcmp : strncmp (vinfo_fs_type (blocks dev id lba)) (literal FAT32) 5 <> 0).
    { destruct Htag as (k & Hk & Hdiff). intros Hz. apply Hdiff.
      exact (proj1 (strncmp_zero_iff _ _ 5 FAT32_no_nul) Hz k Hk). }
    apply Z.eqb_neq in Hcmp.
    cbv zeta in Hram. unfold process_boot_sector in Hram |- *.
    rewrite (mmc_block_read_local_ok _ _ _ _ _ Hok2) in Hram |- *.
    cbn [Z.eqb negb] in Hram |- *. rewrite Hcmp in Hram |- *.
    cbn [negb snd] in Hram |- *.
    eexists 0x05, _. split; [reflexivity|].
    split; [cbn; rewrite <- !app_assoc; reflexivity|].
    split; [right; reflexivity | exact Hram].
  - unfold process_boot_sector.
    rewrite (mmc_block_read_local_fail _ _ _ _ _ Hko2).
    apply Z.eqb_neq in Hko2. rewrite Hko2. cbn [negb].
    eexists 0x03, _. split; [reflexivity|].
    split; [cbn; rewrite <- !app_assoc; reflexivity|].
    split; [left; reflexivity | reflexivity].
Qed.
(** ** The passes of the loop together *)

(** X14. When the first pass has loaded the root directory (at a
    destination other than [NULL]) and has not found its candidate in
    it, the second pass reads no directory again: what is left of the
    loop is the search and load of the other candidate in the directory
    already in RAM, with the error flag unchanged. *)
Theorem second_pass_reuses_directory
    (fuel : nat) (id ld_addr alt : Z) (s : search) (st : machine)
    (e : Z) (st1 : machine) :
  dir_start s = NULL ->
  ld_addr <> NULL ->
  load_from_cluster dev junk fuel id (root_cluster st) ld_addr st = Some (e, st1) ->
  e <> NULL ->
  find_file fuel (ram st1) ld_addr e (literal (bootfile (candidate alt 0)))
    = Some NULL ->
  passes dev junk 2 fuel id ld_addr alt 0 s st
  = load_candidate dev junk fuel id ld_addr alt 1
      {| dir_start := ld_addr; dir_end := e; err := err s |} st1.
Proof.
  intros Hs Hld Hroot He Hfind.
  cbn [passes]. unfold pass at 1. unfold load_root. rewrite Hs, Z.eqb_refl, Hroot.
  apply Z.eqb_neq in He. rewrite He.
  unfold load_candidate at 1. cbn [dir_start dir_end]. rewrite Hfind, Z.eqb_refl.
  change (0 + 1) with 1.
  unfold pass, load_root. cbn [dir_start].
  apply Z.eqb_neq in Hld. rewrite Hld.
  destruct (load_candidate dev junk fuel id ld_addr alt 1
              {| dir_start := ld_addr; dir_end := e; err := err s |} st1)
    as [[[v|s'] st']|]; reflexivity.
Qed.

(** X15. End to end, on a reliable device: when the card mounts, the
    root directory loads, the candidate of the first pass is found in it
    and its cluster chain (as in C2) fits between the destination and
    2^32, [mmc_load_kernel] returns the code of that candidate (0 for
    the regular kernel, 1 for the alternate one) and RAM holds, from the
    destination on, the clusters of the file in the order of its chain. *)
Theorem mmc_load_kernel_boots_first_candidate
    (fuel : nat) (id ld_addr alt : Z) (st : machine)
    (lba : Z) (st1 st2 : machine) (e : Z) (st3 : machine)
    (entry : Z) (l : list Z) (t : Z) :
  reliable dev ->
  get_first_partition dev junk id 0 st = (0, lba, st1) ->
  process_boot_sector dev junk id lba st1 = (0, st2) ->
  load_from_cluster dev junk fuel id (root_cluster st2) ld_addr st2 = Some (e, st3) ->
  e <> NULL ->
  find_file fuel (ram st3) ld_addr e (literal (bootfile (candidate alt 0)))
    = Some entry ->
  entry <> NULL ->
  let c := start_cluster (ram st3) entry in
  fat_sector_of st3 c <> NO_SECTOR ->
  follows dev id st3 c l t ->
  Forall (fun c' => chain_end c' = false) l ->
  chain_end t = true ->
  t <> add32 (last l c) 1 ->
  (List.length l < fuel)%nat ->
  0 < FAT_BLOCK_SIZE ->
  0 <= cluster_size st3 ->
  0 < ld_addr ->
  ld_addr + Z.of_nat (List.length (c :: l)) * cluster_size st3 * FAT_BLOCK_SIZE
    < 2 ^ 32 ->
  exists st',
    mmc_load_kernel dev junk fuel id ld_addr alt st
      = Some (code_of (candidate alt 0), st')
    /\ forall j tt o,
         (j < List.length (c :: l))%nat ->
         0 <= tt < cluster_size st3 ->
         0 <= o < FAT_BLOCK_SIZE ->
         ram st' (ld_addr + ((Z.of_nat j * cluster_size st3 + tt)
                             * FAT_BLOCK_SIZE + o))
         = disk dev id (u32 (lba_data st3 + (nth j (c :: l) 0 - 2) * cluster_size st3
                             + tt)) o.
Proof.
  intros Hrel Hgfp Hpbs Hroot He Hfind Hentry c Hmiss Hf Hl Ht Hlast Hfuel
    Hb Hcs Hld Hfit.
  assert (Hn : 0 <= Z.of_nat (List.length (c :: l)) * cluster_size st3
                     * FAT_BLOCK_SIZE).
  { apply Z.mul_nonneg_nonneg; [|lia]. apply Z.mul_nonneg_nonneg; lia. }
  set (st4 := SERIAL_PUTS loading st3).
  pose proof (follows_walked id st4 l c t Hf Hl Ht Hlast) as Hw.
  assert (Hlen : 0 <= Z.of_nat (List.length l)) by lia.
  assert (Hsmall : u32 (cluster_size st3) = cluster_size st3).
  { apply u32_small. cbn [List.length] in Hn, Hfit.
    rewrite Nat2Z.inj_succ in Hn, Hfit. nia. }
  destruct (batch_loop_ram id st4 Hrel Hb Hcs l c t junk NO_SECTOR
              (data_sector_of st4 c) (cluster_size st3) ld_addr st4 fuel
              (same_geometry_refl st4) (fun H => False_ind _ (Hmiss H)) Hw Hfuel
              (Z.le_refl _))
    as (p & st' & Hrun & Hp & Hbytes & _).
  { cbn [List.length] in Hfit. rewrite Nat2Z.inj_succ in Hfit.
    change (cluster_size st4) with (cluster_size st3). nia. }
  { change (cluster_size st4) with (cluster_size st3).
    rewrite Z.sub_diag, Z.add_0_r, data_sector_of_eq. apply u32_idem. }
  change (cluster_size st4) with (cluster_size st3) in Hp, Hbytes.
  change (lba_data st4) with (lba_data st3) in Hbytes.
  assert (Hload : load_from_cluster dev junk fuel id c ld_addr st4 = Some (p, st')).
  { unfold load_from_cluster. change (cluster_size st4) with (cluster_size st3).
    rewrite Hsmall. exact Hrun. }
  assert (Hpv : p = ld_addr + Z.of_nat (List.length (c :: l)) * cluster_size st3
                              * FAT_BLOCK_SIZE).
  { rewrite Hp. cbn [List.length]. rewrite Nat2Z.inj_succ.
    cbn [List.length] in Hn, Hfit. rewrite Nat2Z.inj_succ in Hn, Hfit.
    rewrite u32_small by nia. lia. }
  exists st'. split.
  - rewrite (mmc_load_kernel_mounted _ _ _ _ _ _ _ _ Hgfp Hpbs).
    cbn [passes]. unfold pass at 1. unfold load_root, loop_entry.
    cbn [dir_start err]. rewrite Z.eqb_refl, Hroot.
    apply Z.eqb_neq in He. rewrite He.
    rewrite (load_candidate_loaded fuel id ld_addr alt 0
               {| dir_start := ld_addr; dir_end := e; err := 0 |} st3 entry p st'
               Hfind Hentry Hload).
    assert (Hpn : (p =? NULL) = false) by (apply Z.eqb_neq; unfold NULL; lia).
    rewrite Hpn. cbn [negb].
    rewrite (report_code alt 0 (or_introl eq_refl)). reflexivity.
  - intros j tt o Hj Htt Ho.
    rewrite <- (Hbytes j tt o ltac:(cbn [List.length] in Hj; lia) Htt Ho).
    f_equal.
    replace ((cluster_size st3 - cluster_size st3 + Z.of_nat j * cluster_size st3 + tt)
             * FAT_BLOCK_SIZE + o)
      with ((Z.of_nat j * cluster_size st3 + tt) * FAT_BLOCK_SIZE + o) by lia.
    symmetry.
    apply u32_small.
    assert (Hjn : Z.of_nat j + 1 <= Z.of_nat (List.length (c :: l))) by lia.
    assert (H1 : Z.of_nat j * cluster_size st3 + tt + 1
                 <= Z.of_nat (List.length (c :: l)) * cluster_size st3) by nia.
    assert (H2 : (Z.of_nat j * cluster_size st3 + tt + 1) * FAT_BLOCK_SIZE
                 <= Z.of_nat (List.length (c :: l)) * cluster_size st3
                    * FAT_BLOCK_SIZE)
      by (apply Z.mul_le_mono_nonneg_r; lia).
    assert (H3 : 0 <= (Z.of_nat j * cluster_size st3 + tt) * FAT_BLOCK_SIZE)
      by (apply Z.mul_nonneg_nonneg; nia).
    lia.
Qed.
(** ** The flag and the start cluster *)

Lemma lnot_nonzero alt : alt <> 0 -> lnot alt = lnot 1.
Proof. intros Ha. unfold lnot. apply Z.eqb_neq in Ha. rewrite Ha. reflexivity. Qed.

Lemma load_candidate_flag fuel id ld_addr alt i s st :
  alt <> 0 ->
  load_candidate dev junk fuel id ld_addr alt i s st
  = load_candidate dev junk fuel id ld_addr 1 i s st.
Proof.
  intros Ha. unfold load_candidate, candidate.
  rewrite (lnot_nonzero alt Ha). reflexivity.
Qed.

Lemma passes_flag n :
  forall fuel id ld_addr alt i s st,
    alt <> 0 ->
    passes dev junk n fuel id ld_addr alt i s st
    = passes dev junk n fuel id ld_addr 1 i s st.
Proof.
  induction n as [|n IH]; intros fuel id ld_addr alt i s st Ha; [reflexivity|].
  cbn [passes]. unfold pass.
  destruct (load_root dev junk fuel id ld_addr s st) as [[[v|s1] st1]|];
    try reflexivity.
  rewrite (load_candidate_flag _ _ _ _ _ _ _ Ha).
  destruct (load_candidate dev junk fuel id ld_addr 1 i s1 st1)
    as [[[v|s2] st2]|]; try reflexivity.
  apply IH. exact Ha.
Qed.

(** X16. The flag of [mmc_load_kernel] is a truth value: every nonzero
    [alt] gives the run that [alt = 1] gives (same result, same state). *)
Theorem mmc_load_kernel_flag (fuel : nat) (id ld_addr alt : Z) (st : machine) :
  alt <> 0 ->
  mmc_load_kernel dev junk fuel id ld_addr alt st
  = mmc_load_kernel dev junk fuel id ld_addr 1 st.
Proof.
  intros Ha. unfold mmc_load_kernel.
  destruct (get_first_partition dev junk id 0 st) as [[e lba] st1].
  destruct (negb (e =? 0)); [reflexivity|].
  destruct (process_boot_sector dev junk id lba st1) as [e2 st2].
  destruct (negb (e2 =? 0)); [reflexivity|].
  rewrite (passes_flag 2 _ _ _ _ _ _ _ Ha). reflexivity.
Qed.

Lemma low_bits_disjoint hi lo :
  0 <= lo < 2 ^ 16 -> Z.land (Z.shiftl hi 16) lo = 0.
Proof.
  intros Hlo. apply Z.bits_inj'. intros n Hn.
  rewrite Z.land_spec, Z.bits_0.
  destruct (Z.lt_ge_cases n 16) as [Hlt|Hge].
  - rewrite Z.shiftl_spec_low by exact Hlt. reflexivity.
  - assert (Hb : Z.testbit lo n = false).
    { destruct (Z.eq_dec lo 0) as [->|Hnz]; [apply Z.testbit_0_l|].
      apply Z.bits_above_log2; [lia|].
      assert (Hl : Z.log2 lo < 16) by (apply Z.log2_lt_pow2; lia).
      lia. }
    rewrite Hb. apply andb_false_r.
Qed.

(** X17. For a directory entry whose two cluster fields are 16-bit
    values, the start cluster [mmc_load_kernel] loads from is
    [starthi * 65536 + start]: the shift and the or put the two halves
    side by side and lose no bit. *)
Theorem start_cluster_halves (m : Z -> Z) (entry : Z) :
  0 <= entry_starthi m entry < 2 ^ 16 ->
  0 <= entry_start m entry < 2 ^ 16 ->
  start_cluster m entry = entry_starthi m entry * 65536 + entry_start m entry.
Proof.
  intros Hhi Hlo. unfold start_cluster.
  pose proof (low_bits_disjoint (entry_starthi m entry) (entry_start m entry) Hlo)
    as Hdis.
  rewrite <- (Z.lxor_lor _ _ Hdis), <- (Z.add_nocarry_lxor _ _ Hdis).
  rewrite Z.shiftl_mul_pow2 by lia.
  change (2 ^ 16) with 65536 in *. apply u32_small. lia.
Qed.

End Facts.

(** * Examples and counterexamples on concrete cards *)

Section Cards.

Import Sample.

#[local] Existing Instance standard.

Lemma card_reliable img : reliable (card img).
Proof. intros h i s n. reflexivity. Qed.

(** ** The partition table and the boot sector *)

Example mbr_found :
  fst (get_first_partition (card fat32_image) zeros 0 0 power_on) = (0, 2048)
  /\ log (snd (get_first_partition (card fat32_image) zeros 0 0 power_on))
     = [BlockRead 0 Local 0 1].
Proof. vm_compute. split; reflexivity. Qed.

Lemma get_first_partition_spec_witness :
  fst (get_first_partition (card fat32_image) zeros 0 0 power_on)
  = (0, mbr_partition0_lba (blocks (card fat32_image) 0 0)).
Proof.
  apply (proj1 (proj1 (proj2 (get_first_partition_spec (card fat32_image) zeros
                                0 0 power_on)) eq_refl)).
  - vm_compute. reflexivity.
  - right. vm_compute. reflexivity.
Defined.

Lemma process_boot_sector_geometry_witness :
  let bs := blocks (card fat32_image) 0 2048 in
  let st' := snd (process_boot_sector (card fat32_image) zeros 0 2048 power_on) in
  (lba_fat1 st' = u32 (2048 + bs_reserved bs)
   /\ lba_data st' = u32 (lba_fat1 st' + u32 (bs_fat32_length bs * bs_fats bs))
   /\ root_cluster st' = u32 (bs_root_cluster bs)
   /\ cluster_size st' = u8 (bs_cluster_size bs))
  /\ (0 <= 2048 + bs_reserved bs < 2 ^ 32 ->
      lba_fat1 st' = 2048 + bs_reserved bs)
  /\ (0 <= 2048 + bs_reserved bs + bs_fat32_length bs * bs_fats bs < 2 ^ 32 ->
      lba_data st' = 2048 + bs_reserved bs + bs_fat32_length bs * bs_fats bs)
  /\ (0 <= bs_root_cluster bs < 2 ^ 32 -> root_cluster st' = bs_root_cluster bs)
  /\ (0 <= bs_cluster_size bs < 2 ^ 8 -> cluster_size st' = bs_cluster_size bs).
Proof.
  apply (process_boot_sector_geometry (card fat32_image) zeros 0 2048 power_on).
  reflexivity.
Defined.

Example boot_sector_geometry :
  let st' := snd (process_boot_sector (card fat32_image) zeros 0 2048 power_on) in
  (lba_fat1 st', lba_data st', root_cluster st', cluster_size st')
  = (2080, 2096, 2, 1).
Proof. vm_compute. reflexivity. Qed.

(** C1 as stated fails: on a card whose boot sector carries the tag
    "FAT16", [process_boot_sector] returns -1 but has overwritten the
    geometry (all zero before the call) with 2080, 2096, 2, 1. *)
Lemma process_boot_sector_keeps_geometry_counterexample :
  let st := power_on in
  let r := process_boot_sector (card fat16_image) zeros 0 2048 st in
  (exists k, 0 <= k < 5
             /\ vinfo_fs_type (blocks (card fat16_image) 0 2048) k
                <> literal FAT32 k)
  /\ fst r = -1
  /\ (lba_fat1 (snd r), lba_data (snd r), root_cluster (snd r), cluster_size (snd r))
     = (2080, 2096, 2, 1)
  /\ ~ (lba_fat1 (snd r) = lba_fat1 st /\ lba_data (snd r) = lba_data st
        /\ root_cluster (snd r) = root_cluster st
        /\ cluster_size (snd r) = cluster_size st).
Proof.
  cbv zeta. split; [|split; [|split]].
  - exists 3. split; [lia|]. vm_compute. discriminate.
  - vm_compute. reflexivity.
  - vm_compute. reflexivity.
  - intros (H1 & _). vm_compute in H1. discriminate.
Qed.

Lemma process_boot_sector_rejects_tag_witness :
  let bs := blocks (card fat16_image) 0 2048 in
  let r := process_boot_sector (card fat16_image) zeros 0 2048 power_on in
  fst r = -1
  /\ log (snd r) = log power_on ++ [BlockRead 0 Local 2048 1; PutI 0x05]
  /\ lba_fat1 (snd r) = add32 2048 (bs_reserved bs)
  /\ lba_data (snd r)
     = add32 (add32 2048 (bs_reserved bs)) (mul32 (bs_fat32_length bs) (bs_fats bs))
  /\ root_cluster (snd r) = u32 (bs_root_cluster bs)
  /\ cluster_size (snd r) = u8 (bs_cluster_size bs).
Proof.
  apply (process_boot_sector_rejects_tag (card fat16_image) zeros 0 2048 power_on).
  - reflexivity.
  - exists 3. split; [lia|]. vm_compute. discriminate.
Defined.

(** ** The cluster-chain loader *)

Example loads_regular_kernel_chain :
  outcome (load_from_cluster (card fat32_image) zeros 4 0 3 0x2000 mounted)
  = Some (0x2800, [BlockRead 0 Local 2080 1;
                   BlockRead 0 (Ram 0x2000) 2097 3;
                   BlockRead 0 (Ram 0x2600) 2104 1]).
Proof. vm_compute. reflexivity. Qed.

Lemma load_from_cluster_one_read_per_run_witness :
  exists p st' evs,
    load_from_cluster (card fat32_image) zeros 4 0 3 0x2000 mounted = Some (p, st')
    /\ log st' = log mounted ++ evs
    /\ data_reads evs
       = map (fun r => (u32 (lba_data mounted + (fst r - 2) * cluster_size mounted),
                        u32 (snd r * cluster_size mounted)))
           (runs 3 [4; 5; 10]).
Proof.
  apply (load_from_cluster_one_read_per_run (card fat32_image) zeros 0 mounted
           3 [4; 5; 10] 0x0fffffff 0x2000 4).
  - apply card_reliable.
  - vm_compute. discriminate.
  - vm_compute. repeat split; reflexivity.
  - repeat constructor.
  - reflexivity.
  - vm_compute. discriminate.
  - cbn. lia.
Defined.

(** C2 as stated fails: the chain 0x0fffffed, 0x0fffffee, 0x0fffffef is
    contiguous and followed by the chain-end value 0x0ffffff0, yet the one
    data read has 4 sectors, not 3 * cluster_size = 3: the chain-end value
    is the number after the last cluster's, and the loader takes it for a
    fourth contiguous cluster. *)
Lemma load_from_cluster_one_read_per_run_counterexample :
  follows (card top_image) 0 mounted 0x0fffffed [0x0fffffee; 0x0fffffef] 0x0ffffff0
  /\ Forall (fun c => chain_end c = false) [0x0fffffed; 0x0fffffee; 0x0fffffef]
  /\ chain_end 0x0ffffff0 = true
  /\ cluster_size mounted = 1
  /\ outcome (load_from_cluster (card top_image) zeros 8 0 0x0fffffed 0x2000 mounted)
     = Some (0x2800, [BlockRead 0 Local 2099231 1;
                      BlockRead 0 (Ram 0x2000) 268437531 4]).
Proof.
  split; [|split; [|split; [|split]]].
  - vm_compute. repeat split; reflexivity.
  - repeat constructor.
  - reflexivity.
  - reflexivity.
  - vm_compute. reflexivity.
Qed.

Lemma load_from_cluster_terminates_witness :
  exists p st' evs,
    load_from_cluster (card fat32_image) zeros 4 0 3 0x2000 mounted = Some (p, st')
    /\ log st' = log mounted ++ evs
    /\ filter is_diag evs = []
    /\ p = u32 (0x2000 + total_sectors evs * FAT_BLOCK_SIZE).
Proof.
  apply (load_from_cluster_terminates (card fat32_image) zeros 0 mounted
           3 0x2000 4 4).
  - apply card_reliable.
  - vm_compute. discriminate.
  - lia.
  - vm_compute. reflexivity.
  - vm_compute. discriminate.
  - lia.
Defined.

(** The loader never returns on the card [loop_image] from cluster
    0x0fffffef: at that cluster it finds the successor 0x0ffffff0
    contiguous, at 0x0ffffff0 it finds 0x0fffffef, closes the batch, and
    starts the next batch at 0x0fffffef. *)
Lemma loop_image_spins fuel :
  (forall sector cached ds nm addr st,
      same_geometry mounted st ->
      (fat_sector_of mounted 0x0fffffef = cached ->
       sector = blocks (card loop_image) 0 cached) ->
      batch_loop (card loop_image) fuel 0 sector cached 0x0fffffef ds nm addr st
      = None)
  /\ (forall sector cached ds nm addr st,
         same_geometry mounted st ->
         (fat_sector_of mounted 0x0ffffff0 = cached ->
          sector = blocks (card loop_image) 0 cached) ->
         batch_loop (card loop_image) fuel 0 sector cached 0x0ffffff0 ds nm addr st
         = None).
Proof.
  induction fuel as [|fuel [IHa IHb]]; [split; reflexivity|].
  split; intros sector cached ds nm addr st Hg Hco;
    rewrite (batch_loop_step (card loop_image) 0 mounted (card_reliable _)
               fuel sector cached _ ds nm addr st Hg Hco);
    cbv zeta.
  - change (fat_next (card loop_image) 0 mounted 0x0fffffef) with 0x0ffffff0.
    change (0x0ffffff0 =? add32 0x0fffffef 1) with true. cbv iota.
    apply IHb.
    + destruct (_ =? _); [exact Hg | apply same_geometry_emit; exact Hg].
    + intros _. reflexivity.
  - change (fat_next (card loop_image) 0 mounted 0x0ffffff0) with 0x0fffffef.
    change (0x0fffffef =? add32 0x0ffffff0 1) with false.
    change (chain_end 0x0fffffef) with false. cbv iota.
    apply IHa.
    + destruct (mmc_block_read_ok (card loop_image) 0 mounted (card_reliable _)
                  addr ds nm
                  (if fat_sector_of mounted 0x0ffffff0 =? cached then st
                   else emit (BlockRead 0 Local (fat_sector_of mounted 0x0ffffff0) 1) st))
        as (st2 & Hrd & _ & Hg2).
      rewrite Hrd. cbn [snd]. apply Hg2.
      destruct (_ =? _); [exact Hg | apply same_geometry_emit; exact Hg].
    + intros _. reflexivity.
Qed.

(** C3 as stated fails: on [loop_image] the successor of the start
    cluster 0x0fffffef is 0x0ffffff0, a chain-end value reached after one
    step, and [load_from_cluster] returns with no amount of fuel. *)
Lemma load_from_cluster_terminates_counterexample :
  chain_at (card loop_image) 0 mounted 1 0x0fffffef = 0x0ffffff0
  /\ chain_end 0x0ffffff0 = true
  /\ ~ (exists fuel r,
           load_from_cluster (card loop_image) zeros fuel 0 0x0fffffef 0x2000 mounted
           = Some r).
Proof.
  split; [vm_compute; reflexivity|]. split; [reflexivity|].
  intros (fuel & r & Hr). unfold load_from_cluster in Hr.
  rewrite (proj1 (loop_image_spins fuel)) in Hr; [discriminate| |].
  - apply same_geometry_refl.
  - intros Hc. vm_compute in Hc. discriminate.
Qed.

Lemma fat_sector_read_only_on_miss_witness :
  exists p st' evs,
    load_from_cluster (card fat32_image) zeros 4 0 3 0x2000 mounted = Some (p, st')
    /\ log st' = log mounted ++ evs
    /\ filter is_local_read evs = [BlockRead 0 Local 2080 1].
Proof.
  apply (proj2 (fat_sector_read_only_on_miss (card fat32_image) zeros 0)
           mounted 3 [4; 5; 10] 0x0fffffff 0x2000 4%nat 2080).
  - apply card_reliable.
  - vm_compute. discriminate.
  - reflexivity.
  - repeat constructor.
  - vm_compute. repeat split; reflexivity.
  - repeat constructor.
  - reflexivity.
  - vm_compute. discriminate.
  - cbn. lia.
Defined.

(** C6 as stated fails: with the first FAT sector at 0xffffffff, the
    entry of cluster 2 (the whole chain, ended by 0x0fffffff) lies in FAT
    sector 0xffffffff, the number the cache starts with; the call requests
    no FAT-sector read at all, where the claim has exactly one. *)
Lemma fat_sector_read_only_on_miss_counterexample :
  fat_sector_of fat_at_top 2 = 0xffffffff
  /\ follows (card top_fat_image) 0 fat_at_top 2 [] 0x0fffffff
  /\ chain_end 0x0fffffff = true
  /\ outcome (load_from_cluster (card top_fat_image) zeros 8 0 2 0x2000 fat_at_top)
     = Some (0x2200, [BlockRead 0 (Ram 0x2000) 16 1])
  /\ filter is_local_read [BlockRead 0 (Ram 0x2000) 16 1] = [].
Proof.
  split; [|split; [|split; [|split]]]; vm_compute; reflexivity.
Qed.

Lemma load_from_cluster_from_chain_end_witness :
  exists st',
    load_from_cluster (card fat32_image) zeros 1 0 0 0x2000 mounted
      = Some (u32 (0x2000 + cluster_size mounted * FAT_BLOCK_SIZE), st')
    /\ log st'
       = log mounted ++ [BlockRead 0 Local (fat_sector_of mounted 0) 1;
                         BlockRead 0 (Ram 0x2000)
                           (u32 (lba_data mounted + (0 - 2) * cluster_size mounted))
                           (u32 (cluster_size mounted))].
Proof.
  apply (load_from_cluster_from_chain_end (card fat32_image) zeros 0 mounted
           0 0x2000 1).
  - reflexivity.
  - vm_compute. discriminate.
  - reflexivity.
  - reflexivity.
  - vm_compute. reflexivity.
  - vm_compute. discriminate.
  - lia.
Defined.

(** C10 as stated fails: on a card not cleanly unmounted, entry 1 of the
    FAT is 0x07ffffff.  From the start cluster 1 (a chain-end value) the
    loader reads one cluster, finds the successor 0x07ffffff, which is not
    a chain-end value, and goes on: two FAT-sector reads, two data reads,
    and a result 2 * 512 bytes past the destination. *)
Lemma load_from_cluster_from_chain_end_counterexample :
  chain_end 1 = true
  /\ cluster_size mounted = 1
  /\ outcome (load_from_cluster (card dirty_image) zeros 8 0 1 0x2000 mounted)
     = Some (0x2400, [BlockRead 0 Local 2080 1;
                      BlockRead 0 (Ram 0x2000) 2095 1;
                      BlockRead 0 Local 1050655 1;
                      BlockRead 0 (Ram 0x2200) 134219821 1]).
Proof.
  split; [|split]; vm_compute; reflexivity.
Qed.

(** ** The whole load *)

Example boots_regular_kernel :
  outcome (mmc_load_kernel (card fat32_image) zeros 8 0 0x2000 0 power_on)
  = Some (0, [BlockRead 0 Local 0 1; BlockRead 0 Local 2048 1;
              PutS ("MMC: FAT32 filesystem detected." ++ newline);
              BlockRead 0 Local 2080 1; BlockRead 0 (Ram 0x2000) 2096 1;
              PutS loading;
              BlockRead 0 Local 2080 1; BlockRead 0 (Ram 0x2000) 2097 3;
              BlockRead 0 (Ram 0x2600) 2104 1]).
Proof. vm_compute. reflexivity. Qed.

Example boots_alternate_kernel_on_request :
  outcome (mmc_load_kernel (card fat32_image) zeros 8 0 0x2000 1 power_on)
  = Some (1, [BlockRead 0 Local 0 1; BlockRead 0 Local 2048 1;
              PutS ("MMC: FAT32 filesystem detected." ++ newline);
              BlockRead 0 Local 2080 1; BlockRead 0 (Ram 0x2000) 2096 1;
              PutS loading;
              BlockRead 0 Local 2080 1; BlockRead 0 (Ram 0x2000) 2100 1]).
Proof. vm_compute. reflexivity. Qed.

Example falls_back_to_alternate_kernel :
  option_map fst
    (mmc_load_kernel (card alternate_only_image) zeros 8 0 0x2000 0 power_on)
  = Some 1.
Proof. vm_compute. reflexivity. Qed.

Example falls_back_to_regular_kernel :
  option_map fst
    (mmc_load_kernel
       (card [(0, mbr_sector); (2048, boot_sector "FAT32   "); (2080, fat_sector);
              (2096, dir_entry 0 "KERNEL  BIN" 0x20 3)])
       zeros 8 0 0x2000 1 power_on)
  = Some 0.
Proof. vm_compute. reflexivity. Qed.

(** The data of the regular kernel cannot be read: the error is
    remembered, the root directory is loaded again, and the alternate
    kernel is booted. *)
Example reloads_root_after_failed_load :
  outcome (mmc_load_kernel (worn_card fat32_image [2097]) zeros 8 0 0x2000 0 power_on)
  = Some (1, [BlockRead 0 Local 0 1; BlockRead 0 Local 2048 1;
              PutS ("MMC: FAT32 filesystem detected." ++ newline);
              BlockRead 0 Local 2080 1; BlockRead 0 (Ram 0x2000) 2096 1;
              PutS loading;
              BlockRead 0 Local 2080 1; BlockRead 0 (Ram 0x2000) 2097 3; PutI 0x03;
              BlockRead 0 Local 2080 1; BlockRead 0 (Ram 0x2000) 2096 1;
              PutS loading;
              BlockRead 0 Local 2080 1; BlockRead 0 (Ram 0x2000) 2100 1]).
Proof. vm_compute. reflexivity. Qed.

(** Neither kernel can be read: -1, and no "not found" diagnostic. *)
Example both_loads_fail :
  outcome (mmc_load_kernel (worn_card fat32_image [2097; 2100]) zeros 8 0 0x2000 0
             power_on)
  = Some (-1, [BlockRead 0 Local 0 1; BlockRead 0 Local 2048 1;
               PutS ("MMC: FAT32 filesystem detected." ++ newline);
               BlockRead 0 Local 2080 1; BlockRead 0 (Ram 0x2000) 2096 1;
               PutS loading;
               BlockRead 0 Local 2080 1; BlockRead 0 (Ram 0x2000) 2097 3; PutI 0x03;
               BlockRead 0 Local 2080 1; BlockRead 0 (Ram 0x2000) 2096 1;
               PutS loading;
               BlockRead 0 Local 2080 1; BlockRead 0 (Ram 0x2000) 2100 1; PutI 0x03]).
Proof. vm_compute. reflexivity. Qed.

(** Neither kernel is in the root directory: -1 after the diagnostic 0x07. *)
Example kernel_not_found :
  outcome (mmc_load_kernel
             (card [(0, mbr_sector); (2048, boot_sector "FAT32   ");
                    (2080, fat_sector)])
             zeros 8 0 0x2000 0 power_on)
  = Some (-1, [BlockRead 0 Local 0 1; BlockRead 0 Local 2048 1;
               PutS ("MMC: FAT32 filesystem detected." ++ newline);
               BlockRead 0 Local 2080 1; BlockRead 0 (Ram 0x2000) 2096 1;
               PutI 0x07]).
Proof. vm_compute. reflexivity. Qed.

(** No MBR signature: one read, of sector 0, and -1. *)
Example no_signature :
  outcome (mmc_load_kernel (card [(0, put8 446 0x80 ++ put32 454 2048)])
             zeros 8 0 0x2000 0 power_on)
  = Some (-1, [BlockRead 0 Local 0 1; PutI 0x01]).
Proof. vm_compute. reflexivity. Qed.

Lemma pair_of_fst {A B : Type} (x : A * B) (a : A) : fst x = a -> x = (a, snd x).
Proof. destruct x as [a' b]. cbn. intros ->. reflexivity. Defined.

Lemma run_result (r : option (Z * machine)) (v : Z) :
  option_map fst r = Some v -> r = Some (v, snd (result r)).
Proof.
  destruct r as [[a b]|]; cbn; [|discriminate].
  intros Hv. inversion Hv. reflexivity.
Defined.


(** Neither kernel can be read: the root directory is loaded again after
    the first failed load, and -1 is returned with no code 0x07. *)
Lemma mmc_load_kernel_failed_load_witness :
  let dev := worn_card fat32_image [2097; 2100] in
  let st1 := snd (get_first_partition dev zeros 0 0 power_on) in
  let st2 := snd (process_boot_sector dev zeros 0 2048 st1) in
  let st3 := snd (result (root_load dev zeros 8 0 0x2000 st2)) in
  let st4 := snd (result (load_from_cluster dev zeros 8 0
                            (start_cluster (ram st3) 0x2040) 0x2000
                            (SERIAL_PUTS loading st3))) in
  let st5 := snd (result (root_load dev zeros 8 0 0x2000 st4)) in
  let st6 := snd (result (load_from_cluster dev zeros 8 0
                            (start_cluster (ram st5) 0x2060) 0x2000
                            (SERIAL_PUTS loading st5))) in
  mmc_load_kernel dev zeros 8 0 0x2000 0 power_on = Some (-1, st6).
Proof.
  intros dev st1 st2 st3 st4 st5 st6.
  assert (Hp : get_first_partition dev zeros 0 0 power_on = (0, 2048, st1))
    by (apply pair_of_fst; vm_compute; reflexivity).
  assert (Hb : process_boot_sector dev zeros 0 2048 st1 = (0, st2))
    by (apply pair_of_fst; vm_compute; reflexivity).
  assert (Hroot : root_load dev zeros 8 0 0x2000 st2 = Some (0x2200, st3))
    by (apply run_result; vm_compute; reflexivity).
  assert (He : 0x2200 <> NULL) by (vm_compute; discriminate).
  assert (Ha : attempted dev zeros 8 0 0x2000 (fst (priority 0)) 0x2200 st3
                 (Failed st4)).
  { exists 0x2040.
    split; [vm_compute; reflexivity|].
    split; [vm_compute; discriminate|].
    apply run_result; vm_compute; reflexivity. }
  assert (Hroot2 : root_load dev zeros 8 0 0x2000 st4 = Some (0x2200, st5))
    by (apply run_result; vm_compute; reflexivity).
  assert (Ha2 : attempted dev zeros 8 0 0x2000 (snd (priority 0)) 0x2200 st5
                  (Failed st6)).
  { exists 0x2060.
    split; [vm_compute; reflexivity|].
    split; [vm_compute; discriminate|].
    apply run_result; vm_compute; reflexivity. }
  exact (proj2 (proj1 (proj2 (mmc_load_kernel_failed_load dev zeros 8 0 0x2000 0
                                power_on 2048 st1 st2 0x2200 st3 Hp Hb Hroot) He)
                  st4 0x2200 st5 Ha Hroot2) He (Failed st6) Ha2).
Defined.

(** ** The directory search *)

Lemma eleven_bytes (P : Z -> Prop) :
  P 0 -> P 1 -> P 2 -> P 3 -> P 4 -> P 5 -> P 6 -> P 7 -> P 8 -> P 9 -> P 10 ->
  forall i, 0 <= i < 11 -> P i.
Proof.
  intros H0 H1 H2 H3 H4 H5 H6 H7 H8 H9 H10 i Hi.
  assert (Hc : i = 0 \/ i = 1 \/ i = 2 \/ i = 3 \/ i = 4 \/ i = 5 \/ i = 6
               \/ i = 7 \/ i = 8 \/ i = 9 \/ i = 10) by lia.
  repeat (destruct Hc as [->|Hc]; [assumption|]). subst i. assumption.
Defined.

Example finds_first_entry :
  find_file 4 directory_ram 0x1000 0x1060 (literal (codes "FOO     BIN"))
  = Some 0x1000.
Proof. vm_compute. reflexivity. Qed.

Example skips_directory :
  find_file 4 directory_ram 0x1000 0x1060 (literal (codes "BAR        "))
  = Some NULL.
Proof. vm_compute. reflexivity. Qed.

Example stops_at_terminator :
  find_file 4 (peek (dir_entry 0x1020 "FOO     BIN" 0x00 9)) 0x1000 0x1060
    (literal (codes "FOO     BIN"))
  = Some NULL.
Proof. vm_compute. reflexivity. Qed.

Lemma find_file_spec_witness :
  let m := directory_ram in
  let name := literal (codes "FOO     BIN") in
  exists r,
    find_file 4 m 0x1000 (u32 (0x1000 + Z.of_nat 3 * sizeof_dir_entry)) name
      = Some r
    /\ ((exists k, (k < 3)%nat
                   /\ r = u32 (0x1000 + Z.of_nat k * sizeof_dir_entry)
                   /\ live m 0x1000 k /\ ~ labelled m 0x1000 k
                   /\ named m 0x1000 name k
                   /\ forall j, (j < k)%nat -> passed m 0x1000 name j)
        \/ (r = NULL /\ exists k, (k < 3)%nat /\ ~ live m 0x1000 k
                                  /\ forall j, (j < k)%nat -> passed m 0x1000 name j)
        \/ (r = NULL /\ forall j, (j < 3)%nat -> passed m 0x1000 name j)).
Proof.
  apply (find_file_spec directory_ram 0x1000 (literal (codes "FOO     BIN")) 3 4).
  - reflexivity.
  - reflexivity.
  - lia.
  - apply eleven_bytes; vm_compute; discriminate.
  - lia.
Defined.

End Cards.

(** * Examples for the further properties *)

Section MoreCards.

Import Sample.

#[local] Existing Instance standard.

Lemma get_first_partition_reports_witness :
  get_first_partition (card [(0, put8 446 0x33 ++ put32 454 2048)]) zeros 0 7 power_on
  = (-1, 7, SERIAL_PUTI 0x01 (emit (BlockRead 0 Local 0 1) power_on)).
Proof.
  apply (proj1 (proj2 (get_first_partition_reports
                         (card [(0, put8 446 0x33 ++ put32 454 2048)]) zeros
                         0 7 power_on))).
  - reflexivity.
  - vm_compute. discriminate.
Defined.

Lemma process_boot_sector_read_failure_witness :
  let r := process_boot_sector (worn_card fat32_image [2048]) zeros 0 2048 mounted in
  fst r = -1
  /\ log (snd r) = log mounted ++ [BlockRead 0 Local 2048 1; PutI 0x03]
  /\ same_geometry mounted (snd r)
  /\ ram (snd r) = ram mounted.
Proof.
  apply (process_boot_sector_read_failure (worn_card fat32_image [2048]) zeros
           0 2048 mounted).
  vm_compute. discriminate.
Defined.

Lemma process_boot_sector_accepts_iff_witness :
  fst (process_boot_sector (card fat32_image) zeros 0 2048 power_on) = 0.
Proof.
  apply (proj2 (proj1 (process_boot_sector_accepts_iff (card fat32_image) zeros
                         0 2048 power_on))).
  split; [reflexivity|].
  intros k Hk.
  assert (Hc : k = 0 \/ k = 1 \/ k = 2 \/ k = 3 \/ k = 4) by lia.
  destruct Hc as [->|[->|[->|[->| ->]]]]; vm_compute; reflexivity.
Defined.

Lemma load_from_cluster_keeps_geometry_witness :
  let st' := snd (result (load_from_cluster (worn_card fat32_image [2104]) zeros
                            4 0 3 0x2000 mounted)) in
  same_geometry mounted st'
  /\ exists evs, log st' = log mounted ++ evs /\ Forall (loader_event 0) evs.
Proof.
  apply (load_from_cluster_keeps_geometry (worn_card fat32_image [2104]) zeros 0
           4 3 0x2000 mounted NULL).
  apply run_result. vm_compute. reflexivity.
Defined.

Example second_batch_fails :
  outcome (load_from_cluster (worn_card fat32_image [2104]) zeros 4 0 3 0x2000 mounted)
  = Some (NULL, [BlockRead 0 Local 2080 1; BlockRead 0 (Ram 0x2000) 2097 3;
                 BlockRead 0 (Ram 0x2600) 2104 1; PutI 0x03]).
Proof. vm_compute. reflexivity. Qed.

Example fat_read_fails :
  outcome (load_from_cluster (worn_card fat32_image [2080]) zeros 4 0 3 0x2000 mounted)
  = Some (NULL, [BlockRead 0 Local 2080 1; PutI 0x04]).
Proof. vm_compute. reflexivity. Qed.

Lemma load_from_cluster_failure_report_witness :
  let st' := snd (result (load_from_cluster (worn_card fat32_image [2104]) zeros
                            4 0 3 0x2000 mounted)) in
  exists evs,
    log st' = log mounted ++ evs
    /\ ((filter is_diag evs = []
         /\ NULL = u32 (0x2000 + total_sectors evs * FAT_BLOCK_SIZE))
        \/ (NULL = NULL
            /\ exists evs0 s,
                 evs = evs0 ++ [BlockRead 0 Local s 1; PutI 0x04]
                 /\ filter is_diag evs0 = []
                 /\ status (worn_card fat32_image [2104]) (log mounted ++ evs0) 0 s 1
                    <> 0)
        \/ (NULL = NULL
            /\ exists evs0 a s n,
                 evs = evs0 ++ [BlockRead 0 (Ram a) s n; PutI 0x03]
                 /\ filter is_diag evs0 = []
                 /\ status (worn_card fat32_image [2104]) (log mounted ++ evs0) 0 s n
                    <> 0)).
Proof.
  apply (load_from_cluster_failure_report (worn_card fat32_image [2104]) zeros 0
           4 3 0x2000 mounted NULL).
  apply run_result. vm_compute. reflexivity.
Defined.

Lemma load_from_cluster_returns_iff_witness :
  (exists r, load_from_cluster (card fat32_image) zeros 4 0 3 0x2000 mounted = Some r)
  <-> (exists k, (1 <= k <= 4)%nat
                 /\ chain_end (chain_at (card fat32_image) 0 mounted k 3) = true
                 /\ chain_at (card fat32_image) 0 mounted k 3
                    <> add32 (chain_at (card fat32_image) 0 mounted (k - 1) 3) 1).
Proof.
  apply (load_from_cluster_returns_iff (card fat32_image) zeros 0 mounted 3 0x2000 4).
  - apply card_reliable.
  - vm_compute. discriminate.
Defined.

(** Three lookups are not enough for the chain 3, 4, 5, 10. *)
Example out_of_fuel :
  load_from_cluster (card fat32_image) zeros 3 0 3 0x2000 mounted = None.
Proof. vm_compute. reflexivity. Qed.

Example fat_sectors_read_again :
  outcome (load_from_cluster (card two_sector_image) zeros 4 0 3 0x2000 mounted)
  = Some (0x2600, [BlockRead 0 Local 2080 1; BlockRead 0 (Ram 0x2000) 2097 1;
                   BlockRead 0 Local 2081 1; BlockRead 0 (Ram 0x2200) 2224 1;
                   BlockRead 0 Local 2080 1; BlockRead 0 (Ram 0x2400) 2098 1]).
Proof. vm_compute. reflexivity. Qed.

Lemma load_from_cluster_fat_reads_witness :
  exists p st' evs,
    load_from_cluster (card two_sector_image) zeros 4 0 3 0x2000 mounted = Some (p, st')
    /\ log st' = log mounted ++ evs
    /\ local_reads evs = misses NO_SECTOR (map (fat_sector_of mounted) [3; 130; 4]).
Proof.
  apply (load_from_cluster_fat_reads (card two_sector_image) zeros 0 mounted
           3 [130; 4] 0x0fffffff 0x2000 4).
  - apply card_reliable.
  - vm_compute. discriminate.
  - vm_compute. repeat split; reflexivity.
  - repeat constructor.
  - reflexivity.
  - vm_compute. discriminate.
  - cbn. lia.
Defined.

Lemma load_from_cluster_advance_witness :
  exists st',
    load_from_cluster (card fat32_image) zeros 4 0 3 0x2000 mounted
    = Some (u32 (0x2000 + Z.of_nat (List.length [3; 4; 5; 10]) * cluster_size mounted
                          * FAT_BLOCK_SIZE), st').
Proof.
  apply (load_from_cluster_advance (card fat32_image) zeros 0 mounted
           3 [4; 5; 10] 0x0fffffff 0x2000 4).
  - apply card_reliable.
  - vm_compute. discriminate.
  - vm_compute. repeat split; reflexivity.
  - repeat constructor.
  - reflexivity.
  - vm_compute. discriminate.
  - cbn. lia.
Defined.

Lemma load_from_cluster_copies_chain_witness :
  exists p st',
    load_from_cluster (card payload_image) zeros 4 0 3 0x2000 mounted = Some (p, st')
    /\ (forall j tt o,
           (j < List.length [3; 4; 5; 10])%nat ->
           0 <= tt < cluster_size mounted ->
           0 <= o < FAT_BLOCK_SIZE ->
           ram st' (u32 (0x2000 + ((Z.of_nat j * cluster_size mounted + tt)
                                   * FAT_BLOCK_SIZE + o)))
           = disk (card payload_image) 0
               (u32 (lba_data mounted + (nth j [3; 4; 5; 10] 0 - 2) * cluster_size mounted
                     + tt)) o)
    /\ (forall a,
           Z.of_nat (List.length [3; 4; 5; 10]) * cluster_size mounted * FAT_BLOCK_SIZE
           <= u32 (a - 0x2000) ->
           ram st' a = ram mounted a).
Proof.
  apply (load_from_cluster_copies_chain (card payload_image) zeros 0 mounted
           3 [4; 5; 10] 0x0fffffff 0x2000 4).
  - apply card_reliable.
  - vm_compute. discriminate.
  - vm_compute. repeat split; reflexivity.
  - repeat constructor.
  - reflexivity.
  - vm_compute. discriminate.
  - cbn. lia.
  - reflexivity.
  - vm_compute. discriminate.
  - reflexivity.
Defined.

(** The first bytes of cluster 3 and byte 5 of cluster 10, the fourth
    cluster of the chain, where the load puts them. *)
Example payload_in_ram :
  let m := ram (snd (result (load_from_cluster (card payload_image) zeros 4 0 3
                               0x2000 mounted))) in
  (m 0x2000, m 0x2001, m (0x2000 + 3 * 512 + 5), m 0x1fff, m 0x2800)
  = (0x7f, 0x45, 0xbb, 0, 0).
Proof. vm_compute. reflexivity. Qed.

Lemma find_file_ignores_deleted_witness :
  exists r,
    find_file 4 directory_ram 0x1000 (u32 (0x1000 + Z.of_nat 3 * sizeof_dir_entry))
      (literal (codes "FOO     BIN")) = Some r
    /\ (r = NULL
        \/ exists k, (k < 3)%nat /\ r = slot 0x1000 k
                     /\ entry_name directory_ram r 0 <> 0xE5).
Proof.
  apply (find_file_ignores_deleted directory_ram 0x1000
           (literal (codes "FOO     BIN")) 3 4).
  - reflexivity.
  - reflexivity.
  - lia.
  - apply eleven_bytes; vm_compute; discriminate.
  - vm_compute. discriminate.
  - lia.
Defined.

(** A deleted copy of the file before the file itself is passed over. *)
Example deleted_entry_passed_over :
  find_file 4
    (peek (put8 0x1000 0xE5 ++ put_text 0x1001 (codes "OO     BIN")
           ++ dir_entry 0x1020 "FOO     BIN" 0x00 9))
    0x1000 0x1060 (literal (codes "FOO     BIN"))
  = Some 0x1020.
Proof. vm_compute. reflexivity. Qed.

Lemma ones_passed k : passed ones 0x1000 (literal (codes "FOO     BIN")) k.
Proof.
  split.
  - vm_compute. discriminate.
  - right. intros Hn. specialize (Hn 0 ltac:(lia)). vm_compute in Hn. discriminate.
Defined.

Lemma find_file_needs_aligned_end_witness :
  find_file 1000 ones 0x1000 0x1001 (literal (codes "FOO     BIN")) = None.
Proof.
  apply (find_file_needs_aligned_end ones 0x1000 (literal (codes "FOO     BIN"))
           0x1001 1000).
  - reflexivity.
  - exists (2 ^ 27). reflexivity.
  - lia.
  - intros (d & Hd). cbn in Hd. lia.
  - apply eleven_bytes; vm_compute; discriminate.
  - apply ones_passed.
Defined.

Lemma mmc_load_kernel_without_partition_witness :
  exists code st',
    mmc_load_kernel (card [(0, put8 446 0x80 ++ put32 454 2048)]) zeros 0 0 0x2000 0
      power_on = Some (-1, st')
    /\ log st' = log power_on ++ [BlockRead 0 Local 0 1; PutI code]
    /\ same_geometry power_on st'
    /\ ram st' = ram power_on.
Proof.
  apply (mmc_load_kernel_without_partition
           (card [(0, put8 446 0x80 ++ put32 454 2048)]) zeros 0 0 0x2000 0 power_on).
  right. left. vm_compute. discriminate.
Defined.

Lemma mmc_load_kernel_without_fat32_witness :
  let lba := mbr_partition0_lba (blocks (card fat16_image) 0 0) in
  exists code st',
    mmc_load_kernel (card fat16_image) zeros 0 0 0x2000 0 power_on = Some (-1, st')
    /\ log st' = log power_on ++ [BlockRead 0 Local 0 1; BlockRead 0 Local lba 1;
                                  PutI code]
    /\ (code = 0x03 \/ code = 0x05)
    /\ ram st' = ram power_on.
Proof.
  apply (mmc_load_kernel_without_fat32 (card fat16_image) zeros 0 0 0x2000 0 power_on).
  - reflexivity.
  - vm_compute. reflexivity.
  - right. vm_compute. reflexivity.
  - right. exists 3. split; [lia|]. vm_compute. discriminate.
Defined.

Lemma second_pass_reuses_directory_witness :
  let st1 := snd (result (load_from_cluster (card alternate_only_image) zeros 4 0 2
                            0x2000 mounted)) in
  passes (card alternate_only_image) zeros 2 4 0 0x2000 0 0 loop_entry mounted
  = load_candidate (card alternate_only_image) zeros 4 0 0x2000 0 1
      {| dir_start := 0x2000; dir_end := 0x2200; err := err loop_entry |} st1.
Proof.
  apply (second_pass_reuses_directory (card alternate_only_image) zeros 4 0 0x2000 0
           loop_entry mounted 0x2200).
  - reflexivity.
  - vm_compute. discriminate.
  - apply run_result. vm_compute. reflexivity.
  - vm_compute. discriminate.
  - vm_compute. reflexivity.
Defined.

Lemma mmc_load_kernel_boots_first_candidate_witness :
  let st3 := snd (result (load_from_cluster (card payload_image) zeros 4 0 2 0x2000
                            (snd (process_boot_sector (card payload_image) zeros 0 2048
                                    (snd (get_first_partition (card payload_image)
                                            zeros 0 0 power_on)))))) in
  let c := start_cluster (ram st3) 0x2040 in
  c = 3
  /\ exists st',
       mmc_load_kernel (card payload_image) zeros 4 0 0x2000 0 power_on
         = Some (code_of (candidate 0 0), st')
       /\ forall j tt o,
            (j < List.length (c :: [4; 5; 10]%Z))%nat ->
            0 <= tt < cluster_size st3 ->
            0 <= o < FAT_BLOCK_SIZE ->
            ram st' (0x2000 + ((Z.of_nat j * cluster_size st3 + tt)
                               * FAT_BLOCK_SIZE + o))
            = disk (card payload_image) 0
                (u32 (lba_data st3 + (nth j (c :: [4; 5; 10]) 0 - 2) * cluster_size st3
                      + tt)) o.
Proof.
  intros st3 c. split; [vm_compute; reflexivity|].
  apply (mmc_load_kernel_boots_first_candidate (card payload_image) zeros
           4 0 0x2000 0 power_on 2048
           (snd (get_first_partition (card payload_image) zeros 0 0 power_on))
           (snd (process_boot_sector (card payload_image) zeros 0 2048
                   (snd (get_first_partition (card payload_image) zeros 0 0
                           power_on))))
           0x2200 st3 0x2040 [4; 5; 10] 0x0fffffff).
  - apply card_reliable.
  - apply pair_of_fst. vm_compute. reflexivity.
  - apply pair_of_fst. vm_compute. reflexivity.
  - apply run_result. vm_compute. reflexivity.
  - vm_compute. discriminate.
  - vm_compute. reflexivity.
  - vm_compute. discriminate.
  - vm_compute. discriminate.
  - vm_compute. repeat split; reflexivity.
  - repeat constructor.
  - reflexivity.
  - vm_compute. discriminate.
  - cbn. lia.
  - reflexivity.
  - vm_compute. discriminate.
  - reflexivity.
  - vm_compute. reflexivity.
Defined.

Example boots_with_payload :
  let r := result (mmc_load_kernel (card payload_image) zeros 4 0 0x2000 0 power_on) in
  (fst r, ram (snd r) 0x2000, ram (snd r) 0x2001, ram (snd r) (0x2000 + 3 * 512 + 5))
  = (0, 0x7f, 0x45, 0xbb).
Proof. vm_compute. reflexivity. Qed.

Lemma mmc_load_kernel_flag_witness :
  mmc_load_kernel (card fat32_image) zeros 4 0 0x2000 (-7) power_on
  = mmc_load_kernel (card fat32_image) zeros 4 0 0x2000 1 power_on.
Proof.
  apply (mmc_load_kernel_flag (card fat32_image) zeros 4 0 0x2000 (-7) power_on).
  discriminate.
Defined.

Lemma start_cluster_halves_witness :
  let m := peek (dir_entry 0x1000 "FOO     BIN" 0x00 0x12345) in
  start_cluster m 0x1000 = entry_starthi m 0x1000 * 65536 + entry_start m 0x1000.
Proof.
  apply (start_cluster_halves
           (peek (dir_entry 0x1000 "FOO     BIN" 0x00 0x12345)) 0x1000).
  - vm_compute. split; [discriminate | reflexivity].
  - vm_compute. split; [discriminate | reflexivity].
Defined.

Example start_cluster_of_entry :
  start_cluster (peek (dir_entry 0x1000 "FOO     BIN" 0x00 0x12345)) 0x1000 = 0x12345.
Proof. vm_compute. reflexivity. Qed.

End MoreCards.
